(** * The story engine of [ai_storybook.py]

    A shallow embedding of the interactive story book: the world state, the
    story nodes produced by [StoryGenerator], and the state machine of
    [StoryEngine] ([step], the climax funnel, the side-effect table, the
    ending rewrite and the command dispatcher), followed by the properties
    of the engine that the design document states.

    Conventions of the embedding.
    - A Python [str] is held as its UTF-8 encoding, one byte per [ascii];
      two strings are equal when their encodings are.  [strip], [split] and
      slicing work on the characters (code points) the bytes encode, with
      the white space of Unicode.  [lower] and [upper] follow the case
      tables of the interpreter, which the embedding takes as an interface
      ([PyText]), like its random numbers and its hash ([PyRuntime]).
    - [dict] is [gmap] where the engine only looks keys up (nodes, choices,
      flags) and an association list where the order of the keys is used
      (the motif table of [_world_description]).
    - A method that mutates [self] is a computation over the engine and the
      pending lines of standard input, which may end by an exception; what
      was mutated before the exception stays mutated, as in Python.
    - [print] does not touch the engine and is left out. *)

From Stdlib Require Import ZArith NArith Ascii String List Bool Lia.
From stdpp Require Import base option list strings gmap fin_maps.

Local Open Scope string_scope.
Local Open Scope Z_scope.

(** ** Python string operations *)

Module PyStr.

(** A continuation byte of UTF-8, [10xxxxxx]. *)
Definition is_continuation (b : ascii) : bool :=
  let n := N_of_ascii b in ((128 <=? n) && (n <? 192))%N.

(** The characters of a string, each as the bytes that encode it: a byte
    starts a character unless it is a continuation byte. *)
Fixpoint chars (s : string) : list string :=
  match s with
  | EmptyString => []
  | String b r =>
      match chars r with
      | String b' c :: rest =>
          if is_continuation b' then String b (String b' c) :: rest
          else String b EmptyString :: String b' c :: rest
      | cs => String b EmptyString :: cs
      end
  end.

(** The string made of the given characters. *)
Definition unchars (cs : list string) : string :=
  fold_right String.append EmptyString cs.

(** The code point a character encodes (17 * 2^16, which is no code point,
    for bytes that encode none). *)
Definition code_point (c : string) : N :=
  let low (b : ascii) := (N_of_ascii b mod 64)%N in
  match c with
  | String b0 EmptyString =>
      if (N_of_ascii b0 <? 128)%N then N_of_ascii b0 else 1114112%N
  | String b0 (String b1 EmptyString) =>
      ((N_of_ascii b0 mod 32) * 64 + low b1)%N
  | String b0 (String b1 (String b2 EmptyString)) =>
      ((N_of_ascii b0 mod 16) * 4096 + low b1 * 64 + low b2)%N
  | String b0 (String b1 (String b2 (String b3 EmptyString))) =>
      ((N_of_ascii b0 mod 8) * 262144 + low b1 * 4096 + low b2 * 64 + low b3)%N
  | _ => 1114112%N
  end.

(** The white space of [str.strip] and [str.split]: U+0009..U+000D,
    U+001C..U+0020, U+0085, U+00A0, U+1680, U+2000..U+200A, U+2028, U+2029,
    U+202F, U+205F and U+3000. *)
Definition is_space_code (n : N) : bool :=
  ((9 <=? n) && (n <=? 13) || (28 <=? n) && (n <=? 32)
   || (n =? 133) || (n =? 160) || (n =? 5760)
   || (8192 <=? n) && (n <=? 8202)
   || (n =? 8232) || (n =? 8233) || (n =? 8239) || (n =? 8287) || (n =? 12288))%N.

Definition is_space (c : string) : bool := is_space_code (code_point c).

Fixpoint lstrip_chars (cs : list string) : list string :=
  match cs with
  | [] => []
  | c :: cs' => if is_space c then lstrip_chars cs' else cs
  end.

Fixpoint rstrip_chars (cs : list string) : list string :=
  match cs with
  | [] => []
  | c :: cs' =>
      match rstrip_chars cs' with
      | [] => if is_space c then [] else [c]
      | r => c :: r
      end
  end.

(** [s.strip()] *)
Definition strip (s : string) : string :=
  unchars (rstrip_chars (lstrip_chars (chars s))).

(** [s.startswith(p)]: on encodings, a prefix of characters is a prefix of
    bytes. *)
Fixpoint startswith (p s : string) : bool :=
  match p, s with
  | EmptyString, _ => true
  | String a p', String b s' => if Ascii.eqb a b then startswith p' s' else false
  | String _ _, EmptyString => false
  end.

(** [s[:n]] *)
Definition take (n : nat) (s : string) : string := unchars (firstn n (chars s)).

(** [s[1:]] *)
Definition tail (s : string) : string := unchars (List.tl (chars s)).

(** [s.split()]: the maximal runs of characters that are not white space.
    [split_chars cur cs] carries the run being read, in reverse. *)
Fixpoint split_chars (cur : list string) (cs : list string) : list string :=
  let flush (rest : list string) :=
    match cur with
    | [] => rest
    | _ => unchars (rev cur) :: rest
    end in
  match cs with
  | [] => flush []
  | c :: cs' =>
      if is_space c then flush (split_chars [] cs') else split_chars (c :: cur) cs'
  end.

Definition split (s : string) : list string := split_chars [] (chars s).

(** The strings of characters below 128. *)
Fixpoint is_ascii (s : string) : bool :=
  match s with
  | EmptyString => true
  | String b s' => (N_of_ascii b <? 128)%N && is_ascii s'
  end.

(** The letters [a]..[z] and [A]..[Z] in the other case: the case maps of
    the strings of characters below 128. *)
Definition ascii_lower_char (c : ascii) : ascii :=
  let n := nat_of_ascii c in
  if ((65 <=? n) && (n <=? 90))%nat then ascii_of_nat (n + 32) else c.

Definition ascii_upper_char (c : ascii) : ascii :=
  let n := nat_of_ascii c in
  if ((97 <=? n) && (n <=? 122))%nat then ascii_of_nat (n - 32) else c.

Fixpoint ascii_lower (s : string) : string :=
  match s with
  | EmptyString => EmptyString
  | String c s' => String (ascii_lower_char c) (ascii_lower s')
  end.

Fixpoint ascii_upper (s : string) : string :=
  match s with
  | EmptyString => EmptyString
  | String c s' => String (ascii_upper_char c) (ascii_upper s')
  end.

(** The first character in upper case, the rest in lower case. *)
Definition ascii_capitalize (s : string) : string :=
  match s with
  | EmptyString => EmptyString
  | String c s' => String (ascii_upper_char c) (ascii_lower s')
  end.

End PyStr.

(** ** The case tables of the interpreter

    [str.lower], [str.upper] and [str.capitalize] go by the Unicode tables
    built into the interpreter.  The embedding takes the three functions as
    they are and uses one fact about each: on a string of characters below
    128 it is the case map of the 26 letters. *)

Class PyText : Type := {
  str_lower : string -> string;
  str_upper : string -> string;
  str_capitalize : string -> string;
  str_lower_ascii : forall s, PyStr.is_ascii s = true -> str_lower s = PyStr.ascii_lower s;
  str_upper_ascii : forall s, PyStr.is_ascii s = true -> str_upper s = PyStr.ascii_upper s;
  str_capitalize_ascii :
    forall s, PyStr.is_ascii s = true -> str_capitalize s = PyStr.ascii_capitalize s
}.

(** Case maps that leave every character from 128 on alone: they agree
    with those of the interpreter on the strings of characters below 128,
    which is enough to run the engine on such input. *)
Definition ascii_text : PyText := {|
  str_lower := PyStr.ascii_lower;
  str_upper := PyStr.ascii_upper;
  str_capitalize := PyStr.ascii_capitalize;
  str_lower_ascii := fun _ _ => eq_refl;
  str_upper_ascii := fun _ _ => eq_refl;
  str_capitalize_ascii := fun _ _ => eq_refl
|}.

(** ** Exceptions and computations with state *)

Inductive exn : Type :=
  | KeyError (k : string)
  | IndexError
  | StopIteration
  | EOFError
  | SystemExit (code : Z).

Inductive outcome (A : Type) : Type :=
  | Ret (a : A)
  | Raise (e : exn).
Arguments Ret {A} a.
Arguments Raise {A} e.

(** A computation over a mutable state [S]: it ends with a value or with an
    exception, and in both cases leaves a state behind. *)
Definition Comp (S A : Type) : Type := S -> outcome A * S.

Definition comp_ret {S A} (a : A) : Comp S A := fun s => (Ret a, s).

Definition comp_bind {S A B} (f : A -> Comp S B) (m : Comp S A) : Comp S B :=
  fun s =>
    match m s with
    | (Ret a, s') => f a s'
    | (Raise e, s') => (Raise e, s')
    end.

Definition comp_raise {S A} (e : exn) : Comp S A := fun s => (Raise e, s).

Definition comp_get {S} : Comp S S := fun s => (Ret s, s).

Definition comp_modify {S} (f : S -> S) : Comp S unit := fun s => (Ret tt, f s).

(** A computation that cannot touch the state: a pure result or a raise. *)
Definition comp_lift {S A} (o : outcome A) : Comp S A := fun s => (o, s).

#[global] Instance comp_mret {S} : MRet (Comp S) := @comp_ret S.
#[global] Instance comp_mbind {S} : MBind (Comp S) := @comp_bind S.
#[global] Instance comp_mthrow {S} : MThrow exn (Comp S) := @comp_raise S.
#[global] Instance comp_fmap {S} : FMap (Comp S) :=
  fun A B (f : A -> B) (m : Comp S A) => comp_bind (fun a => comp_ret (f a)) m.

(** ** Data model *)

Record StoryNode : Type := mkNode {
  node_id : string;
  text : string;
  choices : gmap string (string * string);
  is_ending : bool;
  tags : list string
}.

Record StoryState : Type := mkState {
  genre : string;
  tone : string;
  protagonist : string;
  companion : string;
  world_seed : Z;
  inventory : list string;
  flags : gmap string Z
}.

Definition set_flags (f : gmap string Z) (st : StoryState) : StoryState :=
  mkState (genre st) (tone st) (protagonist st) (companion st) (world_seed st)
          (inventory st) f.

Definition set_inventory (inv : list string) (st : StoryState) : StoryState :=
  mkState (genre st) (tone st) (protagonist st) (companion st) (world_seed st)
          inv (flags st).

(** [d.get(k, 0)] *)
Definition flag_get (k : string) (f : gmap string Z) : Z := default 0 (f !! k).

(** [d[k] = d.get(k, 0) + 1] *)
Definition flag_incr (k : string) (f : gmap string Z) : gmap string Z :=
  <[k := flag_get k f + 1]> f.

(** ** The runtime the program is run on

    [random.Random] and the built-in [hash] belong to the interpreter, not
    to the program: the embedding takes them as an interface.  [randbelow g n]
    is the index drawn by [choice] on a sequence of length [n]. *)

Class PyRuntime (rng : Type) : Type := {
  rng_seed : Z -> rng;
  randbelow : rng -> nat -> nat * rng;
  randbelow_lt : forall g n, (0 < n)%nat -> (fst (randbelow g n) < n)%nat;
  py_hash : string -> Z
}.

(** The runtime whose generator always draws index [k mod n] and whose hash
    is the length of the string: enough to run the engine on examples. *)
Definition const_randbelow (k : nat) (g : unit) (n : nat) : nat * unit :=
  ((k mod n)%nat, g).

Definition const_runtime (k : nat) : PyRuntime unit := {|
  rng_seed := fun _ => tt;
  randbelow := const_randbelow k;
  randbelow_lt := fun _ n Hn =>
    Nat.mod_upper_bound k n (Nat.neq_sym _ _ (Nat.lt_neq _ _ Hn));
  py_hash := fun s => Z.of_nat (String.length s)
|}.

Definition nl : string := String (ascii_of_nat 10) EmptyString.

(** ** StoryGenerator

    The generator holds the world state it was built for and its own random
    source.  The state is shared with the engine (the same object), so the
    methods below read it as an argument; the random source is the state of
    the computation. *)

Section Generator.
Context {rng : Type} `{!PyRuntime rng} `{!PyText}.

(** [self.rand.choice(seq)] *)
Definition rand_choice (seq : list string) : Comp rng string := fun g =>
  match seq with
  | [] => (Raise IndexError, g)
  | _ =>
      let (i, g') := randbelow g (length seq) in
      match seq !! i with
      | Some x => (Ret x, g')
      | None => (Raise IndexError, g')
      end
  end.

(** [k in mapping], [mapping[k]] and [mapping.keys()] for a dict whose
    order of insertion matters. *)
Definition alist_mem {V} (k : string) (m : list (string * V)) : bool :=
  bool_decide (k ∈ m.*1).

Fixpoint alist_get {V} (k : string) (m : list (string * V)) : outcome V :=
  match m with
  | [] => Raise (KeyError k)
  | (k', v) :: m' => if String.eqb k k' then Ret v else alist_get k m'
  end.

Definition _closest_key {V} (key : string) (mapping : list (string * V))
  : outcome string :=
  let k := str_lower (PyStr.strip key) in
  if alist_mem k mapping then Ret k
  else
    match List.find (PyStr.startswith (PyStr.take 3 k)) mapping.*1 with
    | Some candidate => Ret candidate
    | None =>
        match mapping.*1 with
        | first :: _ => Ret first
        | [] => Raise StopIteration
        end
    end.

Definition motifs : list (string * list string) :=
  [ ("fantasy",
      [ "ancient forests hum with latent magic";
        "ruins dream beneath ivy and star-shards";
        "dragons are rumors woven into lullabies" ]);
    ("sci-fi",
      [ "neon skylines flicker over rusted megastructures";
        "fractured moons glow above orbital shipyards";
        "synthetic dawns reboot forgotten cities" ]);
    ("mystery",
      [ "fog erases footprints faster than they form";
        "clocks tick out-of-sync with the heart";
        "every window watches with a different story" ]) ].

Definition _world_description (st : StoryState) : Comp rng string :=
  key ← comp_lift (_closest_key (genre st) motifs);
  lines ← comp_lift (alist_get key motifs);
  m ← rand_choice lines;
  mret (str_capitalize m +:+ ".").

Definition _inciting_incident : Comp rng string :=
  rand_choice
    [ "A comet carves a silent arc and leaves a whispering tail.";
      "A letter arrives signed by a future version of you.";
      "The river flows backward for exactly one minute.";
      "A bell rings where there is no bell." ].

Definition _mysterious_clue : Comp rng string :=
  rand_choice
    [ "a rune repeating the shape of your heartbeat";
      "ash arranged like a compass pointing underground";
      "a soft tone audible only when eyes are closed";
      "footprints that avoid every puddle" ].

Definition _ally_name : Comp rng string :=
  first ← rand_choice ["Iria"; "Thorne"; "Vel"; "Mara"; "Kade"; "Nyx"; "Quen"];
  last ← rand_choice ["Ashfall"; "Kestrel"; "Voss"; "Hallow"; "Strand"; "Noct"];
  mret (first +:+ " " +:+ last).

Definition _terrain : Comp rng string :=
  rand_choice
    [ "wind-scoured valley";
      "tangle of luminous reeds";
      "labyrinth of basalt spires";
      "glimmering salt flats" ].

Definition _antagonistic_force : Comp rng string :=
  rand_choice
    [ "the Archivist who edits memories";
      "the Clock that refuses to strike midnight";
      "the Leviathan beneath the city";
      "the Choir of Masks that speaks as one" ].

Definition _ending_fragment (style : string) : string :=
  if String.eqb style "hopeful" then
    "Kindness accumulates like dawn. Promises once broken are rewoven, and the "
    +:+ "road ahead gleams with possibility."
  else if String.eqb style "tragic" then
    "A necessary loss settles like snow. What is saved endures because of what "
    +:+ "was given up."
  else
    "Nothing was as it seemed: the question mattered more than the answer, and "
    +:+ "the answer changes when observed.".

End Generator.

(** A dict literal: the pairs are inserted from left to right. *)
Definition dict_of {V} (l : list (string * V)) : gmap string V :=
  foldl (fun m kv => <[kv.1 := kv.2]> m) ∅ l.

Section Nodes.
Context {rng : Type} `{!PyRuntime rng} `{!PyText}.

Definition generate_opening (st : StoryState) : Comp rng StoryNode :=
  world ← _world_description st;
  hook ← _inciting_incident;
  let text :=
    "In a " +:+ tone st +:+ " " +:+ genre st +:+ " world, " +:+ protagonist st
    +:+ " travels with " +:+ companion st +:+ ". " +:+ world +:+ " " +:+ hook
    +:+ nl +:+ nl +:+ "What will you do?" in
  let choices := dict_of
    [ ("A", ("Investigate the omen", "omen"));
      ("B", ("Seek an ally in the nearest settlement", "ally"));
      ("C", ("Ignore it and press onward", "onward")) ] in
  mret (mkNode "opening" text choices false []).

Definition generate_omen (st : StoryState) : Comp rng StoryNode :=
  clue ← _mysterious_clue;
  let text :=
    "The air shivers as runes flicker across the path. " +:+ companion st
    +:+ " whispers about old tales. You notice " +:+ clue +:+ "."
    +:+ nl +:+ nl +:+ "Will you:" in
  let choices := dict_of
    [ ("A", ("Study the runes closely", "study_runes"));
      ("B", ("Mark the site and retreat for now", "retreat"));
      ("C", ("Touch the brightest rune", "touch_rune")) ] in
  mret (mkNode "omen" text choices false []).

Definition generate_study_runes (st : StoryState) : Comp rng StoryNode :=
  let text :=
    "As " +:+ protagonist st +:+ " studies the runes, " +:+ companion st
    +:+ " gasps — "
    +:+ "the symbols start rearranging themselves into a path only visible under moonlight. "
    +:+ "The markings pulse gently, revealing a hidden direction."
    +:+ nl +:+ nl +:+ "What will you do next?" in
  let choices := dict_of
    [ ("A", ("Follow the glowing path", "hidden_path"));
      ("B", ("Copy the runes for later study", "onward"));
      ("C", ("Erase one and see what happens", "climax")) ] in
  mret (mkNode "study_runes" text choices false []).

Definition generate_ally (st : StoryState) : Comp rng StoryNode :=
  ally_name ← _ally_name;
  let text :=
    "At the settlement, a wary figure named " +:+ ally_name
    +:+ " offers guidance for a price. "
    +:+ "They speak of a hidden way only the persistent may find."
    +:+ nl +:+ nl +:+ "Choose:" in
  let choices := dict_of
    [ ("A", ("Barter a keepsake for their map", "get_map"));
      ("B", ("Earn trust by helping with a local problem", "help_local"));
      ("C", ("Refuse and chart your own route", "onward")) ] in
  mret (mkNode "ally" text choices false []).

Definition generate_onward (st : StoryState) : Comp rng StoryNode :=
  terrain ← _terrain;
  let text :=
    "You press onward into " +:+ terrain
    +:+ ". The path splits before a stone arch. "
    +:+ "Beneath the moss, faint grooves suggest something is missing."
    +:+ nl +:+ nl +:+ "Do you:" in
  let choices := dict_of
    [ ("A", ("Search the area for a fitting object", "search_area"));
      ("B", ("Force your way through the arch", "force_arch"));
      ("C", ("Set camp and wait for signs", "make_camp")) ] in
  mret (mkNode "onward" text choices false []).

Definition generate_hidden_path (st : StoryState) : Comp rng StoryNode :=
  let text :=
    "You feel a shift in the world: a narrow passage reveals itself where shadows "
    +:+ "overlap. Few ever notice this place. A hush falls as if the story itself is "
    +:+ "holding its breath." +:+ nl +:+ nl +:+ "Proceed?" in
  let choices := dict_of
    [ ("A", ("Enter the hidden passage", "hidden_depths"));
      ("B", ("Mark it and return later", "return_later"));
      ("C", ("Call out into the dark", "call_dark")) ] in
  mret (mkNode "hidden_path" text choices false ["hidden"]).

Definition generate_climax (st : StoryState) : Comp rng StoryNode :=
  force ← _antagonistic_force;
  let text :=
    "At last, you confront " +:+ force +:+ ". Threads of fate tighten around "
    +:+ protagonist st +:+ "." +:+ nl
    +:+ "The outcome turns on a single choice." +:+ nl +:+ nl
    +:+ "Choose your stand:" in
  let choices := dict_of
    [ ("A", ("Appeal with empathy", "ending_hopeful"));
      ("B", ("Outwit with a bold gambit", "ending_twist"));
      ("C", ("Defy at any cost", "ending_tragic")) ] in
  mret (mkNode "climax" text choices false []).

(** [generate_ending] draws nothing from the random source. *)
Definition generate_ending (st : StoryState) (style : string) : StoryNode :=
  let base :=
    "After all trials, " +:+ protagonist st +:+ " and " +:+ companion st
    +:+ " face the consequences. " +:+ _ending_fragment style
    +:+ nl +:+ nl +:+ "This chapter closes in a " +:+ style +:+ " way." in
  mkNode ("ending_" +:+ style) base ∅ true ["ending"; style].

(** [StoryEngine._build_nodes]: the ten nodes, generated in the order of
    the dict literal. *)
Definition _build_nodes (st : StoryState) : Comp rng (gmap string StoryNode) :=
  opening ← generate_opening st;
  omen ← generate_omen st;
  study_runes ← generate_study_runes st;
  ally ← generate_ally st;
  onward ← generate_onward st;
  hidden_path ← generate_hidden_path st;
  climax ← generate_climax st;
  mret (dict_of
    [ ("opening", opening);
      ("omen", omen);
      ("study_runes", study_runes);
      ("ally", ally);
      ("onward", onward);
      ("hidden_path", hidden_path);
      ("climax", climax);
      ("ending_hopeful", generate_ending st "hopeful");
      ("ending_tragic", generate_ending st "tragic");
      ("ending_twist", generate_ending st "twist") ]).

End Nodes.

(** ** StoryEngine *)

(** The engine object.  [gen_rand] is the random source of [self.gen]; the
    state of [self.gen] is [state] itself (one shared object). *)
Record StoryEngine (rng : Type) : Type := mkEngine {
  state : StoryState;
  gen_rand : rng;
  nodes : gmap string StoryNode;
  current_id : string
}.
Arguments mkEngine {rng} _ _ _ _.
Arguments state {rng} _.
Arguments gen_rand {rng} _.
Arguments nodes {rng} _.
Arguments current_id {rng} _.

(** What a method call can read and change: the engine and the lines still
    to be read from standard input. *)
Record World (rng : Type) : Type := mkWorld {
  engine : StoryEngine rng;
  stdin : list string
}.
Arguments mkWorld {rng} _ _.
Arguments engine {rng} _.
Arguments stdin {rng} _.

Definition SECRET_INPUT : string := "whisper".

Section Engine.
Context {rng : Type} `{!PyRuntime rng} `{!PyText}.

Definition set_state (st : StoryState) (e : StoryEngine rng) : StoryEngine rng :=
  mkEngine st (gen_rand e) (nodes e) (current_id e).

Definition set_gen_rand (g : rng) (e : StoryEngine rng) : StoryEngine rng :=
  mkEngine (state e) g (nodes e) (current_id e).

Definition set_nodes (ns : gmap string StoryNode) (e : StoryEngine rng)
  : StoryEngine rng :=
  mkEngine (state e) (gen_rand e) ns (current_id e).

Definition set_current_id (k : string) (e : StoryEngine rng) : StoryEngine rng :=
  mkEngine (state e) (gen_rand e) (nodes e) k.

Definition on_engine (f : StoryEngine rng -> StoryEngine rng) (w : World rng)
  : World rng :=
  mkWorld (f (engine w)) (stdin w).

(** The world after [self.state.flags] went through [f]. *)
Definition with_flags (f : gmap string Z -> gmap string Z) : World rng -> World rng :=
  on_engine (fun e => set_state (set_flags (f (flags (state e))) (state e)) e).

(** The world after [self.state.inventory.append(x)]. *)
Definition with_item (x : string) : World rng -> World rng :=
  on_engine (fun e => set_state (set_inventory (inventory (state e) ++ [x]) (state e)) e).

(** The world after [self.current_id = k]. *)
Definition with_current_id (k : string) : World rng -> World rng :=
  on_engine (set_current_id k).

Definition update_flags (f : gmap string Z -> gmap string Z)
  : Comp (World rng) unit :=
  comp_modify (with_flags f).

Definition inventory_append (x : string) : Comp (World rng) unit :=
  comp_modify (with_item x).

Definition assign_current_id (k : string) : Comp (World rng) unit :=
  comp_modify (with_current_id k).

(** [self.nodes[k]] *)
Definition nodes_at (k : string) : Comp (World rng) StoryNode := fun w =>
  match nodes (engine w) !! k with
  | Some n => (Ret n, w)
  | None => (Raise (KeyError k), w)
  end.

(** [self.nodes[self.current_id]], which is also [get_current_node]. *)
Definition get_current_node : Comp (World rng) StoryNode := fun w =>
  nodes_at (current_id (engine w)) w.

(** A call into [self.gen]: it runs on the generator's random source. *)
Definition in_gen {A} (m : Comp rng A) : Comp (World rng) A := fun w =>
  let (r, g') := m (gen_rand (engine w)) in
  (r, on_engine (set_gen_rand g') w).

(** [StoryEngine(state)] *)
Definition new_engine (st : StoryState) : outcome (StoryEngine rng) :=
  match _build_nodes st (rng_seed (world_seed st)) with
  | (Ret ns, g) => Ret (mkEngine st g ns "opening")
  | (Raise e, _) => Raise e
  end.

Definition restart_with (new_state : StoryState) : Comp (World rng) unit :=
  comp_modify (on_engine (set_state new_state));;
  comp_modify (on_engine (set_gen_rand (rng_seed (world_seed new_state))));;
  ns ← in_gen (_build_nodes new_state);
  comp_modify (on_engine (set_nodes ns));;
  assign_current_id "opening".

Definition _apply_side_effects (node_id choice : string) : Comp (World rng) unit :=
  (if String.eqb node_id "ally" && String.eqb choice "A" then
     inventory_append "cryptic map";;
     update_flags <["map" := 1]>
   else mret tt);;
  (if String.eqb node_id "onward" && String.eqb choice "A" then
     inventory_append "stone key";;
     update_flags <["key" := 1]>
   else mret tt);;
  (if String.eqb node_id "omen" && String.eqb choice "C" then
     update_flags <["reckless" := 1]>
   else mret tt);;
  (if String.eqb node_id "onward" && String.eqb choice "B" then
     update_flags <["wounded" := 1]>
   else mret tt).

(** [any(k for k in flags.keys() if k not in ("steps",))]: the generator
    yields the keys themselves, so [any] asks for a key other than
    ["steps"] that is a true value, that is a string that is not empty. *)
Definition any_other_flag (f : gmap string Z) : bool :=
  existsb (fun k => negb (String.eqb k ""))
          (List.filter (fun k => negb (String.eqb k "steps")) (map_to_list f).*1).

(** ["hidden" in node.tags] *)
Definition has_tag (t : string) (n : StoryNode) : bool :=
  existsb (String.eqb t) (tags n).

Definition _maybe_funnel_to_climax : Comp (World rng) StoryNode :=
  update_flags (flag_incr "steps");;
  w ← comp_get;
  match nodes (engine w) !! current_id (engine w) with
  | None =>
      assign_current_id "climax";;
      nodes_at "climax"
  | Some node =>
      if negb (is_ending node)
         && negb (has_tag "hidden" node)
         && (4 <=? flag_get "steps" (flags (state (engine w))))
         && any_other_flag (flags (state (engine w)))
      then
        assign_current_id "climax";;
        nodes_at "climax"
      else mret node
  end.

(** The style [rewrite_ending] works with: [style.strip().lower()], or
    ["twist"] when that is none of the three styles. *)
Definition style_key_of (style : string) : string :=
  let style_key := str_lower (PyStr.strip style) in
  if bool_decide (style_key ∈ ["hopeful"; "tragic"; "twist"]) then style_key
  else "twist".

Definition rewrite_ending (style : string) : Comp (World rng) unit :=
  let style_key := style_key_of style in
  comp_modify (on_engine (fun e =>
    set_nodes (<["ending_" +:+ style_key := generate_ending (state e) style_key]>
                 (nodes e)) e));;
  assign_current_id ("ending_" +:+ style_key).

(** [input(prompt)]: the next line of standard input, or [EOFError]. *)
Definition input : Comp (World rng) string := fun w =>
  match stdin w with
  | line :: rest => (Ret line, mkWorld (engine w) rest)
  | [] => (Raise EOFError, w)
  end.

(** [x or d] on strings *)
Definition str_or (x d : string) : string :=
  match x with EmptyString => d | _ => x end.

Definition prompt_for_seeds : Comp (World rng) StoryState :=
  genre ← (fun s => str_or (PyStr.strip s) "fantasy") <$> input;
  tone ← (fun s => str_or (PyStr.strip s) "whimsical") <$> input;
  protagonist ← (fun s => str_or (PyStr.strip s) "Ari") <$> input;
  companion ← (fun s => str_or (PyStr.strip s) "Rook") <$> input;
  let seed_str := genre +:+ "|" +:+ tone +:+ "|" +:+ protagonist +:+ "|" +:+ companion in
  let world_seed := Z.abs (py_hash seed_str) mod (2 ^ 31 - 1) in
  mret (mkState genre tone protagonist companion world_seed [] ∅).

Definition _handle_command (cmd : string) : Comp (World rng) unit :=
  match PyStr.split cmd with
  | [] => mret tt
  | head :: tail =>
      if String.eqb head "help" then mret tt
      else if String.eqb head "state" then mret tt
      else if String.eqb head "inv" then mret tt
      else if String.eqb head "rewrite" then
        rewrite_ending (match tail with style :: _ => style | [] => "twist" end)
      else if String.eqb head "restart" then
        new ← prompt_for_seeds;
        restart_with new
      else if String.eqb head "seeds" then mret tt
      else if String.eqb head "quit" then mthrow (SystemExit 0)
      else mret tt
  end.

(** The special case of [step] at the omen: [Some n] when it returns [n]
    from inside the [if], [None] when control falls through to the generic
    choice lookup. *)
Definition omen_double_study (node : StoryNode) (user_input : string)
  : Comp (World rng) (option StoryNode) :=
  if String.eqb (node_id node) "omen" && String.eqb (str_upper user_input) "A" then
    update_flags (flag_incr "studies");;
    w ← comp_get;
    if 2 <=? flag_get "studies" (flags (state (engine w))) then
      assign_current_id "hidden_path";;
      Some <$> get_current_node
    else mret None
  else mret None.

Definition step (user_input : string) : Comp (World rng) (option StoryNode) :=
  let user_input := PyStr.strip user_input in
  node ← get_current_node;
  if PyStr.startswith ":" user_input then
    _handle_command (PyStr.tail user_input);;
    Some <$> get_current_node
  else if String.eqb (str_lower user_input) SECRET_INPUT then
    update_flags (flag_incr "secret");;
    assign_current_id "hidden_path";;
    Some <$> get_current_node
  else
    early ← omen_double_study node user_input;
    match early with
    | Some n => mret (Some n)
    | None =>
        match choices node !! str_upper user_input with
        | Some (_, next_id) =>
            _apply_side_effects (node_id node) (str_upper user_input);;
            assign_current_id next_id;;
            Some <$> _maybe_funnel_to_climax
        | None => mret None
        end
    end.

End Engine.

(** The tests of [step] on its input, in the order [step] makes them: a
    command, the secret keyword, a study of the omen. *)
Definition is_command (raw : string) : bool :=
  PyStr.startswith ":" (PyStr.strip raw).

Definition is_secret `{!PyText} (raw : string) : bool :=
  String.eqb (str_lower (PyStr.strip raw)) SECRET_INPUT.

Definition is_omen_study `{!PyText} (node : StoryNode) (raw : string) : bool :=
  String.eqb (node_id node) "omen" && String.eqb (str_upper (PyStr.strip raw)) "A".

(** The world in which the generic choice lookup of [step] runs: the study
    of the omen has been counted when the input was one. *)
Definition studied {rng} `{!PyRuntime rng} `{!PyText} (node : StoryNode) (raw : string)
    (w : World rng) : World rng :=
  if is_omen_study node raw then with_flags (flag_incr "studies") w else w.

(** A successful generic choice transition: the input is no command and not
    the secret keyword, the special case of the omen does not return, and
    the upper-cased input is a choice of the current node. *)
Definition generic_choice {rng} `{!PyText} (w : World rng) (raw : string)
    (node : StoryNode) (label target : string) : Prop :=
  nodes (engine w) !! current_id (engine w) = Some node
  ∧ is_command raw = false
  ∧ is_secret raw = false
  ∧ (is_omen_study node raw = true ->
       flag_get "studies" (flags (state (engine w))) + 1 < 2)
  ∧ choices node !! str_upper (PyStr.strip raw) = Some (label, target).

(** The test of [_maybe_funnel_to_climax] on the node reached and the flags
    after the count of steps went up. *)
Definition funnel_test (node : StoryNode) (f : gmap string Z) : bool :=
  negb (is_ending node) && negb (has_tag "hidden" node)
  && (4 <=? flag_get "steps" f) && any_other_flag f.

(** The two readings of "a flag other than [steps] is set": some other key
    is in the mapping, or some other key that is not the empty string is. *)
Definition some_other_key (f : gmap string Z) : Prop :=
  ∃ k, k ≠ "steps" ∧ is_Some (f !! k).

Definition some_other_named_key (f : gmap string Z) : Prop :=
  ∃ k, k ≠ "steps" ∧ k ≠ "" ∧ is_Some (f !! k).

(** The rule of the climax funnel for the input [raw] in the world [w], with
    [other_flag] as the test on the flags: a generic choice transition
    returns a node, counts one step, and leaves the pointer on [climax] when
    the target is no node or when the funnel fires, on the target if not. *)
Definition funnel_rule {rng} `{!PyRuntime rng} `{!PyText} (other_flag : gmap string Z -> Prop)
    (w : World rng) (raw : string) : Prop :=
  ∀ node label target,
    generic_choice w raw node label target ->
    ∃ n w',
      step raw w = (Ret (Some n), w')
      ∧ nodes (engine w') !! current_id (engine w') = Some n
      ∧ flags (state (engine w')) !! "steps"
          = Some (flag_get "steps" (flags (state (engine w))) + 1)
      ∧ match nodes (engine w) !! target with
        | None => current_id (engine w') = "climax"
        | Some tn =>
            let fires :=
              is_ending tn = false
              ∧ ("hidden" ∉ tags tn)
              ∧ 4 <= flag_get "steps" (flags (state (engine w')))
              ∧ other_flag (flags (state (engine w'))) in
            (fires -> current_id (engine w') = "climax")
            ∧ (¬ fires -> current_id (engine w') = target)
        end.

(** The invariant of the node mapping as the design document has it: every
    target of a choice is a key of the mapping. *)
Definition targets_closed (ns : gmap string StoryNode) : Prop :=
  ∀ k n c label target,
    ns !! k = Some n -> choices n !! c = Some (label, target) ->
    is_Some (ns !! target).

(** The targets that [_build_nodes] generates no node for. *)
Definition unwritten_targets : list string :=
  [ "retreat"; "touch_rune"; "get_map"; "help_local"; "search_area";
    "force_arch"; "make_camp"; "hidden_depths"; "return_later"; "call_dark" ].

(** ** The story graph

    What the engine uses of a node: its id, where each choice leads, whether
    it is an ending, and its tags.  The texts and the labels play no part in
    the transitions. *)

Record Shape : Type := mkShape {
  sh_id : string;
  sh_edges : gmap string string;
  sh_ending : bool;
  sh_tags : list string
}.

Definition shape_of (n : StoryNode) : Shape :=
  mkShape (node_id n) (snd <$> choices n) (is_ending n) (tags n).

Definition story_graph : gmap string Shape :=
  dict_of
    [ ("opening", mkShape "opening"
         (dict_of [("A", "omen"); ("B", "ally"); ("C", "onward")]) false []);
      ("omen", mkShape "omen"
         (dict_of [("A", "study_runes"); ("B", "retreat"); ("C", "touch_rune")]) false []);
      ("study_runes", mkShape "study_runes"
         (dict_of [("A", "hidden_path"); ("B", "onward"); ("C", "climax")]) false []);
      ("ally", mkShape "ally"
         (dict_of [("A", "get_map"); ("B", "help_local"); ("C", "onward")]) false []);
      ("onward", mkShape "onward"
         (dict_of [("A", "search_area"); ("B", "force_arch"); ("C", "make_camp")]) false []);
      ("hidden_path", mkShape "hidden_path"
         (dict_of [("A", "hidden_depths"); ("B", "return_later"); ("C", "call_dark")])
         false ["hidden"]);
      ("climax", mkShape "climax"
         (dict_of [("A", "ending_hopeful"); ("B", "ending_twist"); ("C", "ending_tragic")])
         false []);
      ("ending_hopeful", mkShape "ending_hopeful" ∅ true ["ending"; "hopeful"]);
      ("ending_tragic", mkShape "ending_tragic" ∅ true ["ending"; "tragic"]);
      ("ending_twist", mkShape "ending_twist" ∅ true ["ending"; "twist"]) ].

(** The engines the program can be in: the node mapping has the shape of the
    story graph and the pointer is one of its keys. *)
Definition engine_ok {rng} (e : StoryEngine rng) : Prop :=
  shape_of <$> nodes e = story_graph ∧ is_Some (nodes e !! current_id e).

(** The worlds the program goes through: an engine is constructed on some
    world state, and then the adapter calls [step], [rewrite_ending] and
    [restart_with]; lines of input come and go. *)
Inductive reachable {rng} `{!PyRuntime rng} `{!PyText} : World rng -> Prop :=
  | reach_new st e lines :
      new_engine st = Ret e -> reachable (mkWorld e lines)
  | reach_step w raw :
      reachable w -> reachable (step raw w).2
  | reach_rewrite w style :
      reachable w -> reachable (rewrite_ending style w).2
  | reach_restart w st :
      reachable w -> reachable (restart_with st w).2
  | reach_stdin w lines :
      reachable w -> reachable (mkWorld (engine w) lines).

(** ** Commands, sessions and the adapter *)

(** The first word of a command line, as [_handle_command] sees it. *)
Definition command_head (raw : string) : option string :=
  head (PyStr.split (PyStr.tail (PyStr.strip raw))).

(** The style a [rewrite] command passes on: its first argument, or
    ["twist"] when it has none. *)
Definition command_style (raw : string) : string :=
  match PyStr.split (PyStr.tail (PyStr.strip raw)) with
  | _ :: style :: _ => style
  | _ => "twist"
  end.

(** Two worlds with the same story: the node mapping, the random source,
    the pending input and the seeds of the world state are the same; the
    pointer, the inventory and the flags may differ. *)
Definition same_story {rng} (w w' : World rng) : Prop :=
  nodes (engine w') = nodes (engine w)
  ∧ gen_rand (engine w') = gen_rand (engine w)
  ∧ stdin w' = stdin w
  ∧ genre (state (engine w')) = genre (state (engine w))
  ∧ tone (state (engine w')) = tone (state (engine w))
  ∧ protagonist (state (engine w')) = protagonist (state (engine w))
  ∧ companion (state (engine w')) = companion (state (engine w))
  ∧ world_seed (state (engine w')) = world_seed (state (engine w)).

(** Strings made of white space only. *)
(** Every ending stored in the mapping is the one [generate_ending] makes
    for the world state of the engine. *)
Definition endings_fresh {rng} (e : StoryEngine rng) : Prop :=
  ∀ s, s ∈ ["hopeful"; "tragic"; "twist"] ->
    nodes e !! ("ending_" +:+ s) = Some (generate_ending (state e) s).

(** The flags and the items the engine writes. *)
Definition flag_names : list string :=
  ["secret"; "studies"; "steps"; "map"; "key"; "reckless"; "wounded"].

Definition item_names : list string := ["cryptic map"; "stone key"].

(** A world state holding only what the engine writes: flags among the
    seven names, each at 1 or more, and items among the two names. *)
Definition tidy (st : StoryState) : Prop :=
  map_Forall (fun k v => k ∈ flag_names ∧ 1 <= v) (flags st)
  ∧ Forall (fun x => x ∈ item_names) (inventory st).

(** The worlds of a session of the adapter: the engine is constructed on a
    world state with no flag and no item, as [prompt_for_seeds] makes it,
    and then driven by [step] and [rewrite_ending]. *)
Inductive in_session {rng} `{!PyRuntime rng} `{!PyText} : World rng -> Prop :=
  | session_start st e lines :
      flags st = ∅ -> inventory st = [] -> new_engine st = Ret e ->
      in_session (mkWorld e lines)
  | session_step w raw :
      in_session w -> in_session (step raw w).2
  | session_rewrite w style :
      in_session w -> in_session (rewrite_ending style w).2
  | session_stdin w lines :
      in_session w -> in_session (mkWorld (engine w) lines).
(** ** Inputs that differ by white space or letter case *)

(** The world state at the two nodes a session enters first: nothing yet
    at the opening, one step and nothing else at the omen. *)
Definition fresh_at {rng} (e : StoryEngine rng) : Prop :=
  (current_id e = "opening" ->
     flags (state e) = ∅ ∧ inventory (state e) = [])
  ∧ (current_id e = "omen" ->
     flags (state e) = {["steps" := 1]} ∧ inventory (state e) = []).

(** The letters of the three choices as they may be typed, with the key
    they stand for. *)
Definition choice_letters : list (string * string) :=
  [("A", "A"); ("a", "A"); ("B", "B"); ("b", "B"); ("C", "C"); ("c", "C")].

(** ** The adapter: [main] *)

(** The process [main] runs in: the engine and the pending input, and the
    generator behind the functions of the module [random], which is not the
    generator of the story. *)
Record Process (rng : Type) : Type := mkProcess {
  proc_world : World rng;
  proc_random : rng
}.
Arguments mkProcess {rng} _ _.
Arguments proc_world {rng} _.
Arguments proc_random {rng} _.

(** What an iteration of [while True] ends with. *)
Inductive turn : Type := Continue | Break.

Section Main.
Context {rng : Type} `{!PyRuntime rng} `{!PyText}.

Definition in_world {A} (m : Comp (World rng) A) : Comp (Process rng) A := fun p =>
  let (r, w') := m (proc_world p) in (r, mkProcess w' (proc_random p)).

(** [random.randint(0, 2)] *)
Definition randint_0_2 : Comp (Process rng) nat := fun p =>
  let (i, g') := randbelow (proc_random p) 3 in
  (Ret i, mkProcess (proc_world p) g').

(** [try: engine.step(user) except SystemExit: break] *)
Definition step_or_break (user : string) : Comp (Process rng) turn := fun p =>
  match in_world (step user) p with
  | (Ret _, p') => (Ret Continue, p')
  | (Raise (SystemExit _), p') => (Ret Break, p')
  | (Raise ex, p') => (Raise ex, p')
  end.

(** The body of the loop of [main]. *)
Definition main_turn : Comp (Process rng) turn :=
  node ← in_world get_current_node;
  if is_ending node then
    choice ← PyStr.strip <$> in_world input;
    match choice with
    | EmptyString =>
        i ← randint_0_2;
        match ["hopeful"; "twist"; "tragic"] !! i with
        | Some style => in_world (rewrite_ending style);; mret Continue
        | None => mthrow IndexError
        end
    | _ =>
        step_or_break
          (if negb (PyStr.startswith ":" choice) then ":" +:+ choice else choice)
    end
  else
    user ← in_world input;
    step_or_break user.

(** [while True]: [Some tt] when the loop was left by [break], [None] when
    the iterations allowed were used up. *)
Fixpoint main_loop (fuel : nat) : Comp (Process rng) (option unit) :=
  match fuel with
  | O => mret None
  | S fuel' =>
      t ← main_turn;
      match t with
      | Break => mret (Some tt)
      | Continue => main_loop fuel'
      end
  end.

(** [state = prompt_for_seeds(); engine = StoryEngine(state)]: the engine
    of the process is the one constructed here, whatever was there. *)
Definition main_setup : Comp (Process rng) unit :=
  st ← in_world prompt_for_seeds;
  e ← comp_lift (new_engine st);
  comp_modify (fun p => mkProcess (mkWorld e (stdin (proc_world p))) (proc_random p)).

Definition main (fuel : nat) : Comp (Process rng) (option unit) :=
  main_setup;; main_loop fuel.

End Main.

(** A runtime and a world to run the engine on. *)
#[local] Instance demo_runtime : PyRuntime unit := const_runtime 1.
#[local] Instance demo_text : PyText := ascii_text.

(** Characters from 128 on, for the examples: the no-break space, the em
    space and the capital I with a dot above. *)
Definition nbsp : string := String "194" (String "160" EmptyString).
Definition em_space : string := String "226" (String "128" (String "131" EmptyString)).
Definition dotted_capital_i : string := String "196" (String "176" EmptyString).

Definition demo_state (f : gmap string Z) : StoryState :=
  mkState "fantasy" "whimsical" "Ari" "Rook" 7 [] f.

Definition demo_nodes : gmap string StoryNode :=
  match (_build_nodes (demo_state ∅) tt).1 with
  | Ret ns => ns
  | Raise _ => ∅
  end.

(** The engine standing at node [k] with flags [f]. *)
Definition demo_world (k : string) (f : gmap string Z) : World unit :=
  mkWorld (mkEngine (demo_state f) tt demo_nodes k) [].

(** The adapter feeding the inputs to [step] one after the other, whatever
    each call returns. *)
Definition play {rng} `{!PyRuntime rng} `{!PyText} (inputs : list string) (w : World rng)
    : World rng :=
  foldl (fun w raw => (step raw w).2) w inputs.

(** * Properties *)

Example strip_ex : PyStr.strip "  :rewrite  Tragic   " = ":rewrite  Tragic".
Proof. reflexivity. Qed.

Example split_ex : PyStr.split "rewrite  Tragic now " = ["rewrite"; "Tragic"; "now"].
Proof. reflexivity. Qed.

Example lower_ex : str_lower "WhIsPeR" = "whisper".
Proof. reflexivity. Qed.

Example upper_ex : str_upper "a" = "A".
Proof. reflexivity. Qed.

Example capitalize_ex : str_capitalize "ancient Forests" = "Ancient forests".
Proof. reflexivity. Qed.

Example new_engine_demo :
  new_engine (demo_state ∅) = Ret (engine (demo_world "opening" ∅)).
Proof. reflexivity. Qed.

Example opening_text :
  text <$> demo_nodes !! "opening" = Some
    ("In a whimsical fantasy world, Ari travels with Rook. "
     +:+ "Ruins dream beneath ivy and star-shards. "
     +:+ "A letter arrives signed by a future version of you."
     +:+ nl +:+ nl +:+ "What will you do?").
Proof. reflexivity. Qed.

Example demo_shape : shape_of <$> demo_nodes = story_graph.
Proof. reflexivity. Qed.

(** ** Running computations *)

Lemma bind_run {S A B} (m : Comp S A) (f : A -> Comp S B) s a s' :
  m s = (Ret a, s') -> (m ≫= f) s = f a s'.
Proof. intros Hm. unfold mbind, comp_mbind, comp_bind. by rewrite Hm. Qed.

Lemma bind_run_raise {S A B} (m : Comp S A) (f : A -> Comp S B) s e s' :
  m s = (Raise e, s') -> (m ≫= f) s = (Raise e, s').
Proof. intros Hm. unfold mbind, comp_mbind, comp_bind. by rewrite Hm. Qed.

Lemma fmap_run {S A B} (m : Comp S A) (f : A -> B) s a s' :
  m s = (Ret a, s') -> (f <$> m) s = (Ret (f a), s').
Proof. intros Hm. unfold fmap, comp_fmap, comp_bind. by rewrite Hm. Qed.

Lemma bind_assoc_run {S A B C} (m : Comp S A) (f : A -> Comp S B)
    (k : B -> Comp S C) s :
  ((m ≫= f) ≫= k) s = (m ≫= (fun x => f x ≫= k)) s.
Proof. unfold mbind, comp_mbind, comp_bind. by destruct (m s) as [[a|e] s']. Qed.

Lemma ret_bind_run {S A B} (a : A) (f : A -> Comp S B) s :
  (mret a ≫= f) s = f a s.
Proof. reflexivity. Qed.

(** ** The generator never fails *)

Section GeneratorFacts.
Context {rng : Type} `{!PyRuntime rng} `{!PyText}.

Lemma rand_choice_total (seq : list string) (g : rng) :
  seq ≠ [] -> ∃ x g', rand_choice seq g = (Ret x, g') ∧ x ∈ seq.
Proof.
  intros Hne. unfold rand_choice.
  destruct seq as [|y seq']; [done|].
  pose proof (randbelow_lt g (length (y :: seq'))) as Hlt.
  destruct (randbelow g (length (y :: seq'))) as [i g'] eqn:Hr.
  simpl in Hlt.
  destruct (lookup_lt_is_Some_2 (y :: seq') i) as [x Hx].
  { simpl. lia. }
  rewrite Hx. exists x, g'. split; [done|].
  by eapply list_elem_of_lookup_2.
Qed.

Lemma alist_mem_get {V} (k : string) (m : list (string * V)) :
  k ∈ m.*1 -> ∃ v, alist_get k m = Ret v.
Proof.
  induction m as [|[k' v] m IH]; simpl.
  - by intros ?%elem_of_nil.
  - intros Hin. destruct (String.eqb_spec k k') as [->|Hne]; [by eexists|].
    apply IH. apply elem_of_cons in Hin as [?|?]; [done|done].
Qed.

(** The three ways [_closest_key] picks its answer, on any mapping that is
    not empty. *)
Lemma closest_key_cases {V} (key : string) (mapping : list (string * V)) :
  mapping ≠ [] ->
  let k := str_lower (PyStr.strip key) in
  let p := PyStr.take 3 k in
  ∃ r, _closest_key key mapping = Ret r ∧ r ∈ (mapping.*1) ∧
    ((k ∈ (mapping.*1) ∧ r = k)
     ∨ ((k ∉ (mapping.*1)) ∧
        ∃ before after, mapping.*1 = (before ++ r :: after)%list
          ∧ PyStr.startswith p r = true
          ∧ Forall (fun c => PyStr.startswith p c = false) before)
     ∨ ((k ∉ (mapping.*1)) ∧
        Forall (fun c => PyStr.startswith p c = false) mapping.*1
        ∧ head mapping.*1 = Some r)).
Proof.
  intros Hne k p. unfold _closest_key, alist_mem. fold k. fold p.
  case_bool_decide as Hk.
  { exists k. split; [done|]. split; [done|]. by left. }
  assert (Hfind : ∀ l : list string,
    match List.find (PyStr.startswith p) l with
    | Some c => ∃ before after, l = (before ++ c :: after)%list
        ∧ PyStr.startswith p c = true
        ∧ Forall (fun c => PyStr.startswith p c = false) before
    | None => Forall (fun c => PyStr.startswith p c = false) l
    end).
  { induction l as [|c l IH]; simpl; [by constructor|].
    destruct (PyStr.startswith p c) eqn:Hc.
    - exists [], l. by repeat split.
    - destruct (List.find (PyStr.startswith p) l) as [c'|].
      + destruct IH as (before & after & -> & Hc' & Hall).
        exists (c :: before), after. repeat split; [done|]. by constructor.
      + by constructor. }
  specialize (Hfind mapping.*1).
  destruct (List.find (PyStr.startswith p) mapping.*1) as [c|].
  - destruct Hfind as (before & after & Heq & Hc & Hall).
    exists c. split; [done|]. split.
    { rewrite Heq. set_solver. }
    right; left. split; [done|]. by exists before, after.
  - destruct mapping as [|[k0 v0] mapping']; [done|]. simpl in *.
    exists k0. split; [done|]. split; [set_solver|].
    right; right. by repeat split.
Qed.

Lemma closest_key_motifs (key : string) :
  ∃ r lines, _closest_key key motifs = Ret r
    ∧ alist_get r motifs = Ret lines ∧ lines ≠ [].
Proof.
  destruct (closest_key_cases key motifs) as (r & Hr & Hin & _); [done|].
  exists r. rewrite Hr.
  change (motifs.*1) with ["fantasy"; "sci-fi"; "mystery"] in Hin.
  repeat (apply elem_of_cons in Hin as [->|Hin]; [by eexists|]).
  by apply elem_of_nil in Hin.
Qed.

(** Runs the next call of a sequence, given that it returns. *)
Ltac run_next H :=
  let Hrun := fresh "Hrun" in
  destruct H as (? & ? & Hrun);
  rewrite (bind_run _ _ _ _ _ Hrun); clear Hrun.

Lemma rand_choice_returns (seq : list string) (g : rng) :
  seq ≠ [] -> ∃ x g', rand_choice seq g = (Ret x, g').
Proof.
  intros Hne. destruct (rand_choice_total seq g Hne) as (x & g' & Hx & _). eauto.
Qed.

Lemma world_description_returns st (g : rng) :
  ∃ x g', _world_description st g = (Ret x, g').
Proof.
  unfold _world_description.
  destruct (closest_key_motifs (genre st)) as (r & lines & Hr & Hl & Hne).
  rewrite (bind_run _ _ g r g); [|unfold comp_lift; by rewrite Hr].
  rewrite (bind_run _ _ g lines g); [|unfold comp_lift; by rewrite Hl].
  run_next (rand_choice_returns lines g Hne). by eexists _, _.
Qed.

Lemma ally_name_returns (g : rng) : ∃ x g', _ally_name g = (Ret x, g').
Proof.
  unfold _ally_name.
  run_next (rand_choice_returns
    ["Iria"; "Thorne"; "Vel"; "Mara"; "Kade"; "Nyx"; "Quen"] g ltac:(done)).
  match goal with |- context [(rand_choice ?l ≫= _) ?g1] =>
    run_next (rand_choice_returns l g1 ltac:(done)) end.
  by eexists _, _.
Qed.

(** [_build_nodes] returns, and what it returns has the shape of the story
    graph, whatever the world state and the random source. *)
Lemma build_nodes_returns st (g : rng) :
  ∃ ns g', _build_nodes st g = (Ret ns, g') ∧ shape_of <$> ns = story_graph.
Proof.
  unfold _build_nodes, generate_opening, generate_omen, generate_study_runes,
    generate_ally, generate_onward, generate_hidden_path, generate_climax,
    _inciting_incident, _mysterious_clue, _terrain, _antagonistic_force.
  rewrite !bind_assoc_run. run_next (world_description_returns st g).
  repeat first
    [ rewrite ret_bind_run
    | rewrite bind_assoc_run
    | match goal with |- context [(rand_choice ?l ≫= _) ?g1] =>
        run_next (rand_choice_returns l g1 ltac:(done)) end
    | match goal with |- context [(_ally_name ≫= _) ?g1] =>
        run_next (ally_name_returns g1) end ].
  eexists _, _. split; [reflexivity|]. vm_cast_no_check (eq_refl story_graph).
Qed.

(** C10. The genre-motif lookup resolves, for every genre string, to a key
    of the motif mapping: the trimmed and lower-cased genre when that is a
    key, else the first key that starts with its first three characters,
    else the first key of the mapping; the motif list found under that key
    exists, and so building the ten nodes returns for every world state
    and every state of the random source, without any lookup error. *)
Theorem genre_lookup_total (st : StoryState) (g : rng) :
  let k := str_lower (PyStr.strip (genre st)) in
  let p := PyStr.take 3 k in
  (∃ r lines,
      _closest_key (genre st) motifs = Ret r
      ∧ r ∈ (motifs.*1)
      ∧ alist_get r motifs = Ret lines
      ∧ ((k ∈ (motifs.*1) ∧ r = k)
         ∨ ((k ∉ (motifs.*1)) ∧
            ∃ before after, motifs.*1 = (before ++ r :: after)%list
              ∧ PyStr.startswith p r = true
              ∧ Forall (fun c => PyStr.startswith p c = false) before)
         ∨ ((k ∉ (motifs.*1)) ∧
            Forall (fun c => PyStr.startswith p c = false) (motifs.*1)
            ∧ r = "fantasy")))
  ∧ (∃ x g', _world_description st g = (Ret x, g'))
  ∧ (∃ ns g', _build_nodes st g = (Ret ns, g')
       ∧ dom ns = dom story_graph)
  ∧ (∃ e : StoryEngine rng, new_engine st = Ret e).
Proof.
  intros k p. split; [|split; [|split]].
  - destruct (closest_key_cases (genre st) motifs) as (r & Hr & Hin & Hcases); [done|].
    destruct (alist_mem_get r motifs Hin) as [lines Hl].
    exists r, lines. repeat (split; [done|]).
    destruct Hcases as [?|[?|(? & ? & Hhd)]]; [by left|by right; left|].
    right; right. repeat (split; [done|]). simpl in Hhd. congruence.
  - apply world_description_returns.
  - destruct (build_nodes_returns st g) as (ns & g' & Hb & Hshape).
    exists ns, g'. split; [done|]. by rewrite <- Hshape, dom_fmap_L.
  - unfold new_engine.
    destruct (build_nodes_returns st (rng_seed (world_seed st))) as (ns & g' & -> & _).
    by eexists.
Qed.

(** The genre [SCİ-FI], with a dotted capital I: the interpreter lowers that
    letter to an [i] followed by a combining dot (U+0307), which is no key
    of the motifs, and the first three characters [sci] find [sci-fi]. *)
Lemma closest_key_dotted_i :
  str_lower ("SC" +:+ String "196" (String "176" "-FI"))
    = "sci" +:+ String "204" (String "135" "-fi") ->
  _closest_key ("SC" +:+ String "196" (String "176" "-FI")) motifs = Ret "sci-fi".
Proof.
  intros Hlow. unfold _closest_key.
  change (PyStr.strip ("SC" +:+ String "196" (String "176" "-FI")))
    with ("SC" +:+ String "196" (String "176" "-FI")).
  rewrite Hlow. reflexivity.
Qed.

End GeneratorFacts.

Example closest_key_exact : _closest_key "  Sci-Fi " motifs = Ret "sci-fi".
Proof. reflexivity. Qed.

Example closest_key_prefix : _closest_key "mysterious" motifs = Ret "mystery".
Proof. reflexivity. Qed.

Example closest_key_fallback : _closest_key "western" motifs = Ret "fantasy".
Proof. reflexivity. Qed.

Example closest_key_empty : _closest_key "" motifs = Ret "fantasy".
Proof. reflexivity. Qed.

(** White space from 128 on is trimmed like any other. *)
Example closest_key_no_break_space :
  _closest_key (nbsp +:+ "Mystery" +:+ em_space) motifs = Ret "mystery".
Proof. reflexivity. Qed.

(** The slice [k[:3]] counts characters, not bytes. *)
Example take_counts_characters :
  PyStr.take 3 ("sc" +:+ dotted_capital_i +:+ "-fi") = "sc" +:+ dotted_capital_i
  ∧ PyStr.take 3 (nbsp +:+ em_space) = nbsp +:+ em_space
  ∧ PyStr.take 3 "fantasy" = "fan".
Proof. by repeat split. Qed.

(** On an empty mapping [next(iter(...))] has nothing to return. *)
Example closest_key_no_keys : _closest_key "x" (@nil (string * nat)) = Raise StopIteration.
Proof. reflexivity. Qed.

(** ** Facts about the story graph *)

Lemma graph_keys (k : string) (sh : Shape) :
  story_graph !! k = Some sh -> sh_id sh = k.
Proof.
  revert k sh. change (map_Forall (fun k sh => sh_id sh = k) story_graph).
  apply map_Forall_to_list. vm_compute.
  repeat (constructor; [reflexivity|]). constructor.
Qed.

Lemma graph_omen_study (sh : Shape) :
  story_graph !! "omen" = Some sh -> sh_edges sh !! "A" = Some "study_runes".
Proof. intros [= <-]. reflexivity. Qed.

Section EngineFacts.
Context {rng : Type} `{!PyRuntime rng} `{!PyText}.
Implicit Types (w : World rng) (e : StoryEngine rng).

Lemma engine_ok_shape e k n :
  engine_ok e -> nodes e !! k = Some n -> story_graph !! k = Some (shape_of n).
Proof. intros [<- _] Hk. by rewrite lookup_fmap, Hk. Qed.

Lemma engine_ok_node e k sh :
  engine_ok e -> story_graph !! k = Some sh ->
  ∃ n, nodes e !! k = Some n ∧ shape_of n = sh.
Proof.
  intros [<- _]. rewrite lookup_fmap. destruct (nodes e !! k) as [n|]; [|done].
  intros [= <-]. by exists n.
Qed.

Lemma engine_ok_node_id e k n :
  engine_ok e -> nodes e !! k = Some n -> node_id n = k.
Proof.
  intros Hok Hk. apply (graph_keys k (shape_of n)). by eapply engine_ok_shape.
Qed.

Lemma engine_ok_climax e : engine_ok e -> is_Some (nodes e !! "climax").
Proof.
  intros Hok. destruct (engine_ok_node e "climax" _ Hok eq_refl) as (n & Hn & _).
  by exists n.
Qed.

Lemma engine_ok_hidden_path e : engine_ok e -> is_Some (nodes e !! "hidden_path").
Proof.
  intros Hok. destruct (engine_ok_node e "hidden_path" _ Hok eq_refl) as (n & Hn & _).
  by exists n.
Qed.

(** ** Running the methods of the engine *)

Lemma nodes_at_run w k n :
  nodes (engine w) !! k = Some n -> nodes_at k w = (Ret n, w).
Proof. intros Hk. unfold nodes_at. by rewrite Hk. Qed.

Lemma get_current_node_run w n :
  nodes (engine w) !! current_id (engine w) = Some n ->
  get_current_node w = (Ret n, w).
Proof. apply nodes_at_run. Qed.

Lemma get_current_node_fails w :
  nodes (engine w) !! current_id (engine w) = None ->
  get_current_node w = (Raise (KeyError (current_id (engine w))), w).
Proof. intros Hk. unfold get_current_node, nodes_at. by rewrite Hk. Qed.

Lemma step_command w raw n :
  nodes (engine w) !! current_id (engine w) = Some n ->
  is_command raw = true ->
  step raw w =
    (_handle_command (PyStr.tail (PyStr.strip raw));; Some <$> get_current_node) w.
Proof.
  intros Hn Hc. unfold step, is_command in *.
  rewrite (bind_run _ _ _ _ _ (get_current_node_run w n Hn)). by rewrite Hc.
Qed.

Lemma step_secret w raw n hp :
  nodes (engine w) !! current_id (engine w) = Some n ->
  nodes (engine w) !! "hidden_path" = Some hp ->
  is_command raw = false ->
  is_secret raw = true ->
  step raw w =
    (Ret (Some hp), with_current_id "hidden_path" (with_flags (flag_incr "secret") w)).
Proof.
  intros Hn Hhp Hc Hs. unfold step, is_command, is_secret in *.
  rewrite (bind_run _ _ _ _ _ (get_current_node_run w n Hn)).
  rewrite Hc, Hs.
  unfold mbind, comp_mbind, comp_bind, update_flags, assign_current_id, comp_modify,
    fmap, comp_fmap, comp_bind, get_current_node, nodes_at. simpl.
  by rewrite Hhp.
Qed.

Lemma any_other_flag_spec (f : gmap string Z) :
  any_other_flag f = true ↔ ∃ k, k ≠ "steps" ∧ k ≠ "" ∧ is_Some (f !! k).
Proof.
  unfold any_other_flag. rewrite existsb_exists. split.
  - intros (k & Hin & Hk). apply filter_In in Hin as [Hin Hs].
    apply list_elem_of_In, list_elem_of_fmap in Hin as ([k' v] & -> & Hkv).
    apply elem_of_map_to_list in Hkv. simpl in *.
    exists k'. split; [|split].
    + intros ->. by rewrite String.eqb_refl in Hs.
    + intros ->. by rewrite String.eqb_refl in Hk.
    + by exists v.
  - intros (k & Hs & Hk & [v Hv]). exists k. split.
    + apply filter_In. split.
      * apply list_elem_of_In, list_elem_of_fmap. exists (k, v).
        split; [done|]. by apply elem_of_map_to_list.
      * apply negb_true_iff, String.eqb_neq. done.
    + apply negb_true_iff, String.eqb_neq. done.
Qed.

Lemma has_tag_spec (t : string) (n : StoryNode) :
  has_tag t n = true ↔ t ∈ tags n.
Proof.
  unfold has_tag. rewrite existsb_exists, list_elem_of_In. split.
  - by intros (x & Hin & ->%String.eqb_eq).
  - intros Hin. exists t. by rewrite String.eqb_refl.
Qed.

Lemma funnel_run w climax :
  nodes (engine w) !! "climax" = Some climax ->
  let w1 := with_flags (flag_incr "steps") w in
  _maybe_funnel_to_climax w =
    match nodes (engine w) !! current_id (engine w) with
    | None => (Ret climax, with_current_id "climax" w1)
    | Some node =>
        if funnel_test node (flags (state (engine w1)))
        then (Ret climax, with_current_id "climax" w1)
        else (Ret node, w1)
    end.
Proof.
  intros Hc w1. unfold _maybe_funnel_to_climax, funnel_test.
  unfold mbind, comp_mbind, comp_bind, update_flags, assign_current_id,
    comp_modify, comp_get, nodes_at. cbn -[flag_incr flag_get any_other_flag].
  destruct (nodes (engine w) !! current_id (engine w)) as [node|].
  - fold w1. destruct (_ && _ && _ && _); [|done].
    cbn. by rewrite Hc.
  - cbn. by rewrite Hc.
Qed.

Lemma side_effects_run nid c w :
  _apply_side_effects nid c w =
    (Ret tt,
     if String.eqb nid "ally" && String.eqb c "A"
     then with_flags <["map" := 1]> (with_item "cryptic map" w)
     else if String.eqb nid "onward" && String.eqb c "A"
     then with_flags <["key" := 1]> (with_item "stone key" w)
     else if String.eqb nid "omen" && String.eqb c "C"
     then with_flags <["reckless" := 1]> w
     else if String.eqb nid "onward" && String.eqb c "B"
     then with_flags <["wounded" := 1]> w
     else w).
Proof.
  unfold _apply_side_effects.
  destruct (String.eqb_spec nid "ally") as [->|?];
    [|destruct (String.eqb_spec nid "onward") as [->|?];
      [|destruct (String.eqb_spec nid "omen") as [->|?]]];
  (destruct (String.eqb_spec c "A") as [->|?];
    [|destruct (String.eqb_spec c "B") as [->|?];
      [|destruct (String.eqb_spec c "C") as [->|?]]]);
  reflexivity.
Qed.

Lemma flag_get_incr k (f : gmap string Z) :
  flag_get k (flag_incr k f) = flag_get k f + 1.
Proof. unfold flag_get at 1, flag_incr. by rewrite lookup_insert_eq. Qed.

Lemma omen_fall_through node raw w :
  (is_omen_study node raw = true ->
     flag_get "studies" (flags (state (engine w))) + 1 < 2) ->
  omen_double_study node (PyStr.strip raw) w = (Ret None, studied node raw w).
Proof.
  intros Hlt. unfold omen_double_study, studied, is_omen_study in *.
  destruct (String.eqb (node_id node) "omen" && _); [|done].
  specialize (Hlt eq_refl).
  unfold mbind, comp_mbind, comp_bind, update_flags, comp_modify, comp_get.
  cbn -[flag_incr flag_get]. rewrite flag_get_incr.
  destruct (Z.leb_spec 2 (flag_get "studies" (flags (state (engine w))) + 1)); [lia|done].
Qed.

Lemma omen_second_study node raw w hp :
  is_omen_study node raw = true ->
  2 <= flag_get "studies" (flags (state (engine w))) + 1 ->
  nodes (engine w) !! "hidden_path" = Some hp ->
  omen_double_study node (PyStr.strip raw) w =
    (Ret (Some hp), with_current_id "hidden_path" (with_flags (flag_incr "studies") w)).
Proof.
  intros Ho Hge Hhp. unfold omen_double_study, is_omen_study in *. rewrite Ho.
  unfold mbind, comp_mbind, comp_bind, update_flags, comp_modify, comp_get,
    assign_current_id, fmap, comp_fmap, comp_bind, get_current_node, nodes_at.
  cbn -[flag_incr flag_get]. rewrite flag_get_incr.
  destruct (Z.leb_spec 2 (flag_get "studies" (flags (state (engine w))) + 1)); [|lia].
  cbn. by rewrite Hhp.
Qed.

Lemma step_generic w raw node label target :
  generic_choice w raw node label target ->
  step raw w =
    (Some <$> _maybe_funnel_to_climax)
      (with_current_id target
         (_apply_side_effects (node_id node) (str_upper (PyStr.strip raw))
            (studied node raw w)).2).
Proof.
  intros (Hn & Hc & Hs & Ho & Hch). unfold step, is_command, is_secret in *.
  rewrite (bind_run _ _ _ _ _ (get_current_node_run w node Hn)).
  rewrite Hc, Hs.
  rewrite (bind_run _ _ _ _ _ (omen_fall_through node raw w Ho)).
  rewrite Hch. rewrite side_effects_run.
  unfold mbind at 1 2, comp_mbind, comp_bind at 1 2.
  rewrite side_effects_run. reflexivity.
Qed.

Lemma step_unknown w raw node :
  nodes (engine w) !! current_id (engine w) = Some node ->
  is_command raw = false ->
  is_secret raw = false ->
  is_omen_study node raw = false ->
  choices node !! str_upper (PyStr.strip raw) = None ->
  step raw w = (Ret None, w).
Proof.
  intros Hn Hc Hs Ho Hch. unfold step, is_command, is_secret in *.
  rewrite (bind_run _ _ _ _ _ (get_current_node_run w node Hn)).
  rewrite Hc, Hs.
  rewrite (bind_run _ _ w None (studied node raw w)).
  - unfold studied. rewrite Ho, Hch. reflexivity.
  - apply omen_fall_through. by rewrite Ho.
Qed.

Lemma step_omen_twice w raw node hp :
  nodes (engine w) !! current_id (engine w) = Some node ->
  nodes (engine w) !! "hidden_path" = Some hp ->
  is_command raw = false ->
  is_secret raw = false ->
  is_omen_study node raw = true ->
  2 <= flag_get "studies" (flags (state (engine w))) + 1 ->
  step raw w =
    (Ret (Some hp), with_current_id "hidden_path" (with_flags (flag_incr "studies") w)).
Proof.
  intros Hn Hhp Hc Hs Ho Hge. unfold step, is_command, is_secret in *.
  rewrite (bind_run _ _ _ _ _ (get_current_node_run w node Hn)).
  rewrite Hc, Hs.
  by rewrite (bind_run _ _ _ _ _ (omen_second_study node raw w hp Ho Hge Hhp)).
Qed.

Lemma side_effects_frame nid c w :
  let w1 := (_apply_side_effects nid c w).2 in
  nodes (engine w1) = nodes (engine w)
  ∧ current_id (engine w1) = current_id (engine w)
  ∧ gen_rand (engine w1) = gen_rand (engine w)
  ∧ stdin w1 = stdin w.
Proof. rewrite side_effects_run. cbn [snd]. by repeat case_match. Qed.

Lemma studied_frame node raw w :
  nodes (engine (studied node raw w)) = nodes (engine w)
  ∧ current_id (engine (studied node raw w)) = current_id (engine w)
  ∧ inventory (state (engine (studied node raw w))) = inventory (state (engine w)).
Proof. unfold studied. by case_match. Qed.

(** Under [engine_ok] the omen offers choice [A]. *)
Lemma omen_has_study e node raw :
  engine_ok e -> nodes e !! current_id e = Some node ->
  is_omen_study node raw = true ->
  ∃ label, choices node !! str_upper (PyStr.strip raw) = Some (label, "study_runes").
Proof.
  intros Hok Hn [Hid%String.eqb_eq ->%String.eqb_eq]%andb_true_iff.
  pose proof (engine_ok_node_id e _ _ Hok Hn) as Hcur.
  pose proof (engine_ok_shape e _ _ Hok Hn) as Hsh.
  rewrite <- Hcur, Hid in Hsh. apply graph_omen_study in Hsh.
  unfold shape_of in Hsh. simpl in Hsh. rewrite lookup_fmap in Hsh.
  destruct (choices node !! "A") as [[label t]|]; [|done].
  simpl in Hsh. injection Hsh as ->. by exists label.
Qed.

(** The five ways through [step]. *)
Lemma step_cases w raw :
  engine_ok (engine w) ->
  ∃ node, nodes (engine w) !! current_id (engine w) = Some node ∧
    ((is_command raw = true
      ∧ step raw w =
          (_handle_command (PyStr.tail (PyStr.strip raw));; Some <$> get_current_node) w)
     ∨ (is_command raw = false ∧ is_secret raw = true
        ∧ ∃ hp, nodes (engine w) !! "hidden_path" = Some hp
          ∧ step raw w = (Ret (Some hp),
               with_current_id "hidden_path" (with_flags (flag_incr "secret") w)))
     ∨ (is_command raw = false ∧ is_secret raw = false
        ∧ is_omen_study node raw = true
        ∧ 2 <= flag_get "studies" (flags (state (engine w))) + 1
        ∧ ∃ hp, nodes (engine w) !! "hidden_path" = Some hp
          ∧ step raw w = (Ret (Some hp),
               with_current_id "hidden_path" (with_flags (flag_incr "studies") w)))
     ∨ (∃ label target, generic_choice w raw node label target)
     ∨ (is_command raw = false ∧ is_secret raw = false
        ∧ is_omen_study node raw = false
        ∧ choices node !! str_upper (PyStr.strip raw) = None
        ∧ step raw w = (Ret None, w))).
Proof.
  intros Hok. destruct (proj2 Hok) as [node Hn]. exists node. split; [done|].
  destruct (engine_ok_hidden_path _ Hok) as [hp Hhp].
  destruct (is_command raw) eqn:Hc.
  { left. split; [done|]. by eapply step_command. }
  destruct (is_secret raw) eqn:Hs.
  { right; left. repeat (split; [done|]). exists hp. split; [done|]. by eapply step_secret. }
  destruct (is_omen_study node raw) eqn:Ho.
  - destruct (omen_has_study _ _ _ Hok Hn Ho) as [label Hch].
    destruct (Z.le_gt_cases 2 (flag_get "studies" (flags (state (engine w))) + 1)).
    + do 2 right; left. repeat (split; [done|]). exists hp. split; [done|].
      by eapply step_omen_twice.
    + do 3 right; left. exists label, "study_runes". by repeat split.
  - destruct (choices node !! str_upper (PyStr.strip raw)) as [[label target]|] eqn:Hch.
    + do 3 right; left. exists label, target. repeat split; try done.
      by rewrite Ho.
    + do 4 right. repeat (split; [done|]). by eapply step_unknown.
Qed.

(** ** The invariant is kept *)

Lemma style_key_of_cases style :
  style_key_of style ∈ ["hopeful"; "tragic"; "twist"].
Proof. unfold style_key_of. case_bool_decide; [done|set_solver]. Qed.

(** On a style of characters below 128 the case map is that of the letters. *)
Lemma style_key_of_ascii style :
  PyStr.is_ascii (PyStr.strip style) = true ->
  style_key_of style =
    if bool_decide (PyStr.ascii_lower (PyStr.strip style) ∈ ["hopeful"; "tragic"; "twist"])
    then PyStr.ascii_lower (PyStr.strip style) else "twist".
Proof. intros Ha. unfold style_key_of. by rewrite (str_lower_ascii _ Ha). Qed.

Lemma rewrite_ending_run style w :
  rewrite_ending style w =
    (Ret tt,
     with_current_id ("ending_" +:+ style_key_of style)
       (on_engine (fun e =>
          set_nodes (<["ending_" +:+ style_key_of style :=
                        generate_ending (state e) (style_key_of style)]> (nodes e)) e) w)).
Proof. reflexivity. Qed.

Lemma rewrite_ending_ok style w :
  engine_ok (engine w) -> engine_ok (engine (rewrite_ending style w).2).
Proof.
  intros [Hsh _]. rewrite rewrite_ending_run. cbn [snd].
  pose proof (style_key_of_cases style) as Hk.
  split; cbn.
  - rewrite fmap_insert, Hsh. apply insert_id.
    repeat (apply elem_of_cons in Hk as [->|Hk]; [reflexivity|]).
    by apply elem_of_nil in Hk.
  - rewrite lookup_insert_eq. by eexists.
Qed.

Lemma new_engine_ok st e : new_engine st = Ret e -> engine_ok e ∧ current_id e = "opening".
Proof.
  unfold new_engine.
  destruct (build_nodes_returns st (rng_seed (world_seed st))) as (ns & g' & -> & Hsh).
  intros [= <-]. split; [|done]. split; [done|]. cbn.
  assert (Hop : is_Some ((shape_of <$> ns) !! "opening")) by (rewrite Hsh; by eexists).
  rewrite lookup_fmap in Hop. by apply fmap_is_Some in Hop.
Qed.

Lemma restart_with_run st w :
  ∃ ns g', _build_nodes st (rng_seed (world_seed st)) = (Ret ns, g')
    ∧ restart_with st w = (Ret tt, mkWorld (mkEngine st g' ns "opening") (stdin w)).
Proof.
  destruct (build_nodes_returns st (rng_seed (world_seed st))) as (ns & g' & Hb & _).
  exists ns, g'. split; [done|].
  unfold restart_with, mbind, comp_mbind, comp_bind, comp_modify, in_gen,
    assign_current_id, comp_modify. cbn. by rewrite Hb.
Qed.

Lemma restart_with_ok st w :
  engine_ok (engine (restart_with st w).2)
  ∧ current_id (engine (restart_with st w).2) = "opening".
Proof.
  destruct (restart_with_run st w) as (ns & g' & Hb & ->). cbn [snd engine].
  apply (new_engine_ok st). unfold new_engine. by rewrite Hb.
Qed.

Lemma input_engine w : engine (input w).2 = engine w.
Proof. unfold input. by destruct (stdin w). Qed.

Lemma prompt_for_seeds_engine w : engine (prompt_for_seeds w).2 = engine w.
Proof.
  unfold prompt_for_seeds, mbind, comp_mbind, comp_bind, fmap, comp_fmap, comp_bind,
    input.
  destruct w as [e lines].
  destruct lines as [|l1 [|l2 [|l3 [|l4 rest]]]]; reflexivity.
Qed.

Lemma handle_command_ok cmd w :
  engine_ok (engine w) -> engine_ok (engine (_handle_command cmd w).2).
Proof.
  intros Hok. unfold _handle_command.
  destruct (PyStr.split cmd) as [|head tail]; [done|].
  repeat (case_match; [try done|]); try done; try (by apply rewrite_ending_ok).
  unfold mbind, comp_mbind, comp_bind.
  pose proof (prompt_for_seeds_engine w) as He.
  destruct (prompt_for_seeds w) as [[st|ex] w1]; cbn [snd] in *.
  - apply restart_with_ok.
  - by rewrite He.
Qed.

Lemma step_ok raw w : engine_ok (engine w) -> engine_ok (engine (step raw w).2).
Proof.
  intros Hok.
  destruct (step_cases w raw Hok) as (node & Hn & Hcases).
  destruct (engine_ok_climax _ Hok) as [climax Hcl].
  destruct Hcases as
    [[_ ->]|[(_ & _ & hp & Hhp & ->)|[(_ & _ & _ & _ & hp & Hhp & ->)
      |[(label & target & Hg)|(_ & _ & _ & _ & ->)]]]]; cbn [snd]; try done.
  - pose proof (handle_command_ok (PyStr.tail (PyStr.strip raw)) w Hok) as Hok'.
    unfold mbind, comp_mbind, comp_bind.
    destruct (_handle_command _ w) as [[[]|ex] w1]; cbn [snd] in *; [|done].
    destruct Hok' as [? [n' Hn']].
    rewrite (fmap_run _ _ _ _ _ (get_current_node_run w1 n' Hn')). by split; [|exists n'].
  - destruct Hok as [Hsh _]. split; [done|]. by exists hp.
  - destruct Hok as [Hsh _]. split; [done|]. by exists hp.
  - rewrite (step_generic _ _ _ _ _ Hg).
    set (w1 := (_apply_side_effects _ _ _).2).
    assert (Hns : nodes (engine w1) = nodes (engine w)).
    { unfold w1. rewrite (proj1 (side_effects_frame _ _ _)).
      apply studied_frame. }
    clearbody w1. unfold fmap, comp_fmap, comp_bind.
    rewrite (funnel_run _ climax); [|cbn; by rewrite Hns].
    cbn -[funnel_test flag_incr]. rewrite Hns.
    destruct Hok as [Hsh _].
    destruct (nodes (engine w) !! target) as [tn|] eqn:Ht.
    + destruct (funnel_test _ _); split; cbn; rewrite Hns; eauto.
    + split; cbn; rewrite Hns; eauto.
Qed.

Lemma reachable_ok w : reachable w -> engine_ok (engine w).
Proof.
  induction 1 as [st e lines Hnew|w raw _ IH|w style _ IH|w st _ IH|w lines _ IH].
  - by apply (new_engine_ok st).
  - by apply step_ok.
  - by apply rewrite_ending_ok.
  - apply restart_with_ok.
  - done.
Qed.

End EngineFacts.

(** ** The pointer, the secret keyword, unknown input, quit and rewrite *)

Section EngineProperties.
Context {rng : Type} `{!PyRuntime rng} `{!PyText}.
Implicit Types (w : World rng) (e : StoryEngine rng).

(** C8. [current_id] is always a key of the node mapping: it is [opening]
    in a new engine and after a restart, and in every world the program
    reaches, looking the current node up returns a node, also after any
    further [step], [rewrite_ending] or [restart_with]. *)
Theorem current_id_always_valid w :
  reachable w ->
  (∀ st e, new_engine st = Ret e ->
     current_id e = "opening" ∧ is_Some (nodes e !! current_id e))
  ∧ (∃ n, get_current_node w = (Ret n, w))
  ∧ (∀ raw, ∃ n, get_current_node (step raw w).2 = (Ret n, (step raw w).2))
  ∧ (∀ style,
       current_id (engine (rewrite_ending style w).2) = "ending_" +:+ style_key_of style
       ∧ ∃ n, get_current_node (rewrite_ending style w).2
              = (Ret n, (rewrite_ending style w).2))
  ∧ (∀ st,
       current_id (engine (restart_with st w).2) = "opening"
       ∧ ∃ n, get_current_node (restart_with st w).2
              = (Ret n, (restart_with st w).2)).
Proof.
  intros Hreach.
  assert (Hcur : ∀ w', reachable w' -> ∃ n, get_current_node w' = (Ret n, w')).
  { intros w' [_ [n Hn]]%reachable_ok. exists n. by apply get_current_node_run. }
  split; [|split; [|split; [|split]]].
  - intros st e Hnew. destruct (new_engine_ok st e Hnew) as [[_ Hn] Hop]. done.
  - by apply Hcur.
  - intros raw. apply Hcur. by constructor.
  - intros style. split; [done|]. apply Hcur. by constructor.
  - intros st. split; [apply restart_with_ok|]. apply Hcur. by constructor.
Qed.

(** C3. From any current node, an input whose trimmed form does not begin
    with a colon and equals the secret keyword in any letter case makes
    [step] return the [hidden_path] node at once, in the world where flag
    [secret] went up by one and the pointer is [hidden_path]: every other
    flag, [steps] among them, the inventory, the rest of the world state
    and the node mapping are as before. *)
Theorem secret_keyword w raw :
  engine_ok (engine w) ->
  PyStr.startswith ":" (PyStr.strip raw) = false ->
  str_lower (PyStr.strip raw) = SECRET_INPUT ->
  ∃ hp, nodes (engine w) !! "hidden_path" = Some hp
    ∧ step raw w =
        (Ret (Some hp), with_current_id "hidden_path" (with_flags (flag_incr "secret") w))
    ∧ let st := state (engine w) in
      let e' := engine (step raw w).2 in
      current_id e' = "hidden_path"
      ∧ nodes e' = nodes (engine w)
      ∧ state e' = set_flags (flags (state e')) st
      ∧ inventory (state e') = inventory st
      ∧ flags (state e') !! "secret" = Some (flag_get "secret" (flags st) + 1)
      ∧ flags (state e') !! "steps" = flags st !! "steps"
      ∧ ∀ k, k ≠ "secret" -> flags (state e') !! k = flags st !! k.
Proof.
  intros Hok Hc Hraw.
  assert (Hs : is_secret raw = true) by (by apply String.eqb_eq).
  destruct (proj2 Hok) as [n Hn].
  destruct (engine_ok_hidden_path _ Hok) as [hp Hhp].
  exists hp. split; [done|].
  rewrite (step_secret w raw n hp Hn Hhp Hc Hs). split; [done|].
  cbn -[flag_incr]. unfold flag_incr.
  repeat split; try done.
  - by rewrite lookup_insert_eq.
  - by rewrite lookup_insert_ne.
  - intros k Hk. by rewrite lookup_insert_ne.
Qed.

(** C6. An input that is no command, not the secret keyword, and whose
    upper-cased trimmed form is no choice of the current node makes [step]
    return [None] and leaves the whole world as it was. *)
Theorem unrecognized_input w raw node :
  engine_ok (engine w) ->
  nodes (engine w) !! current_id (engine w) = Some node ->
  PyStr.startswith ":" (PyStr.strip raw) = false ->
  str_lower (PyStr.strip raw) ≠ SECRET_INPUT ->
  choices node !! str_upper (PyStr.strip raw) = None ->
  step raw w = (Ret None, w).
Proof.
  intros Hok Hn Hc Hs Hch.
  apply (step_unknown w raw node); try done.
  - by apply String.eqb_neq.
  - destruct (is_omen_study node raw) eqn:Ho; [|done].
    destruct (omen_has_study _ _ _ Hok Hn Ho) as [label Hl]. congruence.
Qed.

(** C9. [step(":quit")] raises [SystemExit]: it neither returns a node nor
    [None], and the world is as it was before the call. *)
Theorem quit_terminates w raw :
  is_Some (nodes (engine w) !! current_id (engine w)) ->
  PyStr.strip raw = ":quit" ->
  step raw w = (Raise (SystemExit 0), w)
  ∧ ∀ r w', step raw w ≠ (Ret r, w').
Proof.
  intros [n Hn] Hraw.
  assert (Hstep : step raw w = (Raise (SystemExit 0), w)).
  { rewrite (step_command w raw n Hn); [|unfold is_command; by rewrite Hraw].
    rewrite Hraw. reflexivity. }
  split; [done|]. intros r w'. by rewrite Hstep.
Qed.

(** C7. [rewrite_ending(style)] works with a style that is one of
    [hopeful], [tragic], [twist]: the trimmed lower-cased argument when it
    is one of them, [twist] otherwise.  It stores the regenerated ending
    under [ending_<style>], leaves every other entry of the node mapping,
    the world state, the random source and the input alone, and points
    [current_id] at that key.  So [rewrite_ending("bogus")] is
    [rewrite_ending("twist")]. *)
Theorem rewrite_ending_frame w style :
  let k := style_key_of style in
  let s := str_lower (PyStr.strip style) in
  let w' := (rewrite_ending style w).2 in
  k ∈ ["hopeful"; "tragic"; "twist"]
  ∧ (s ∈ ["hopeful"; "tragic"; "twist"] -> k = s)
  ∧ (s ∉ ["hopeful"; "tragic"; "twist"] -> k = "twist")
  ∧ (rewrite_ending style w).1 = Ret tt
  ∧ nodes (engine w') !! ("ending_" +:+ k)
      = Some (generate_ending (state (engine w)) k)
  ∧ (∀ j, j ≠ "ending_" +:+ k -> nodes (engine w') !! j = nodes (engine w) !! j)
  ∧ state (engine w') = state (engine w)
  ∧ gen_rand (engine w') = gen_rand (engine w)
  ∧ stdin w' = stdin w
  ∧ current_id (engine w') = "ending_" +:+ k
  ∧ rewrite_ending "bogus" w = rewrite_ending "twist" w
  ∧ style_key_of "bogus" = "twist".
Proof.
  intros k s w'. subst w'.
  assert (Hbogus : style_key_of "bogus" = "twist") by (by rewrite style_key_of_ascii).
  assert (Htwist : style_key_of "twist" = "twist") by (by rewrite style_key_of_ascii).
  rewrite !rewrite_ending_run, Hbogus, Htwist. cbn [fst snd].
  split; [apply style_key_of_cases|].
  split; [|split].
  { intros Hs. unfold k, style_key_of. fold s. by rewrite bool_decide_eq_true_2. }
  { intros Hs. unfold k, style_key_of. fold s. by rewrite bool_decide_eq_false_2. }
  cbn. repeat split; try done.
  - by rewrite lookup_insert_eq.
  - intros j Hj. by rewrite lookup_insert_ne.
Qed.

End EngineProperties.

(** ** The climax funnel *)

Section Funnel.
Context {rng : Type} `{!PyRuntime rng} `{!PyText}.
Implicit Types (w : World rng) (e : StoryEngine rng).

Lemma funnel_test_spec (tn : StoryNode) (f : gmap string Z) :
  funnel_test tn f = true ↔
    is_ending tn = false ∧ ("hidden" ∉ tags tn)
    ∧ 4 <= flag_get "steps" f ∧ some_other_named_key f.
Proof.
  unfold funnel_test, some_other_named_key.
  rewrite !andb_true_iff, !negb_true_iff, Z.leb_le, any_other_flag_spec.
  rewrite <- (has_tag_spec "hidden" tn).
  destruct (has_tag "hidden" tn); intuition discriminate.
Qed.

(** What the side effects and the count of studies leave alone. *)
Lemma side_effects_flags nid c w k :
  k ∉ ["map"; "key"; "reckless"; "wounded"] ->
  flags (state (engine (_apply_side_effects nid c w).2)) !! k
    = flags (state (engine w)) !! k.
Proof.
  intros Hk. rewrite side_effects_run. cbn [snd].
  repeat case_match; cbn; try done; rewrite lookup_insert_ne; try done;
    intros <-; apply Hk; compute_done.
Qed.

Lemma studied_flags node raw w k :
  k ≠ "studies" ->
  flags (state (engine (studied node raw w))) !! k = flags (state (engine w)) !! k.
Proof.
  intros Hk. unfold studied. case_match; [|done]. cbn. unfold flag_incr.
  by rewrite lookup_insert_ne.
Qed.

Lemma generic_steps_kept node raw w :
  flag_get "steps"
    (flags (state (engine (_apply_side_effects (node_id node)
       (str_upper (PyStr.strip raw)) (studied node raw w)).2)))
  = flag_get "steps" (flags (state (engine w))).
Proof.
  unfold flag_get. rewrite side_effects_flags, studied_flags; [done|done|].
  compute_done.
Qed.

(** The world a generic choice transition ends in. *)
Lemma generic_choice_run w raw node label target climax :
  generic_choice w raw node label target ->
  nodes (engine w) !! "climax" = Some climax ->
  let w1 := (_apply_side_effects (node_id node) (str_upper (PyStr.strip raw))
               (studied node raw w)).2 in
  let w2 := with_flags (flag_incr "steps") (with_current_id target w1) in
  step raw w =
    match nodes (engine w) !! target with
    | None => (Ret (Some climax), with_current_id "climax" w2)
    | Some tn =>
        if funnel_test tn (flags (state (engine w2)))
        then (Ret (Some climax), with_current_id "climax" w2)
        else (Ret (Some tn), w2)
    end.
Proof.
  intros Hg Hcl w1 w2. rewrite (step_generic _ _ _ _ _ Hg). fold w1.
  assert (Hns : nodes (engine w1) = nodes (engine w)).
  { unfold w1. rewrite (proj1 (side_effects_frame _ _ _)). apply studied_frame. }
  unfold fmap, comp_fmap, comp_bind.
  rewrite (funnel_run _ climax); [|cbn; by rewrite Hns].
  subst w2. clearbody w1. cbn -[funnel_test flag_incr]. rewrite Hns.
  destruct (nodes (engine w) !! target) as [tn|]; [|done].
  by destruct (funnel_test _ _).
Qed.

(** The state a generic choice transition ends in: the funnel adds a step
    to the flags the side effects left and touches nothing else of it. *)
Lemma generic_choice_state w raw node label target :
  engine_ok (engine w) ->
  generic_choice w raw node label target ->
  let w1 := (_apply_side_effects (node_id node) (str_upper (PyStr.strip raw))
               (studied node raw w)).2 in
  let w' := (step raw w).2 in
  inventory (state (engine w')) = inventory (state (engine w1))
  ∧ flags (state (engine w')) = flag_incr "steps" (flags (state (engine w1))).
Proof.
  intros Hok Hg w1 w'. subst w'.
  destruct (engine_ok_climax _ Hok) as [climax Hcl].
  rewrite (generic_choice_run w raw node label target climax Hg Hcl). fold w1.
  clearbody w1. destruct (nodes (engine w) !! target) as [tn|]; [|done].
  by destruct (funnel_test _ _).
Qed.

Lemma funnel_rule_holds w raw :
  engine_ok (engine w) -> funnel_rule some_other_named_key w raw.
Proof.
  intros Hok node label target Hg.
  destruct (engine_ok_climax _ Hok) as [climax Hcl].
  pose proof (generic_choice_run w raw node label target climax Hg Hcl) as Hrun.
  pose proof (generic_steps_kept node raw w) as Hsteps.
  cbv zeta in Hrun.
  set (w1 := (_apply_side_effects _ _ _).2) in *.
  assert (Hns : nodes (engine w1) = nodes (engine w)).
  { unfold w1. rewrite (proj1 (side_effects_frame _ _ _)). apply studied_frame. }
  clearbody w1.
  assert (Hcount : flag_incr "steps" (flags (state (engine w1))) !! "steps"
                   = Some (flag_get "steps" (flags (state (engine w))) + 1)).
  { unfold flag_incr. by rewrite lookup_insert_eq, Hsteps. }
  destruct (nodes (engine w) !! target) as [tn|] eqn:Ht.
  - destruct (funnel_test tn _) eqn:Hf.
    + eexists _, _. split; [exact Hrun|]. cbn -[flag_incr].
      rewrite Hns. repeat split; try done.
      intros Hno. exfalso. apply Hno. by apply funnel_test_spec.
    + eexists _, _. split; [exact Hrun|]. cbn -[flag_incr].
      rewrite Hns. repeat split; try done.
      intros Hfires%funnel_test_spec. cbn -[flag_incr] in Hf. congruence.
  - eexists _, _. split; [exact Hrun|]. cbn -[flag_incr]. by rewrite Hns.
Qed.

Lemma other_key_named (f : gmap string Z) :
  f !! "" = None -> (some_other_key f ↔ some_other_named_key f).
Proof.
  intros Hnone. unfold some_other_key, some_other_named_key. split.
  - intros (k & Hk & Hsome). exists k. repeat split; try done.
    intros ->. rewrite Hnone in Hsome. by destruct Hsome.
  - intros (k & Hk & _ & Hsome). by exists k.
Qed.

(** A generic choice transition gives no flag the empty name. *)
Lemma generic_choice_names w raw node label target :
  engine_ok (engine w) ->
  generic_choice w raw node label target ->
  flags (state (engine (step raw w).2)) !! "" = flags (state (engine w)) !! "".
Proof.
  intros Hok Hg.
  destruct (generic_choice_state w raw node label target Hok Hg) as [_ Hfl].
  cbv zeta in Hfl. rewrite Hfl. unfold flag_incr.
  rewrite lookup_insert_ne by done.
  rewrite side_effects_flags by compute_done. by apply studied_flags.
Qed.

Lemma funnel_rule_plain w raw :
  engine_ok (engine w) ->
  flags (state (engine w)) !! "" = None ->
  funnel_rule some_other_key w raw.
Proof.
  intros Hok Hnone node label target Hg.
  destruct (funnel_rule_holds w raw Hok node label target Hg)
    as (n & w' & Hstep & Hn & Hsteps & Hcur).
  exists n, w'. repeat (split; [done|]).
  assert (Hnone' : flags (state (engine w')) !! "" = None).
  { pose proof (generic_choice_names w raw node label target Hok Hg) as Hkeep.
    rewrite Hstep in Hkeep. cbn [snd] in Hkeep. by rewrite Hkeep. }
  destruct (nodes (engine w) !! target) as [tn|]; [|done].
  cbv zeta in Hcur |- *. destruct Hcur as [Hyes Hno]. split.
  - intros (? & ? & ? & Hother). apply Hyes. repeat split; try done.
    by apply other_key_named.
  - intros Hnot. apply Hno. intros (? & ? & ? & Hother). apply Hnot.
    repeat split; try done. by apply other_key_named.
Qed.

End Funnel.

(** ** Worlds to run the engine on *)

Lemma demo_world_ok (k : string) (f : gmap string Z) :
  is_Some (demo_nodes !! k) -> engine_ok (engine (demo_world k f)).
Proof. intros Hk. split; [|done]. vm_cast_no_check (eq_refl story_graph). Qed.

Lemma demo_world_reachable : reachable (demo_world "opening" ∅).
Proof. by apply (reach_new (demo_state ∅)). Qed.

Section FunnelRule.
Context {rng : Type} `{!PyRuntime rng} `{!PyText}.
Implicit Types (w : World rng) (e : StoryEngine rng).

(** C1. A successful generic choice transition counts exactly one step;
    then the pointer is [climax] when the target of the choice is no key of
    the node mapping, and otherwise [climax] exactly when the target node is
    no ending, is not tagged [hidden], the count of steps is at least 4 and
    the flags hold a key other than [steps], whatever value is stored under
    it; in every other case the pointer is the target.  The transitions of
    the secret keyword and of the second study of the omen count no step.
    This holds wherever no flag has the empty name, and the engine gives no
    flag that name. *)
Theorem funnel_after_generic_choice w raw :
  engine_ok (engine w) ->
  flags (state (engine w)) !! "" = None ->
  funnel_rule some_other_key w raw
  ∧ (∀ f1 f2 : gmap string Z, dom f1 = dom f2 -> any_other_flag f1 = any_other_flag f2)
  ∧ (is_command raw = false -> is_secret raw = true ->
       flags (state (engine (step raw w).2)) !! "steps"
         = flags (state (engine w)) !! "steps")
  ∧ (∀ node,
       nodes (engine w) !! current_id (engine w) = Some node ->
       is_command raw = false -> is_secret raw = false ->
       is_omen_study node raw = true ->
       2 <= flag_get "studies" (flags (state (engine w))) + 1 ->
       current_id (engine (step raw w).2) = "hidden_path"
       ∧ flags (state (engine (step raw w).2)) !! "steps"
           = flags (state (engine w)) !! "steps").
Proof.
  intros Hok Hnone. destruct (engine_ok_hidden_path _ Hok) as [hp Hhp].
  split; [by apply funnel_rule_plain|]. split; [|split].
  - intros f1 f2 Hdom. apply Bool.eq_true_iff_eq.
    rewrite !any_other_flag_spec.
    split; intros (k & ? & ? & Hk); exists k; repeat split; try done.
    + by rewrite <- elem_of_dom, <- Hdom, elem_of_dom.
    + by rewrite <- elem_of_dom, Hdom, elem_of_dom.
  - intros Hc Hs. destruct (proj2 Hok) as [n Hn].
    rewrite (step_secret w raw n hp Hn Hhp Hc Hs). cbn. unfold flag_incr.
    by rewrite lookup_insert_ne.
  - intros node Hn Hc Hs Ho Hge.
    rewrite (step_omen_twice w raw node hp Hn Hhp Hc Hs Ho Hge). cbn.
    split; [done|]. unfold flag_incr. by rewrite lookup_insert_ne.
Qed.

End FunnelRule.

(** Four generic steps with a flag set end on the climax: here the fourth,
    from the opening to the ally with a map in hand. *)
Lemma funnel_after_generic_choice_witness :
  engine_ok (engine (demo_world "opening" (dict_of [("map", 1); ("steps", 3)])))
  ∧ flags (state (engine (demo_world "opening" (dict_of [("map", 1); ("steps", 3)]))))
      !! "" = None
  ∧ funnel_rule some_other_key
      (demo_world "opening" (dict_of [("map", 1); ("steps", 3)])) "b".
Proof.
  assert (Hok : engine_ok (engine (demo_world "opening" (dict_of [("map", 1); ("steps", 3)])))).
  { apply demo_world_ok. by eexists. }
  split; [exact Hok|]. split; [reflexivity|].
  exact (proj1 (funnel_after_generic_choice _ "b" Hok eq_refl)).
Defined.

Example funnel_fires :
  current_id (engine (step "b" (demo_world "opening" (dict_of [("map", 1); ("steps", 3)]))).2)
  = "climax".
Proof. vm_compute. reflexivity. Qed.

Example funnel_waits :
  current_id (engine (step "b" (demo_world "opening" (dict_of [("map", 1); ("steps", 2)]))).2)
  = "ally".
Proof. vm_compute. reflexivity. Qed.

Example funnel_needs_a_flag :
  current_id (engine (step "b" (demo_world "opening" (dict_of [("steps", 7)]))).2)
  = "ally".
Proof. vm_compute. reflexivity. Qed.

Example funnel_counts_zero_valued_flag :
  current_id (engine (step "b" (demo_world "opening" (dict_of [("map", 0); ("steps", 3)]))).2)
  = "climax".
Proof. vm_compute. reflexivity. Qed.

(** Four generic steps from the opening, a flag set on the way: the fourth
    ends on the climax. *)
Example four_steps_to_climax :
  let w := play ["A"; "A"; "B"; "B"] (demo_world "opening" ∅) in
  current_id (engine w) = "climax"
  ∧ flags (state (engine w)) = dict_of [("steps", 4); ("studies", 1); ("wounded", 1)]
  ∧ current_id (engine (play ["A"; "A"; "B"] (demo_world "opening" ∅))) = "onward".
Proof. vm_compute. repeat split; exact eq_refl. Qed.

(** On flags built by hand with the empty string for a key, that key is not
    counted: [any] looks at the key itself, and the empty string is false. *)
Example unnamed_flag_is_not_counted :
  any_other_flag (dict_of [("", 1); ("steps", 4)]) = false
  ∧ any_other_flag (dict_of [("map", 0); ("steps", 4)]) = true.
Proof. by split. Qed.

Lemma secret_keyword_witness :
  engine_ok (engine (demo_world "omen" ∅))
  ∧ PyStr.startswith ":" (PyStr.strip (nbsp +:+ " WhIsPeR" +:+ em_space)) = false
  ∧ str_lower (PyStr.strip (nbsp +:+ " WhIsPeR" +:+ em_space)) = SECRET_INPUT
  ∧ ∃ hp, step (nbsp +:+ " WhIsPeR" +:+ em_space) (demo_world "omen" ∅)
          = (Ret (Some hp),
             with_current_id "hidden_path"
               (with_flags (flag_incr "secret") (demo_world "omen" ∅))).
Proof.
  assert (Hok : engine_ok (engine (demo_world "omen" ∅))).
  { apply demo_world_ok. by eexists. }
  assert (Hc : PyStr.startswith ":" (PyStr.strip (nbsp +:+ " WhIsPeR" +:+ em_space))
               = false) by reflexivity.
  assert (Hs : str_lower (PyStr.strip (nbsp +:+ " WhIsPeR" +:+ em_space))
               = SECRET_INPUT) by reflexivity.
  split; [exact Hok|]. split; [exact Hc|]. split; [exact Hs|].
  destruct (secret_keyword (demo_world "omen" ∅) (nbsp +:+ " WhIsPeR" +:+ em_space)
              Hok Hc Hs) as (hp & _ & Hstep & _).
  exists hp. exact Hstep.
Defined.

Lemma unrecognized_input_witness :
  engine_ok (engine (demo_world "opening" ∅))
  ∧ ∃ node, nodes (engine (demo_world "opening" ∅)) !! "opening" = Some node
      ∧ PyStr.startswith ":" (PyStr.strip "Z") = false
      ∧ str_lower (PyStr.strip "Z") ≠ SECRET_INPUT
      ∧ choices node !! str_upper (PyStr.strip "Z") = None
      ∧ step "Z" (demo_world "opening" ∅) = (Ret None, demo_world "opening" ∅).
Proof.
  assert (Hok : engine_ok (engine (demo_world "opening" ∅))).
  { apply demo_world_ok. by eexists. }
  split; [exact Hok|].
  destruct (demo_nodes !! "opening") as [node|] eqn:Hn; [|by vm_compute in Hn].
  assert (Hch : choices node !! "Z" = None).
  { vm_compute in Hn. injection Hn as <-. reflexivity. }
  assert (Hs : str_lower (PyStr.strip "Z") ≠ SECRET_INPUT).
  { intros Heq. vm_compute in Heq. discriminate Heq. }
  exists node. split; [exact Hn|]. split; [reflexivity|]. split; [exact Hs|].
  split; [exact Hch|].
  exact (unrecognized_input (demo_world "opening" ∅) "Z" node Hok Hn eq_refl Hs Hch).
Defined.

Lemma current_id_always_valid_witness :
  reachable (demo_world "opening" ∅)
  ∧ ∃ n, get_current_node (demo_world "opening" ∅) = (Ret n, demo_world "opening" ∅).
Proof.
  split; [exact demo_world_reachable|].
  exact (proj1 (proj2 (current_id_always_valid _ demo_world_reachable))).
Defined.

Lemma quit_terminates_witness :
  is_Some (nodes (engine (demo_world "ally" ∅)) !! current_id (engine (demo_world "ally" ∅)))
  ∧ PyStr.strip " :quit " = ":quit"
  ∧ step " :quit " (demo_world "ally" ∅) = (Raise (SystemExit 0), demo_world "ally" ∅).
Proof.
  assert (Hn : is_Some (nodes (engine (demo_world "ally" ∅))
                          !! current_id (engine (demo_world "ally" ∅)))).
  { by eexists. }
  split; [exact Hn|]. split; [reflexivity|].
  exact (proj1 (quit_terminates (demo_world "ally" ∅) " :quit " Hn eq_refl)).
Defined.

(** A command of the adapter's ending prompt, and what the loop of the
    adapter sees of it. *)
Example quit_with_arguments :
  step ":quit now" (demo_world "ending_twist" ∅)
  = (Raise (SystemExit 0), demo_world "ending_twist" ∅).
Proof. vm_compute. reflexivity. Qed.

Example unknown_command_ignored :
  (step ":dance" (demo_world "ally" ∅)).2 = demo_world "ally" ∅.
Proof. vm_compute. reflexivity. Qed.

Example rewrite_command :
  current_id (engine (step ":rewrite  TRAGIC" (demo_world "ally" ∅)).2) = "ending_tragic".
Proof. vm_compute. reflexivity. Qed.

Example rewrite_command_default :
  current_id (engine (step ":rewrite" (demo_world "ally" ∅)).2) = "ending_twist".
Proof. vm_compute. reflexivity. Qed.

Example restart_without_input :
  step ":restart" (demo_world "ally" (dict_of [("map", 1)]))
  = (Raise EOFError, demo_world "ally" (dict_of [("map", 1)])).
Proof. vm_compute. reflexivity. Qed.

Example restart_command :
  let w := (step ":restart"
              (mkWorld (engine (demo_world "ally" (dict_of [("map", 1)])))
                       ["mystery"; ""; " Bo "; ""; "A"])).2 in
  current_id (engine w) = "opening"
  ∧ genre (state (engine w)) = "mystery"
  ∧ tone (state (engine w)) = "whimsical"
  ∧ protagonist (state (engine w)) = "Bo"
  ∧ flags (state (engine w)) = ∅
  ∧ inventory (state (engine w)) = []
  ∧ stdin w = ["A"].
Proof. vm_compute. repeat split; exact eq_refl. Qed.

(** ** The study of the omen *)

Section OmenStudy.
Context {rng : Type} `{!PyRuntime rng} `{!PyText}.
Implicit Types (w : World rng) (e : StoryEngine rng).

Lemma study_input raw node :
  node_id node = "omen" -> PyStr.strip raw ∈ ["A"; "a"] ->
  str_upper (PyStr.strip raw) = "A"
  ∧ is_command raw = false ∧ is_secret raw = false ∧ is_omen_study node raw = true.
Proof.
  intros Hid Hin. unfold is_command, is_secret, is_omen_study. rewrite Hid.
  apply elem_of_cons in Hin as [->|Hin];
    [rewrite (str_upper_ascii "A" eq_refl), (str_lower_ascii "A" eq_refl)
    |apply list_elem_of_singleton in Hin as ->;
     rewrite (str_upper_ascii "a" eq_refl), (str_lower_ascii "a" eq_refl)];
    by repeat split.
Qed.

(** C4. At the omen, [step("A")] in either letter case.  Starting fresh,
    that is with flag [studies] absent and no more than two steps counted
    (a new session comes to the omen with one), it sets [studies] to 1 and
    moves to [study_runes] through the generic choice path, which counts
    the step.  With [studies] at 1 it sets [studies] to 2, puts the pointer
    on [hidden_path] instead of [study_runes] and returns that node without
    running the funnel: no step is counted and nothing else changes. *)
Theorem omen_double_study_rule w raw :
  engine_ok (engine w) ->
  current_id (engine w) = "omen" ->
  PyStr.strip raw ∈ ["A"; "a"] ->
  let st := state (engine w) in
  let w' := (step raw w).2 in
  (flags st !! "studies" = None -> flag_get "steps" (flags st) <= 2 ->
     (∃ n, step raw w = (Ret (Some n), w')
           ∧ nodes (engine w) !! "study_runes" = Some n)
     ∧ current_id (engine w') = "study_runes"
     ∧ flags (state (engine w')) !! "studies" = Some 1
     ∧ flags (state (engine w')) !! "steps" = Some (flag_get "steps" (flags st) + 1)
     ∧ inventory (state (engine w')) = inventory st
     ∧ nodes (engine w') = nodes (engine w))
  ∧ (flags st !! "studies" = Some 1 ->
     ∃ hp, nodes (engine w) !! "hidden_path" = Some hp
       ∧ step raw w =
           (Ret (Some hp),
            with_current_id "hidden_path" (with_flags (flag_incr "studies") w))
       ∧ flags (state (engine w')) !! "studies" = Some 2
       ∧ flags (state (engine w')) !! "steps" = flags st !! "steps"
       ∧ current_id (engine w') = "hidden_path").
Proof.
  intros Hok Hcur Hraw st w'. subst st w'.
  destruct (proj2 Hok) as [node Hn].
  pose proof (engine_ok_node_id _ _ _ Hok Hn) as Hid. rewrite Hcur in Hid.
  destruct (study_input raw node Hid Hraw) as (Hup & Hc & Hs & Ho).
  destruct (engine_ok_hidden_path _ Hok) as [hp Hhp].
  destruct (engine_ok_climax _ Hok) as [climax Hcl].
  split.
  - intros Hnone Hfresh.
    destruct (omen_has_study _ _ _ Hok Hn Ho) as [label Hch].
    assert (Hg : generic_choice w raw node label "study_runes").
    { repeat split; try done. intros _. unfold flag_get. by rewrite Hnone. }
    destruct (engine_ok_node _ "study_runes" _ Hok eq_refl) as (tn & Htn & Hsh).
    pose proof (generic_choice_run w raw node label _ climax Hg Hcl) as Hrun.
    cbv zeta in Hrun. rewrite Htn, Hid, Hup, side_effects_run in Hrun.
    cbn [String.eqb Ascii.eqb Bool.eqb andb snd] in Hrun.
    unfold studied in Hrun. rewrite Ho in Hrun.
    assert (Hfun : funnel_test tn
              (flag_incr "steps" (flag_incr "studies" (flags (state (engine w)))))
            = false).
    { unfold funnel_test. rewrite flag_get_incr. unfold flag_get at 1, flag_incr at 1.
      rewrite lookup_insert_ne; [|done].
      fold (flag_get "steps" (flags (state (engine w)))).
      destruct (Z.leb_spec 4 (flag_get "steps" (flags (state (engine w))) + 1)); [lia|].
      by rewrite andb_false_r. }
    cbn -[funnel_test flag_incr flag_get] in Hrun. rewrite Hfun in Hrun.
    assert (Hone : flag_incr "steps" (flag_incr "studies" (flags (state (engine w))))
                     !! "studies" = Some 1).
    { unfold flag_incr at 1. rewrite lookup_insert_ne; [|done].
      unfold flag_incr, flag_get. by rewrite lookup_insert_eq, Hnone. }
    assert (Hcount : flag_incr "steps" (flag_incr "studies" (flags (state (engine w))))
                       !! "steps" = Some (flag_get "steps" (flags (state (engine w))) + 1)).
    { unfold flag_incr at 1. rewrite lookup_insert_eq. unfold flag_get at 1, flag_incr.
      by rewrite lookup_insert_ne. }
    rewrite Hrun. cbn -[flag_incr flag_get]. split; [by exists tn|]. by repeat split.
  - intros Hone.
    assert (Hge : 2 <= flag_get "studies" (flags (state (engine w))) + 1).
    { unfold flag_get. rewrite Hone. done. }
    exists hp. split; [done|].
    rewrite (step_omen_twice w raw node hp Hn Hhp Hc Hs Ho Hge). split; [done|].
    cbn. unfold flag_incr, flag_get. rewrite lookup_insert_eq, Hone.
    repeat split. by rewrite lookup_insert_ne.
Qed.

End OmenStudy.

Lemma omen_double_study_rule_witness :
  engine_ok (engine (demo_world "omen" (dict_of [("steps", 1)])))
  ∧ PyStr.strip " a " ∈ ["A"; "a"]
  ∧ flag_get "steps" (dict_of [("steps", 1)]) <= 2
  ∧ current_id (engine (step " a " (demo_world "omen" (dict_of [("steps", 1)]))).2)
    = "study_runes"
  ∧ flags (state (engine (step " a "
       (demo_world "omen" (dict_of [("steps", 1)]))).2)) !! "studies"
    = Some 1.
Proof.
  assert (Hok : engine_ok (engine (demo_world "omen" (dict_of [("steps", 1)])))).
  { apply demo_world_ok. by eexists. }
  assert (Hraw : PyStr.strip " a " ∈ ["A"; "a"]) by (right; left).
  assert (Hfresh : flag_get "steps" (dict_of [("steps", 1)]) <= 2) by (vm_compute; discriminate).
  split; [exact Hok|]. split; [exact Hraw|]. split; [exact Hfresh|].
  destruct (proj1 (omen_double_study_rule _ " a " Hok eq_refl Hraw) eq_refl Hfresh)
    as (_ & Hcur & Hone & _).
  split; [exact Hcur|exact Hone].
Defined.

Example first_study :
  let w' := (step "A" (demo_world "omen" (dict_of [("steps", 1)]))).2 in
  current_id (engine w') = "study_runes"
  ∧ flags (state (engine w')) = dict_of [("steps", 2); ("studies", 1)].
Proof. vm_compute. split; exact eq_refl. Qed.

Example second_study :
  let w' := (step "a" (demo_world "omen" (dict_of [("steps", 2); ("studies", 1)]))).2 in
  current_id (engine w') = "hidden_path"
  ∧ flags (state (engine w')) = dict_of [("steps", 2); ("studies", 2)].
Proof. vm_compute. split; exact eq_refl. Qed.

(** ** The side effects of the choices *)

Section SideEffects.
Context {rng : Type} `{!PyRuntime rng} `{!PyText}.
Implicit Types (w v : World rng) (e : StoryEngine rng).

Lemma side_effects_inventory nid c v :
  inventory (state (engine (_apply_side_effects nid c v).2))
  = (inventory (state (engine v))
     ++ (if String.eqb nid "ally" && String.eqb c "A" then ["cryptic map"]
         else if String.eqb nid "onward" && String.eqb c "A" then ["stone key"]
         else []))%list.
Proof.
  rewrite side_effects_run. cbn [snd].
  repeat case_match; cbn; try done; by rewrite app_nil_r.
Qed.

Lemma side_effects_flag nid c v (k a b : string) :
  k ∈ ["map"; "key"; "reckless"; "wounded"] ->
  (k, a, b) ∈ [("map", "ally", "A"); ("key", "onward", "A");
               ("reckless", "omen", "C"); ("wounded", "onward", "B")] ->
  flags (state (engine (_apply_side_effects nid c v).2)) !! k
  = if String.eqb nid a && String.eqb c b then Some 1
    else flags (state (engine v)) !! k.
Proof.
  intros _ Hrow. rewrite side_effects_run. cbn [snd].
  repeat (apply elem_of_cons in Hrow as [[= -> -> ->]|Hrow];
    [destruct (String.eqb_spec nid "ally") as [->|?];
       [|destruct (String.eqb_spec nid "onward") as [->|?];
         [|destruct (String.eqb_spec nid "omen") as [->|?]]];
     (destruct (String.eqb_spec c "A") as [->|?];
       [|destruct (String.eqb_spec c "B") as [->|?];
         [|destruct (String.eqb_spec c "C") as [->|?]]]);
     cbn; try done; by rewrite ?lookup_insert_eq, ?lookup_insert_ne|]).
  by apply elem_of_nil in Hrow.
Qed.

(** C5. The table of side effects.  [_apply_side_effects] at (ally, A)
    appends "cryptic map" and sets [map] to 1, at (onward, A) appends
    "stone key" and sets [key] to 1, at (omen, C) sets [reckless] to 1, at
    (onward, B) sets [wounded] to 1, and at every other pair changes
    nothing.  In a generic choice transition of [step] it runs once, on the
    id of the current node and the upper-cased input, before the pointer
    moves and the funnel runs; so the inventory after the step is the one
    before plus the item of the row taken, if any, and each of the four
    flags is 1 when its row was taken and as before when not. *)
Theorem side_effect_table w raw node label target :
  engine_ok (engine w) ->
  generic_choice w raw node label target ->
  let nid := current_id (engine w) in
  let c := str_upper (PyStr.strip raw) in
  let st := state (engine w) in
  let st' := state (engine (step raw w).2) in
  let taken (a b : string) := nid = a ∧ c = b in
  (∀ v : World rng,
      _apply_side_effects "ally" "A" v
        = (Ret tt, with_flags <["map" := 1]> (with_item "cryptic map" v))
      ∧ _apply_side_effects "onward" "A" v
        = (Ret tt, with_flags <["key" := 1]> (with_item "stone key" v))
      ∧ _apply_side_effects "omen" "C" v = (Ret tt, with_flags <["reckless" := 1]> v)
      ∧ _apply_side_effects "onward" "B" v = (Ret tt, with_flags <["wounded" := 1]> v)
      ∧ ∀ a b, (a, b) ∉ [("ally", "A"); ("onward", "A"); ("omen", "C"); ("onward", "B")] ->
          _apply_side_effects a b v = (Ret tt, v))
  ∧ node_id node = nid
  ∧ step raw w =
      (Some <$> _maybe_funnel_to_climax)
        (with_current_id target (_apply_side_effects nid c (studied node raw w)).2)
  ∧ (taken "ally" "A" ->
       inventory st' = (inventory st ++ ["cryptic map"])%list ∧ flags st' !! "map" = Some 1)
  ∧ (taken "onward" "A" ->
       inventory st' = (inventory st ++ ["stone key"])%list ∧ flags st' !! "key" = Some 1)
  ∧ (taken "omen" "C" -> inventory st' = inventory st ∧ flags st' !! "reckless" = Some 1)
  ∧ (taken "onward" "B" -> inventory st' = inventory st ∧ flags st' !! "wounded" = Some 1)
  ∧ (¬ taken "ally" "A" -> flags st' !! "map" = flags st !! "map")
  ∧ (¬ taken "onward" "A" -> flags st' !! "key" = flags st !! "key")
  ∧ (¬ taken "omen" "C" -> flags st' !! "reckless" = flags st !! "reckless")
  ∧ (¬ taken "onward" "B" -> flags st' !! "wounded" = flags st !! "wounded")
  ∧ (¬ taken "ally" "A" -> ¬ taken "onward" "A" -> inventory st' = inventory st).
Proof.
  intros Hok Hg nid c st st' taken.
  pose proof Hg as (Hn & _).
  pose proof (engine_ok_node_id _ _ _ Hok Hn) as Hid. fold nid in Hid.
  destruct (generic_choice_state w raw node label target Hok Hg) as [Hinv Hfl].
  cbv zeta in Hinv, Hfl. fold st' c in Hinv, Hfl. rewrite Hid in Hinv, Hfl.
  rewrite side_effects_inventory in Hinv.
  rewrite (proj2 (proj2 (studied_frame node raw w))) in Hinv. fold st in Hinv.
  assert (Hflag : ∀ k a b,
    k ∈ ["map"; "key"; "reckless"; "wounded"] ->
    (k, a, b) ∈ [("map", "ally", "A"); ("key", "onward", "A");
                 ("reckless", "omen", "C"); ("wounded", "onward", "B")] ->
    flags st' !! k = if String.eqb nid a && String.eqb c b then Some 1 else flags st !! k).
  { intros k a b Hk Hrow. rewrite Hfl. unfold flag_incr.
    rewrite lookup_insert_ne.
    2:{ intros <-. revert Hk. compute_done. }
    rewrite (side_effects_flag _ _ _ k a b Hk Hrow).
    rewrite studied_flags; [done|]. intros ->. revert Hk. compute_done. }
  assert (Hyes : ∀ a b, taken a b -> String.eqb nid a && String.eqb c b = true).
  { intros a b [-> ->]. by rewrite !String.eqb_refl. }
  assert (Hno : ∀ a b, ¬ taken a b -> String.eqb nid a && String.eqb c b = false).
  { intros a b Hnot. apply andb_false_iff.
    destruct (String.eqb_spec nid a); [|by left].
    destruct (String.eqb_spec c b); [|by right]. by destruct Hnot. }
  split.
  { intros v. repeat split; try reflexivity.
    intros a b Hab. rewrite side_effects_run.
    assert (Hrow : ∀ x y,
      (x, y) ∈ [("ally", "A"); ("onward", "A"); ("omen", "C"); ("onward", "B")] ->
      String.eqb a x && String.eqb b y = false).
    { intros x y Hin. apply andb_false_iff.
      destruct (String.eqb_spec a x) as [->|]; [|by left].
      destruct (String.eqb_spec b y) as [->|]; [|by right]. done. }
    rewrite !Hrow by compute_done. done. }
  split; [done|].
  split; [rewrite (step_generic _ _ _ _ _ Hg); by rewrite Hid|].
  split.
  { intros Ht. rewrite Hinv, (Hyes _ _ Ht). split; [done|].
    rewrite (Hflag "map" "ally" "A"), (Hyes _ _ Ht); [done|compute_done..]. }
  split.
  { intros Ht. rewrite Hinv, (Hflag "key" "onward" "A"); [|compute_done..].
    destruct Ht as [-> ->]. done. }
  split.
  { intros Ht. rewrite Hinv, (Hflag "reckless" "omen" "C"); [|compute_done..].
    destruct Ht as [-> ->]. cbn. by rewrite app_nil_r. }
  split.
  { intros Ht. rewrite Hinv, (Hflag "wounded" "onward" "B"); [|compute_done..].
    destruct Ht as [-> ->]. cbn. by rewrite app_nil_r. }
  split.
  { intros Ht. rewrite (Hflag "map" "ally" "A"), (Hno _ _ Ht); [done|compute_done..]. }
  split.
  { intros Ht. rewrite (Hflag "key" "onward" "A"), (Hno _ _ Ht); [done|compute_done..]. }
  split.
  { intros Ht. rewrite (Hflag "reckless" "omen" "C"), (Hno _ _ Ht); [done|compute_done..]. }
  split.
  { intros Ht. rewrite (Hflag "wounded" "onward" "B"), (Hno _ _ Ht); [done|compute_done..]. }
  intros Ht1 Ht2. rewrite Hinv, (Hno _ _ Ht1), (Hno _ _ Ht2). by rewrite app_nil_r.
Qed.

End SideEffects.

Lemma side_effect_table_witness :
  engine_ok (engine (demo_world "ally" ∅))
  ∧ ∃ node label target,
      generic_choice (demo_world "ally" ∅) "a" node label target
      ∧ inventory (state (engine (step "a" (demo_world "ally" ∅)).2))
        = (inventory (state (engine (demo_world "ally" ∅))) ++ ["cryptic map"])%list
      ∧ flags (state (engine (step "a" (demo_world "ally" ∅)).2)) !! "map" = Some 1.
Proof.
  assert (Hok : engine_ok (engine (demo_world "ally" ∅))).
  { apply demo_world_ok. by eexists. }
  split; [exact Hok|].
  assert (Hg : ∃ node label target, generic_choice (demo_world "ally" ∅) "a" node label target).
  { eexists _, _, _. split; [reflexivity|]. repeat split; reflexivity. }
  destruct Hg as (node & label & target & Hg).
  exists node, label, target. split; [exact Hg|].
  pose proof (side_effect_table (demo_world "ally" ∅) "a" node label target Hok Hg) as Htable.
  cbv zeta in Htable. destruct Htable as (_ & _ & _ & Hally & _).
  apply Hally. split; reflexivity.
Defined.

Example map_bartered :
  let w' := (step "a" (demo_world "ally" ∅)).2 in
  inventory (state (engine w')) = ["cryptic map"]
  ∧ flags (state (engine w')) = dict_of [("map", 1); ("steps", 1)]
  ∧ current_id (engine w') = "climax".
Proof. vm_compute. repeat split; exact eq_refl. Qed.

Example key_found_twice :
  let w1 := (step "A" (demo_world "onward" ∅)).2 in
  let w2 := (step "A" (with_current_id "onward" w1)).2 in
  inventory (state (engine w2)) = ["stone key"; "stone key"]
  ∧ flags (state (engine w2)) = dict_of [("key", 1); ("steps", 2)].
Proof. vm_compute. repeat split; exact eq_refl. Qed.

Example camp_has_no_effect :
  let w' := (step "c" (demo_world "onward" ∅)).2 in
  inventory (state (engine w')) = [] ∧ flags (state (engine w')) = dict_of [("steps", 1)].
Proof. vm_compute. repeat split; exact eq_refl. Qed.

(** ** The targets of the choices *)

Lemma map_forallb_lookup {V} (f : string -> V -> bool) (m : gmap string V) :
  forallb (fun kv => f kv.1 kv.2) (map_to_list m) = true ->
  ∀ k v, m !! k = Some v -> f k v = true.
Proof.
  intros Hall k v Hk. rewrite forallb_forall in Hall.
  apply (Hall (k, v)). apply list_elem_of_In, elem_of_map_to_list. exact Hk.
Qed.

(** A check on the edges of a graph holds of each edge when it holds of the
    list of them. *)
Lemma graph_edge_cases (f : string -> Shape -> string -> string -> bool)
    (m : gmap string Shape) :
  forallb (fun ksh => forallb (fun ct => f ksh.1 ksh.2 ct.1 ct.2)
                              (map_to_list (sh_edges ksh.2)))
          (map_to_list m) = true ->
  ∀ k sh c t, m !! k = Some sh -> sh_edges sh !! c = Some t -> f k sh c t = true.
Proof.
  intros Hall k sh c t Hk Hc.
  pose proof (map_forallb_lookup
    (fun k sh => forallb (fun ct => f k sh ct.1 ct.2) (map_to_list (sh_edges sh)))
    m Hall k sh Hk) as Hsh.
  cbn [fst snd] in Hsh.
  exact (map_forallb_lookup (f k sh) (sh_edges sh) Hsh c t Hc).
Qed.

Section Targets.
Context {rng : Type} `{!PyRuntime rng} `{!PyText}.

(** C2 (amended). In the node mapping that node construction produces,
    whatever the world state and the random source: the keys are the ten
    node ids; an ending node has no choices; and the target of every choice
    either is a key of the mapping or is one of the ten ids [retreat],
    [touch_rune], [get_map], [help_local], [search_area], [force_arch],
    [make_camp], [hidden_depths], [return_later], [call_dark], which are
    no keys and are targets of the omen, the ally, the onward node and the
    hidden path only. *)
Theorem choice_targets (st : StoryState) (g : rng) :
  ∃ ns g',
    _build_nodes st g = (Ret ns, g')
    ∧ dom ns = dom story_graph
    ∧ (∀ t, t ∈ unwritten_targets -> ns !! t = None)
    ∧ (∀ k n, ns !! k = Some n -> is_ending n = true -> choices n = ∅)
    ∧ (∀ k n c label target,
         ns !! k = Some n -> choices n !! c = Some (label, target) ->
         is_ending n = false
         ∧ ((is_Some (ns !! target) ∧ target ∉ unwritten_targets)
            ∨ (ns !! target = None ∧ target ∈ unwritten_targets
               ∧ k ∈ ["omen"; "ally"; "onward"; "hidden_path"])))
    ∧ (∀ k n c label target,
         k ∈ ["opening"; "study_runes"; "climax"] ->
         ns !! k = Some n -> choices n !! c = Some (label, target) ->
         is_Some (ns !! target)).
Proof.
  destruct (build_nodes_returns st g) as (ns & g' & Hb & Hsh).
  exists ns, g'. split; [done|].
  assert (Hlook : ∀ k, story_graph !! k = shape_of <$> ns !! k).
  { intros k. by rewrite <- Hsh, lookup_fmap. }
  assert (Hsome : ∀ k, is_Some (ns !! k) ↔ is_Some (story_graph !! k)).
  { intros k. by rewrite Hlook, fmap_is_Some. }
  assert (Hnone : ∀ k, ns !! k = None ↔ story_graph !! k = None).
  { intros k. by rewrite Hlook, fmap_None. }
  assert (Hedge : ∀ k n c label target,
    ns !! k = Some n -> choices n !! c = Some (label, target) ->
    story_graph !! k = Some (shape_of n) ∧ sh_edges (shape_of n) !! c = Some target).
  { intros k n c label target Hk Hc. rewrite Hlook, Hk. split; [done|].
    unfold shape_of. cbn. by rewrite lookup_fmap, Hc. }
  pose (absent := fun t : string =>
    match story_graph !! t with Some _ => false | None => true end).
  pose (listed := fun t : string => bool_decide (t ∈ unwritten_targets)).
  pose (branching := fun k : string =>
    bool_decide (k ∈ ["omen"; "ally"; "onward"; "hidden_path"])).
  pose (closed := fun k : string =>
    bool_decide (k ∈ ["opening"; "study_runes"; "climax"])).
  assert (Habsent : ∀ t, absent t = true ↔ story_graph !! t = None).
  { intros t. unfold absent. by destruct (story_graph !! t). }
  split; [by rewrite <- Hsh, dom_fmap_L|]. split; [|split; [|split]].
  - intros t Ht. apply Hnone.
    repeat (apply elem_of_cons in Ht as [->|Ht]; [reflexivity|]).
    by apply elem_of_nil in Ht.
  - intros k n Hk Hend.
    assert (Hsk : story_graph !! k = Some (shape_of n)) by (by rewrite Hlook, Hk).
    pose (f := fun (_ : string) (sh : Shape) =>
      implb (sh_ending sh)
            (match map_to_list (sh_edges sh) with [] => true | _ => false end)).
    assert (Hall : forallb (fun ksh => f ksh.1 ksh.2) (map_to_list story_graph) = true)
      by (vm_compute; reflexivity).
    pose proof (map_forallb_lookup f story_graph Hall k _ Hsk) as Hempty.
    unfold f in Hempty. cbn [sh_ending sh_edges shape_of] in Hempty.
    rewrite Hend in Hempty. cbn [implb] in Hempty.
    destruct (map_to_list (snd <$> choices n)) eqn:Hl; [|done].
    apply map_to_list_empty_iff in Hl. by apply fmap_empty_inv in Hl.
  - intros k n c label target Hk Hc.
    destruct (Hedge k n c label target Hk Hc) as [Hsk Hsc].
    pose (f := fun (k : string) (sh : Shape) (_ t : string) =>
      negb (sh_ending sh)
      && (if listed t then absent t && branching k else negb (absent t))).
    assert (Hall : forallb (fun ksh => forallb (fun ct => f ksh.1 ksh.2 ct.1 ct.2)
                                          (map_to_list (sh_edges ksh.2)))
                     (map_to_list story_graph) = true)
      by (vm_compute; reflexivity).
    pose proof (graph_edge_cases f story_graph Hall k _ c target Hsk Hsc) as Hcheck.
    unfold f in Hcheck. cbn [sh_ending shape_of] in Hcheck.
    apply andb_true_iff in Hcheck as [Hend Htarget].
    split; [by apply negb_true_iff in Hend|].
    unfold listed, branching in Htarget. rewrite Hsome, Hnone.
    case_bool_decide as Hlisted.
    + right. apply andb_true_iff in Htarget as [Habs Hk'].
      apply Habsent in Habs. apply bool_decide_eq_true in Hk'.
      split; [exact Habs|]. split; [exact Hlisted|exact Hk'].
    + left. split; [|exact Hlisted]. apply negb_true_iff in Htarget.
      destruct (story_graph !! target) as [sh|] eqn:Ht; [by exists sh|].
      apply Habsent in Ht. rewrite Ht in Htarget. discriminate Htarget.
  - intros k n c label target Hin Hk Hc.
    destruct (Hedge k n c label target Hk Hc) as [Hsk Hsc].
    pose (f := fun (k : string) (_ : Shape) (_ t : string) =>
      implb (closed k) (negb (absent t))).
    assert (Hall : forallb (fun ksh => forallb (fun ct => f ksh.1 ksh.2 ct.1 ct.2)
                                          (map_to_list (sh_edges ksh.2)))
                     (map_to_list story_graph) = true)
      by (vm_compute; reflexivity).
    pose proof (graph_edge_cases f story_graph Hall k _ c target Hsk Hsc) as Hcheck.
    unfold f, closed in Hcheck. rewrite bool_decide_eq_true_2 in Hcheck by done.
    cbn [implb] in Hcheck. apply negb_true_iff in Hcheck.
    apply Hsome. destruct (story_graph !! target) as [sh|] eqn:Ht; [by exists sh|].
    apply Habsent in Ht. rewrite Ht in Hcheck. discriminate Hcheck.
Qed.

End Targets.

(** The omen offers a retreat, and no node is generated for it. *)
Lemma omen_retreat_unwritten :
  (_build_nodes (demo_state ∅) tt).1 = Ret demo_nodes ∧ ¬ targets_closed demo_nodes.
Proof.
  split; [reflexivity|]. intros Hclosed.
  destruct (demo_nodes !! "omen") as [n|] eqn:Hn; [|by vm_compute in Hn].
  assert (Hch : choices n !! "B" = Some ("Mark the site and retreat for now", "retreat")).
  { vm_compute in Hn. injection Hn as <-. reflexivity. }
  destruct (Hclosed "omen" n "B" _ "retreat" Hn Hch) as [x Hx].
  vm_compute in Hx. discriminate Hx.
Qed.

(** ** Commands *)

Section Commands.
Context {rng : Type} `{!PyRuntime rng} `{!PyText}.
Implicit Types (w : World rng) (e : StoryEngine rng).

Lemma handle_command_cases cmd w :
  _handle_command cmd w =
    match PyStr.split cmd with
    | [] => (Ret tt, w)
    | head :: args =>
        if String.eqb head "rewrite"
        then rewrite_ending (match args with style :: _ => style | [] => "twist" end) w
        else if String.eqb head "restart" then (prompt_for_seeds ≫= restart_with) w
        else if String.eqb head "quit" then (Raise (SystemExit 0), w)
        else (Ret tt, w)
    end.
Proof.
  unfold _handle_command. destruct (PyStr.split cmd) as [|head args]; [done|].
  destruct (String.eqb_spec head "help") as [->|]; [done|].
  destruct (String.eqb_spec head "state") as [->|]; [done|].
  destruct (String.eqb_spec head "inv") as [->|]; [done|].
  destruct (String.eqb head "rewrite"); [done|].
  destruct (String.eqb head "restart"); [done|].
  destruct (String.eqb_spec head "seeds") as [->|]; [done|].
  by destruct (String.eqb head "quit").
Qed.

Lemma prompt_for_seeds_run w l1 l2 l3 l4 rest :
  stdin w = l1 :: l2 :: l3 :: l4 :: rest ->
  ∃ st, prompt_for_seeds w = (Ret st, mkWorld (engine w) rest)
    ∧ genre st = str_or (PyStr.strip l1) "fantasy"
    ∧ tone st = str_or (PyStr.strip l2) "whimsical"
    ∧ protagonist st = str_or (PyStr.strip l3) "Ari"
    ∧ companion st = str_or (PyStr.strip l4) "Rook"
    ∧ world_seed st =
        Z.abs (py_hash (genre st +:+ "|" +:+ tone st +:+ "|" +:+ protagonist st
                        +:+ "|" +:+ companion st)) mod (2 ^ 31 - 1)
    ∧ inventory st = [] ∧ flags st = ∅.
Proof.
  intros Hin. destruct w as [e lines]. cbn in Hin. subst lines.
  eexists. split; [reflexivity|]. by repeat split.
Qed.

Lemma prompt_for_seeds_short w :
  (length (stdin w) < 4)%nat ->
  prompt_for_seeds w = (Raise EOFError, mkWorld (engine w) []).
Proof.
  intros Hlen. destruct w as [e lines]. cbn in Hlen.
  destruct lines as [|l1 [|l2 [|l3 [|l4 rest]]]]; try reflexivity.
  cbn in Hlen. lia.
Qed.

Lemma command_head_split raw :
  command_head raw = head (PyStr.split (PyStr.tail (PyStr.strip raw))).
Proof. reflexivity. Qed.

(** A command whose first word is none of [rewrite], [restart], [quit]. *)
Lemma step_quiet_run w raw n :
  nodes (engine w) !! current_id (engine w) = Some n ->
  is_command raw = true ->
  command_head raw ∉ [Some "rewrite"; Some "restart"; Some "quit"] ->
  step raw w = (Ret (Some n), w).
Proof.
  intros Hn Hc Hhead. rewrite (step_command w raw n Hn Hc).
  unfold mbind, comp_mbind, comp_bind. rewrite handle_command_cases.
  unfold command_head in Hhead.
  destruct (PyStr.split (PyStr.tail (PyStr.strip raw))) as [|head args].
  { by rewrite (fmap_run _ _ _ _ _ (get_current_node_run w n Hn)). }
  cbn [List.head] in Hhead.
  destruct (String.eqb_spec head "rewrite") as [->|]; [exfalso; apply Hhead; compute_done|].
  destruct (String.eqb_spec head "restart") as [->|]; [exfalso; apply Hhead; compute_done|].
  destruct (String.eqb_spec head "quit") as [->|]; [exfalso; apply Hhead; compute_done|].
  by rewrite (fmap_run _ _ _ _ _ (get_current_node_run w n Hn)).
Qed.

Lemma step_rewrite_run w raw n :
  nodes (engine w) !! current_id (engine w) = Some n ->
  is_command raw = true ->
  command_head raw = Some "rewrite" ->
  step raw w =
    (Ret (Some (generate_ending (state (engine w)) (style_key_of (command_style raw)))),
     (rewrite_ending (command_style raw) w).2).
Proof.
  intros Hn Hc Hhead. rewrite (step_command w raw n Hn Hc).
  unfold mbind, comp_mbind, comp_bind. rewrite handle_command_cases.
  unfold command_head, command_style in *.
  destruct (PyStr.split (PyStr.tail (PyStr.strip raw))) as [|head args]; [done|].
  cbn [List.head] in Hhead. injection Hhead as ->. cbn [String.eqb Ascii.eqb Bool.eqb].
  set (style := match args with style :: _ => style | [] => "twist" end).
  assert (Hstyle : match args with _ :: _ => style | [] => "twist" end = style)
    by (by destruct args).
  replace (match args with style0 :: _ => style0 | [] => "twist" end) with style
    by (by destruct args).
  rewrite rewrite_ending_run. cbn [snd].
  erewrite fmap_run; [reflexivity|].
  apply get_current_node_run. cbn. by rewrite lookup_insert_eq.
Qed.

Lemma step_quit_run w raw n :
  nodes (engine w) !! current_id (engine w) = Some n ->
  is_command raw = true ->
  command_head raw = Some "quit" ->
  step raw w = (Raise (SystemExit 0), w).
Proof.
  intros Hn Hc Hhead. rewrite (step_command w raw n Hn Hc).
  unfold mbind, comp_mbind, comp_bind. rewrite handle_command_cases.
  unfold command_head in Hhead.
  destruct (PyStr.split (PyStr.tail (PyStr.strip raw))) as [|head args]; [done|].
  cbn [List.head] in Hhead. by injection Hhead as ->.
Qed.

Lemma step_restart_run w raw n l1 l2 l3 l4 rest :
  nodes (engine w) !! current_id (engine w) = Some n ->
  is_command raw = true ->
  command_head raw = Some "restart" ->
  stdin w = l1 :: l2 :: l3 :: l4 :: rest ->
  ∃ st e opening,
    prompt_for_seeds w = (Ret st, mkWorld (engine w) rest)
    ∧ new_engine st = Ret e
    ∧ nodes e !! "opening" = Some opening
    ∧ step raw w = (Ret (Some opening), mkWorld e rest).
Proof.
  intros Hn Hc Hhead Hin.
  destruct (prompt_for_seeds_run w l1 l2 l3 l4 rest Hin) as (st & Hp & _).
  destruct (restart_with_run st (mkWorld (engine w) rest)) as (ns & g' & Hb & Hr).
  assert (Hnew : new_engine st = Ret (mkEngine st g' ns "opening")).
  { unfold new_engine. by rewrite Hb. }
  destruct (new_engine_ok st _ Hnew) as [[_ [opening Hop]] _]. cbn in Hop.
  exists st, (mkEngine st g' ns "opening"), opening.
  repeat (split; [done|]).
  rewrite (step_command w raw n Hn Hc).
  unfold mbind, comp_mbind, comp_bind. rewrite handle_command_cases.
  unfold command_head in Hhead.
  destruct (PyStr.split (PyStr.tail (PyStr.strip raw))) as [|head args]; [done|].
  cbn [List.head] in Hhead. injection Hhead as ->. cbn [String.eqb Ascii.eqb Bool.eqb].
  unfold mbind, comp_mbind, comp_bind. rewrite Hp, Hr. cbn [stdin].
  by rewrite (fmap_run _ _ _ _ _
    (get_current_node_run (mkWorld (mkEngine st g' ns "opening") rest) opening Hop)).
Qed.

Lemma step_restart_short w raw n :
  nodes (engine w) !! current_id (engine w) = Some n ->
  is_command raw = true ->
  command_head raw = Some "restart" ->
  (length (stdin w) < 4)%nat ->
  step raw w = (Raise EOFError, mkWorld (engine w) []).
Proof.
  intros Hn Hc Hhead Hlen. rewrite (step_command w raw n Hn Hc).
  unfold mbind, comp_mbind, comp_bind. rewrite handle_command_cases.
  unfold command_head in Hhead.
  destruct (PyStr.split (PyStr.tail (PyStr.strip raw))) as [|head args]; [done|].
  cbn [List.head] in Hhead. injection Hhead as ->. cbn [String.eqb Ascii.eqb Bool.eqb].
  unfold mbind, comp_mbind, comp_bind. by rewrite (prompt_for_seeds_short w Hlen).
Qed.

End Commands.
(** ** What [step] returns, raises and leaves alone *)

Section StepOutcomes.
Context {rng : Type} `{!PyRuntime rng} `{!PyText}.
Implicit Types (w : World rng) (e : StoryEngine rng).

Lemma command_head_cases raw :
  command_head raw = Some "rewrite" ∨ command_head raw = Some "restart"
  ∨ command_head raw = Some "quit"
  ∨ command_head raw ∉ [Some "rewrite"; Some "restart"; Some "quit"].
Proof.
  destruct (decide (command_head raw ∈ [Some "rewrite"; Some "restart"; Some "quit"]))
    as [Hin|Hout]; [|by do 3 right].
  repeat (apply elem_of_cons in Hin as [->|Hin]; [auto|]).
  by apply elem_of_nil in Hin.
Qed.

Lemma stdin_cases w :
  (length (stdin w) < 4)%nat
  ∨ ∃ l1 l2 l3 l4 rest, stdin w = l1 :: l2 :: l3 :: l4 :: rest.
Proof.
  destruct (stdin w) as [|l1 [|l2 [|l3 [|l4 rest]]]]; cbn; try (left; lia).
  right. by exists l1, l2, l3, l4, rest.
Qed.

Lemma same_story_refl w : same_story w w.
Proof. by repeat split. Qed.

Lemma same_story_trans w1 w2 w3 : same_story w1 w2 -> same_story w2 w3 -> same_story w1 w3.
Proof. unfold same_story. intros H12 H23. destruct_and!. repeat split; congruence. Qed.

Lemma same_story_flags f w : same_story w (with_flags f w).
Proof. by repeat split. Qed.

Lemma same_story_item x w : same_story w (with_item x w).
Proof. by repeat split. Qed.

Lemma same_story_current k w : same_story w (with_current_id k w).
Proof. by repeat split. Qed.

Lemma same_story_side_effects nid c w : same_story w (_apply_side_effects nid c w).2.
Proof. rewrite side_effects_run. cbn [snd]. repeat case_match; by repeat split. Qed.

Lemma same_story_studied node raw w : same_story w (studied node raw w).
Proof. unfold studied. case_match; by repeat split. Qed.

(** The world a generic choice transition ends in, whichever way the funnel
    goes. *)
Lemma generic_choice_world w raw node label target :
  engine_ok (engine w) ->
  generic_choice w raw node label target ->
  let w1 := (_apply_side_effects (node_id node) (str_upper (PyStr.strip raw))
               (studied node raw w)).2 in
  let w2 := with_flags (flag_incr "steps") (with_current_id target w1) in
  ∃ n, nodes (engine w) !! current_id (engine (step raw w).2) = Some n
    ∧ step raw w = (Ret (Some n), (step raw w).2)
    ∧ ((step raw w).2 = w2 ∨ (step raw w).2 = with_current_id "climax" w2).
Proof.
  intros Hok Hg w1 w2.
  destruct (engine_ok_climax _ Hok) as [climax Hcl].
  rewrite (generic_choice_run w raw node label target climax Hg Hcl).
  fold w1. fold w2.
  destruct (nodes (engine w) !! target) as [tn|] eqn:Ht.
  - destruct (funnel_test tn _).
    + exists climax. cbn. by repeat split; [|right].
    + exists tn. cbn. by repeat split; [|left].
  - exists climax. cbn. by repeat split; [|right].
Qed.

(** What [step] raises, and when. *)
Lemma step_raise_cases w raw ex w' :
  engine_ok (engine w) ->
  step raw w = (Raise ex, w') ->
  is_command raw = true
  ∧ ((ex = SystemExit 0 ∧ w' = w ∧ command_head raw = Some "quit")
     ∨ (ex = EOFError ∧ w' = mkWorld (engine w) []
        ∧ command_head raw = Some "restart" ∧ (length (stdin w) < 4)%nat)).
Proof.
  intros Hok Hstep.
  destruct (step_cases w raw Hok) as (node & Hn & Hcases).
  destruct Hcases as
    [[Hc _]|[(_ & _ & hp & _ & Hs)|[(_ & _ & _ & _ & hp & _ & Hs)
      |[(label & target & Hg)|(_ & _ & _ & _ & Hs)]]]];
    try (rewrite Hs in Hstep; discriminate Hstep).
  - split; [done|].
    destruct (command_head_cases raw) as [Hh|[Hh|[Hh|Hh]]].
    + rewrite (step_rewrite_run w raw node Hn Hc Hh) in Hstep. discriminate Hstep.
    + destruct (stdin_cases w) as [Hlen|(l1 & l2 & l3 & l4 & rest & Hin)].
      * rewrite (step_restart_short w raw node Hn Hc Hh Hlen) in Hstep.
        injection Hstep as <- <-. by right.
      * destruct (step_restart_run w raw node _ _ _ _ _ Hn Hc Hh Hin)
          as (st & e & op & _ & _ & _ & Hs).
        rewrite Hs in Hstep. discriminate Hstep.
    + rewrite (step_quit_run w raw node Hn Hc Hh) in Hstep.
      injection Hstep as <- <-. by left.
    + rewrite (step_quiet_run w raw node Hn Hc Hh) in Hstep. discriminate Hstep.
  - destruct (generic_choice_world w raw node label target Hok Hg) as (n & _ & Hs & _).
    rewrite Hs in Hstep. discriminate Hstep.
Qed.

(** X1. On an engine with a sound node mapping, [step] raises in two cases
    only: [SystemExit(0)] for a [quit] command, the world untouched, and
    [EOFError] for a [restart] command with fewer than four lines of input
    left, the engine untouched and the input used up.  It never raises a
    [KeyError]. *)
Theorem step_raises w raw ex w' :
  engine_ok (engine w) ->
  step raw w = (Raise ex, w') ->
  is_command raw = true
  ∧ ((ex = SystemExit 0 ∧ w' = w ∧ command_head raw = Some "quit")
     ∨ (ex = EOFError ∧ w' = mkWorld (engine w) []
        ∧ command_head raw = Some "restart" ∧ (length (stdin w) < 4)%nat))
  ∧ (∀ k, step raw w ≠ (Raise (KeyError k), w'))
  ∧ engine_ok (engine w').
Proof.
  intros Hok Hstep.
  destruct (step_raise_cases w raw ex w' Hok Hstep) as [Hc Hcases].
  split; [exact Hc|]. split; [exact Hcases|]. split.
  - intros k Hk. rewrite Hstep in Hk.
    destruct Hcases as [(-> & _)|(-> & _)]; discriminate Hk.
  - pose proof (step_ok raw w Hok) as Hok'. by rewrite Hstep in Hok'.
Qed.

(** X2. When [step] returns a node, it is the node the pointer is on after
    the call: the caller may render either. *)
Theorem step_returns_current_node w raw n w' :
  engine_ok (engine w) ->
  step raw w = (Ret (Some n), w') ->
  get_current_node w' = (Ret n, w').
Proof.
  intros Hok Hstep. apply get_current_node_run.
  destruct (step_cases w raw Hok) as (node & Hn & Hcases).
  destruct Hcases as
    [[Hc _]|[(_ & _ & hp & Hhp & Hs)|[(_ & _ & _ & _ & hp & Hhp & Hs)
      |[(label & target & Hg)|(_ & _ & _ & _ & Hs)]]]].
  - destruct (command_head_cases raw) as [Hh|[Hh|[Hh|Hh]]].
    + rewrite (step_rewrite_run w raw node Hn Hc Hh), rewrite_ending_run in Hstep.
      injection Hstep as <- <-. cbn. by rewrite lookup_insert_eq.
    + destruct (stdin_cases w) as [Hlen|(l1 & l2 & l3 & l4 & rest & Hin)].
      * rewrite (step_restart_short w raw node Hn Hc Hh Hlen) in Hstep.
        discriminate Hstep.
      * destruct (step_restart_run w raw node _ _ _ _ _ Hn Hc Hh Hin)
          as (st & e & op & _ & Hnew & Hop & Hs).
        rewrite Hs in Hstep. injection Hstep as <- <-. cbn.
        destruct (new_engine_ok st e Hnew) as [_ ->]. done.
    + rewrite (step_quit_run w raw node Hn Hc Hh) in Hstep. discriminate Hstep.
    + rewrite (step_quiet_run w raw node Hn Hc Hh) in Hstep.
      by injection Hstep as <- <-.
  - rewrite Hs in Hstep. by injection Hstep as <- <-.
  - rewrite Hs in Hstep. by injection Hstep as <- <-.
  - destruct (generic_choice_world w raw node label target Hok Hg)
      as (n' & Hn' & Hs & Hw).
    rewrite Hs in Hstep. injection Hstep as <- Hw'. rewrite <- Hw'.
    destruct Hw as [Hw|Hw]; rewrite Hw in Hn' |- *; cbn in *.
    all: rewrite (proj1 (side_effects_frame _ _ _)), (proj1 (studied_frame _ _ _)); done.
  - rewrite Hs in Hstep. discriminate Hstep.
Qed.

(** X3. [step] returns [None] only for an input it does not understand, and
    then nothing has changed: the input is no command, not the secret
    keyword and no choice of the current node, and the world is the one
    before the call. *)
Theorem step_none_only_unrecognized w raw w' :
  engine_ok (engine w) ->
  step raw w = (Ret None, w') ->
  w' = w
  ∧ is_command raw = false
  ∧ is_secret raw = false
  ∧ ∃ node, nodes (engine w) !! current_id (engine w) = Some node
      ∧ choices node !! str_upper (PyStr.strip raw) = None.
Proof.
  intros Hok Hstep.
  destruct (step_cases w raw Hok) as (node & Hn & Hcases).
  destruct Hcases as
    [[Hc _]|[(_ & _ & hp & Hhp & Hs)|[(_ & _ & _ & _ & hp & Hhp & Hs)
      |[(label & target & Hg)|(Hc & Hsec & _ & Hch & Hs)]]]];
    try (rewrite Hs in Hstep; discriminate Hstep).
  - destruct (command_head_cases raw) as [Hh|[Hh|[Hh|Hh]]].
    + rewrite (step_rewrite_run w raw node Hn Hc Hh) in Hstep. discriminate Hstep.
    + destruct (stdin_cases w) as [Hlen|(l1 & l2 & l3 & l4 & rest & Hin)].
      * rewrite (step_restart_short w raw node Hn Hc Hh Hlen) in Hstep.
        discriminate Hstep.
      * destruct (step_restart_run w raw node _ _ _ _ _ Hn Hc Hh Hin)
          as (st & e & op & _ & _ & _ & Hs).
        rewrite Hs in Hstep. discriminate Hstep.
    + rewrite (step_quit_run w raw node Hn Hc Hh) in Hstep. discriminate Hstep.
    + rewrite (step_quiet_run w raw node Hn Hc Hh) in Hstep. discriminate Hstep.
  - destruct (generic_choice_world w raw node label target Hok Hg) as (n & _ & Hs & _).
    rewrite Hs in Hstep. discriminate Hstep.
  - rewrite Hs in Hstep. injection Hstep as <-. repeat split; try done. by exists node.
Qed.

(** X4. An input that is no command never touches the story: after [step]
    the node mapping, the random source, the pending input and the seeds of
    the world state are as before, and the inventory is the one before with
    at most one item put at its end. *)
Theorem narrative_input_frame w raw :
  engine_ok (engine w) ->
  is_command raw = false ->
  same_story w (step raw w).2
  ∧ ∃ items, inventory (state (engine (step raw w).2))
             = (inventory (state (engine w)) ++ items)%list
      ∧ (length items <= 1)%nat.
Proof.
  intros Hok Hc.
  destruct (step_cases w raw Hok) as (node & Hn & Hcases).
  destruct Hcases as
    [[Hc' _]|[(_ & _ & hp & Hhp & Hs)|[(_ & _ & _ & _ & hp & Hhp & Hs)
      |[(label & target & Hg)|(_ & _ & _ & _ & Hs)]]]];
    [congruence| | | |]; try rewrite Hs; cbn [snd].
  - split; [by repeat split|]. exists []. cbn. split; [by rewrite app_nil_r|lia].
  - split; [by repeat split|]. exists []. cbn. split; [by rewrite app_nil_r|lia].
  - destruct (generic_choice_world w raw node label target Hok Hg) as (n & _ & _ & Hw).
    set (w1 := (_apply_side_effects _ _ _).2) in Hw.
    assert (Hstory : same_story w w1).
    { eapply same_story_trans; [apply (same_story_studied node raw)|].
      apply same_story_side_effects. }
    assert (Hinv : ∃ items, inventory (state (engine w1))
                            = (inventory (state (engine w)) ++ items)%list
                     ∧ (length items <= 1)%nat).
    { unfold w1. rewrite side_effects_inventory.
      rewrite (proj2 (proj2 (studied_frame node raw w))).
      eexists. split; [reflexivity|]. repeat case_match; cbn; lia. }
    clearbody w1.
    destruct Hw as [-> | ->]; (split; [|exact Hinv]).
    + eapply same_story_trans; [exact Hstory|]. by repeat split.
    + eapply same_story_trans; [exact Hstory|]. by repeat split.
  - split; [apply same_story_refl|]. exists []. cbn. split; [by rewrite app_nil_r|lia].
Qed.

(** X5. With the pointer on no node of the mapping every call of [step]
    fails with [KeyError] on the pointer before it looks at its input, a
    [quit] command included, and changes nothing. *)
Theorem step_on_dangling_pointer w raw :
  nodes (engine w) !! current_id (engine w) = None ->
  step raw w = (Raise (KeyError (current_id (engine w))), w).
Proof.
  intros Hnone. unfold step.
  by rewrite (bind_run_raise _ _ _ _ _ (get_current_node_fails w Hnone)).
Qed.

End StepOutcomes.
(** ** Padding of the input *)
(** ** Rewriting an ending *)

Section Endings.
Context {rng : Type} `{!PyRuntime rng} `{!PyText}.
Implicit Types (w : World rng) (e : StoryEngine rng).

Lemma generate_ending_names st st' s :
  protagonist st' = protagonist st -> companion st' = companion st ->
  generate_ending st' s = generate_ending st s.
Proof. intros Hp Hc. unfold generate_ending. by rewrite Hp, Hc. Qed.

Lemma endings_fresh_same_story w w' :
  same_story w w' -> endings_fresh (engine w) -> endings_fresh (engine w').
Proof.
  intros (Hns & _ & _ & _ & _ & Hp & Hc & _) Hfresh s Hs.
  rewrite Hns, (Hfresh s Hs). f_equal. symmetry. by apply generate_ending_names.
Qed.

Lemma build_nodes_endings st (g : rng) ns g' :
  _build_nodes st g = (Ret ns, g') ->
  ∀ s, s ∈ ["hopeful"; "tragic"; "twist"] ->
    ns !! ("ending_" +:+ s) = Some (generate_ending st s).
Proof.
  unfold _build_nodes, generate_opening, generate_omen, generate_study_runes,
    generate_ally, generate_onward, generate_hidden_path, generate_climax,
    _inciting_incident, _mysterious_clue, _terrain, _antagonistic_force.
  rewrite !bind_assoc_run.
  destruct (world_description_returns st g) as (x0 & g0 & Hrun).
  rewrite (bind_run _ _ _ _ _ Hrun). clear Hrun.
  repeat first
    [ rewrite ret_bind_run
    | rewrite bind_assoc_run
    | match goal with |- context [(rand_choice ?l ≫= _) ?g1] =>
        let Hrun := fresh "Hrun" in
        destruct (rand_choice_returns l g1 ltac:(done)) as (? & ? & Hrun);
        rewrite (bind_run _ _ _ _ _ Hrun); clear Hrun end
    | match goal with |- context [(_ally_name ≫= _) ?g1] =>
        let Hrun := fresh "Hrun" in
        destruct (ally_name_returns g1) as (? & ? & Hrun);
        rewrite (bind_run _ _ _ _ _ Hrun); clear Hrun end ].
  intros [= <- _] s Hs.
  repeat (apply elem_of_cons in Hs as [->|Hs]; [vm_compute; reflexivity|]).
  by apply elem_of_nil in Hs.
Qed.

Lemma new_engine_fresh st e : new_engine st = Ret e -> endings_fresh e.
Proof.
  unfold new_engine.
  destruct (_build_nodes st (rng_seed (world_seed st))) as [[ns|ex] g'] eqn:Hb; [|done].
  intros [= <-]. exact (build_nodes_endings st _ ns g' Hb).
Qed.

Lemma rewrite_ending_keeps w style :
  endings_fresh (engine w) ->
  (rewrite_ending style w).2 = with_current_id ("ending_" +:+ style_key_of style) w.
Proof.
  intros Hfresh. rewrite rewrite_ending_run. cbn [snd].
  destruct w as [[st g ns cur] lines]. cbn in *.
  unfold with_current_id, on_engine, set_current_id, set_nodes. cbn.
  rewrite insert_id; [done|]. apply (Hfresh _ (style_key_of_cases style)).
Qed.

Lemma step_fresh raw w :
  engine_ok (engine w) -> endings_fresh (engine w) ->
  endings_fresh (engine (step raw w).2).
Proof.
  intros Hok Hfresh.
  destruct (step_cases w raw Hok) as (node & Hn & Hcases).
  destruct Hcases as
    [[Hc _]|[(_ & _ & hp & Hhp & Hs)|[(_ & _ & _ & _ & hp & Hhp & Hs)
      |[(label & target & Hg)|(_ & _ & _ & _ & Hs)]]]].
  - destruct (command_head_cases raw) as [Hh|[Hh|[Hh|Hh]]].
    + rewrite (step_rewrite_run w raw node Hn Hc Hh). cbn [snd].
      rewrite (rewrite_ending_keeps w _ Hfresh).
      apply (endings_fresh_same_story w); [apply same_story_current|done].
    + destruct (stdin_cases w) as [Hlen|(l1 & l2 & l3 & l4 & rest & Hin)].
      * by rewrite (step_restart_short w raw node Hn Hc Hh Hlen).
      * destruct (step_restart_run w raw node _ _ _ _ _ Hn Hc Hh Hin)
          as (st & e & op & _ & Hnew & _ & ->).
        by apply (new_engine_fresh st).
    + by rewrite (step_quit_run w raw node Hn Hc Hh).
    + by rewrite (step_quiet_run w raw node Hn Hc Hh).
  - rewrite Hs. cbn [snd]. apply (endings_fresh_same_story w); [|done]. by repeat split.
  - rewrite Hs. cbn [snd]. apply (endings_fresh_same_story w); [|done]. by repeat split.
  - destruct (generic_choice_world w raw node label target Hok Hg) as (n & _ & _ & Hw).
    apply (endings_fresh_same_story w); [|done].
    set (w1 := (_apply_side_effects _ _ _).2) in Hw.
    assert (Hstory : same_story w w1).
    { eapply same_story_trans; [apply (same_story_studied node raw)|].
      apply same_story_side_effects. }
    clearbody w1.
    destruct Hw as [-> | ->]; (eapply same_story_trans; [exact Hstory|]); by repeat split.
  - by rewrite Hs.
Qed.

Lemma reachable_fresh w : reachable w -> endings_fresh (engine w).
Proof.
  induction 1 as [st e lines Hnew|w raw Hr IH|w style Hr IH|w st Hr IH|w lines Hr IH].
  - by apply (new_engine_fresh st).
  - apply step_fresh; [by apply reachable_ok|done].
  - rewrite (rewrite_ending_keeps w _ IH).
    apply (endings_fresh_same_story w); [apply same_story_current|done].
  - destruct (restart_with_run st w) as (ns & g' & Hb & ->). cbn.
    apply (new_engine_fresh st). unfold new_engine. by rewrite Hb.
  - done.
Qed.

(** X6. In a world the program reaches, [rewrite_ending] changes the pointer
    and nothing else: the ending it generates is the ending already stored,
    since an ending depends on the two names of the world state and on the
    style alone. *)
Theorem rewrite_ending_moves_pointer_only w style :
  reachable w ->
  (rewrite_ending style w).2 = with_current_id ("ending_" +:+ style_key_of style) w
  ∧ nodes (engine (rewrite_ending style w).2) = nodes (engine w).
Proof.
  intros Hr. rewrite (rewrite_ending_keeps w style (reachable_fresh w Hr)). done.
Qed.

(** X7. [restart_with] gives the engine that [StoryEngine(new_state)] would
    construct, whatever the engine was before; the pending input stays. *)
Theorem restart_is_fresh_construction st w :
  ∃ e, new_engine st = Ret e
    ∧ restart_with st w = (Ret tt, mkWorld e (stdin w))
    ∧ current_id e = "opening"
    ∧ state e = st.
Proof.
  destruct (restart_with_run st w) as (ns & g' & Hb & Hr).
  exists (mkEngine st g' ns "opening"). unfold new_engine. rewrite Hb. done.
Qed.

End Endings.
(** ** What a session keeps in the world state *)

Section Session.
Context {rng : Type} `{!PyRuntime rng} `{!PyText}.
Implicit Types (w : World rng) (e : StoryEngine rng).

Lemma in_session_reachable w : in_session w -> reachable w.
Proof. induction 1; by econstructor. Qed.

Lemma tidy_flag_incr k st :
  k ∈ flag_names -> tidy st -> tidy (set_flags (flag_incr k (flags st)) st).
Proof.
  intros Hk [Hfl Hinv]. split; [|done]. cbn. unfold flag_incr.
  apply map_Forall_insert_2; [|done]. split; [done|].
  unfold flag_get. destruct (flags st !! k) as [v|] eqn:Hv; cbn; [|lia].
  destruct (Hfl k v Hv). lia.
Qed.

Lemma tidy_flag_set k st :
  k ∈ flag_names -> tidy st -> tidy (set_flags (<[k := 1]> (flags st)) st).
Proof.
  intros Hk [Hfl Hinv]. split; [|done]. cbn.
  apply map_Forall_insert_2; [|done]. by split.
Qed.

Lemma tidy_item x st :
  x ∈ item_names -> tidy st -> tidy (set_inventory (inventory st ++ [x]) st).
Proof.
  intros Hx [Hfl Hinv]. split; [done|]. cbn.
  apply Forall_app. split; [done|]. by constructor.
Qed.

Lemma tidy_side_effects nid c w :
  tidy (state (engine w)) -> tidy (state (engine (_apply_side_effects nid c w).2)).
Proof.
  intros Ht. rewrite side_effects_run. cbn [snd].
  repeat case_match; try done; cbn.
  - apply (tidy_flag_set "map" (set_inventory _ _)); [compute_done|].
    apply tidy_item; [compute_done|done].
  - apply (tidy_flag_set "key" (set_inventory _ _)); [compute_done|].
    apply tidy_item; [compute_done|done].
  - apply (tidy_flag_set "reckless"); [compute_done|done].
  - apply (tidy_flag_set "wounded"); [compute_done|done].
Qed.

Lemma tidy_studied node raw w :
  tidy (state (engine w)) -> tidy (state (engine (studied node raw w))).
Proof.
  intros Ht. unfold studied. case_match; [|done].
  apply (tidy_flag_incr "studies"); [compute_done|done].
Qed.

Lemma session_tidy w : in_session w -> tidy (state (engine w)).
Proof.
  induction 1 as [st e lines Hfl Hinv Hnew|w raw Hs IH|w style Hs IH|w lines Hs IH].
  - unfold new_engine in Hnew.
    destruct (_build_nodes st _) as [[ns|ex] g']; [|done]. injection Hnew as <-.
    cbn. split; [rewrite Hfl; apply map_Forall_empty|rewrite Hinv; constructor].
  - pose proof (reachable_ok w (in_session_reachable w Hs)) as Hok.
    destruct (step_cases w raw Hok) as (node & Hn & Hcases).
    destruct Hcases as
      [[Hc _]|[(_ & _ & hp & Hhp & ->)|[(_ & _ & _ & _ & hp & Hhp & ->)
        |[(label & target & Hg)|(_ & _ & _ & _ & ->)]]]]; cbn [snd].
    + destruct (command_head_cases raw) as [Hh|[Hh|[Hh|Hh]]].
      * by rewrite (step_rewrite_run w raw node Hn Hc Hh).
      * destruct (stdin_cases w) as [Hlen|(l1 & l2 & l3 & l4 & rest & Hin)].
        -- by rewrite (step_restart_short w raw node Hn Hc Hh Hlen).
        -- destruct (step_restart_run w raw node _ _ _ _ _ Hn Hc Hh Hin)
             as (st & e & op & Hp & Hnew & _ & ->).
           destruct (prompt_for_seeds_run w _ _ _ _ _ Hin)
             as (st' & Hp' & _ & _ & _ & _ & _ & Hinv & Hfl).
           rewrite Hp in Hp'. injection Hp' as <-.
           unfold new_engine in Hnew.
           destruct (_build_nodes st _) as [[ns|ex] g']; [|done]. injection Hnew as <-.
           cbn. split; [rewrite Hfl; apply map_Forall_empty|rewrite Hinv; constructor].
      * by rewrite (step_quit_run w raw node Hn Hc Hh).
      * by rewrite (step_quiet_run w raw node Hn Hc Hh).
    + apply (tidy_flag_incr "secret"); [compute_done|done].
    + apply (tidy_flag_incr "studies"); [compute_done|done].
    + destruct (generic_choice_world w raw node label target Hok Hg) as (n & _ & _ & Hw).
      set (w1 := (_apply_side_effects _ _ _).2) in Hw.
      assert (Ht1 : tidy (state (engine w1))).
      { apply tidy_side_effects. by apply tidy_studied. }
      clearbody w1.
      destruct Hw as [-> | ->]; cbn;
        apply (tidy_flag_incr "steps" (state (engine w1))); (compute_done || done).
    + done.
  - by rewrite rewrite_ending_run.
  - done.
Qed.

(** X8. All through a session the world state holds only what the engine
    writes: every flag is one of secret, studies, steps, map, key, reckless,
    wounded and is at 1 or more, and every item is the cryptic map or the
    stone key.  No flag has the empty name, so the funnel's test on the
    flags is there the plain one: some key other than [steps]. *)
Theorem session_state_tidy w :
  in_session w ->
  let f := flags (state (engine w)) in
  (∀ k v, f !! k = Some v -> k ∈ flag_names ∧ 1 <= v)
  ∧ (∀ x, x ∈ inventory (state (engine w)) -> x ∈ item_names)
  ∧ f !! "" = None
  ∧ (any_other_flag f = true ↔ some_other_key f).
Proof.
  intros Hs f. destruct (session_tidy w Hs) as [Hfl Hinv]. fold f in Hfl.
  assert (Hempty : f !! "" = None).
  { destruct (f !! "") as [v|] eqn:Hv; [|done].
    destruct (Hfl "" v Hv) as [Hin _]. revert Hin. compute_done. }
  split; [exact Hfl|]. split; [|split; [done|]].
  - intros x Hx. by apply (proj1 (Forall_forall _ _) Hinv).
  - rewrite any_other_flag_spec. unfold some_other_key. split.
    + intros (k & ? & _ & ?). by exists k.
    + intros (k & ? & Hk). exists k. repeat split; try done.
      intros ->. rewrite Hempty in Hk. by destruct Hk.
Qed.

End Session.
(** ** The closest key on any mapping *)

(** X9. [_closest_key] on any mapping: with no key at all it raises
    [StopIteration]; with at least one key it returns a key of the mapping,
    and that key is the trimmed lower-cased argument whenever that is a
    key, even where an earlier key shares its first three characters. *)
Theorem closest_key_on_any_mapping `{!PyText} {V} (key : string) (mapping : list (string * V)) :
  (mapping = [] -> _closest_key key mapping = Raise StopIteration)
  ∧ (mapping ≠ [] -> ∃ r, _closest_key key mapping = Ret r ∧ r ∈ (mapping.*1))
  ∧ (str_lower (PyStr.strip key) ∈ (mapping.*1) ->
       _closest_key key mapping = Ret (str_lower (PyStr.strip key))).
Proof.
  split; [|split].
  - by intros ->.
  - intros Hne. destruct (closest_key_cases key mapping Hne) as (r & Hr & Hin & _).
    by exists r.
  - intros Hin. unfold _closest_key, alist_mem. by rewrite bool_decide_eq_true_2.
Qed.

Example closest_key_exact_beats_prefix :
  _closest_key " MYStery " [("mystic", 1%nat); ("mystery", 2%nat)] = Ret "mystery"
  ∧ _closest_key "mysterious" [("mystic", 1%nat); ("mystery", 2%nat)] = Ret "mystic".
Proof. by split. Qed.

(** ** The nodes as built *)

Section BuiltNodes.
Context {rng : Type} `{!PyRuntime rng} `{!PyText}.

(** X10. In the mapping [_build_nodes] returns, every node is stored under
    its own [node_id]; the endings are the nodes under the three
    [ending_] keys; every other node offers exactly the choices [A], [B]
    and [C]; and [hidden_path] is the one node tagged [hidden]. *)
Theorem built_nodes_well_formed (st : StoryState) (g : rng) :
  ∃ ns g',
    _build_nodes st g = (Ret ns, g')
    ∧ ∀ k n, ns !! k = Some n ->
        node_id n = k
        ∧ (is_ending n = true ↔ k ∈ ["ending_hopeful"; "ending_tragic"; "ending_twist"])
        ∧ (is_ending n = false ->
             size (choices n) = 3%nat
             ∧ ∀ c, c ∈ ["A"; "B"; "C"] -> is_Some (choices n !! c))
        ∧ ("hidden" ∈ tags n ↔ k = "hidden_path").
Proof.
  destruct (build_nodes_returns st g) as (ns & g' & Hb & Hsh).
  exists ns, g'. split; [done|]. intros k n Hk.
  assert (Hsk : story_graph !! k = Some (shape_of n)).
  { by rewrite <- Hsh, lookup_fmap, Hk. }
  pose (has := fun (sh : Shape) (c : string) =>
    match sh_edges sh !! c with Some _ => true | None => false end).
  pose (f := fun (k : string) (sh : Shape) =>
    String.eqb (sh_id sh) k
    && Bool.eqb (sh_ending sh)
         (bool_decide (k ∈ ["ending_hopeful"; "ending_tragic"; "ending_twist"]))
    && (sh_ending sh
        || (Nat.eqb (length (map_to_list (sh_edges sh))) 3
            && has sh "A" && has sh "B" && has sh "C"))
    && Bool.eqb (bool_decide ("hidden" ∈ sh_tags sh)) (String.eqb k "hidden_path")).
  assert (Hall : forallb (fun ksh => f ksh.1 ksh.2) (map_to_list story_graph) = true)
    by (vm_compute; reflexivity).
  pose proof (map_forallb_lookup f story_graph Hall k _ Hsk) as Hcheck.
  unfold f in Hcheck. cbn [sh_id sh_ending sh_tags shape_of] in Hcheck.
  clear Hall f Hsk Hsh Hb.
  apply andb_true_iff in Hcheck as [[[Hid Hend']%andb_true_iff Hch]%andb_true_iff Hhid].
  apply String.eqb_eq in Hid. apply Bool.eqb_prop in Hend', Hhid.
  split; [done|]. split; [|split].
  - rewrite Hend'. apply bool_decide_eq_true.
  - intros Hne. rewrite Hne in Hch. cbn [orb] in Hch.
    apply andb_true_iff in Hch as [[[Hsize HA']%andb_true_iff HB]%andb_true_iff HC].
    split.
    + apply Nat.eqb_eq in Hsize. cbn [sh_edges shape_of] in Hsize.
      rewrite length_map_to_list, map_size_fmap in Hsize. done.
    + intros c Hc. unfold has in *. cbn [sh_edges shape_of] in *.
      rewrite lookup_fmap in HA', HB, HC.
      repeat (apply elem_of_cons in Hc as [->|Hc];
        [match goal with |- is_Some (?m !! ?c) =>
           destruct (m !! c) as [x|]; [by exists x|discriminate] end|]).
      by apply elem_of_nil in Hc.
  - rewrite <- String.eqb_eq, <- Hhid. symmetry. apply bool_decide_eq_true.
Qed.

End BuiltNodes.

(** ** The way to the omen *)

(** No choice leads to the opening, and the one that leads to the omen is
    a choice of the opening. *)
Lemma graph_entries k sh c t :
  story_graph !! k = Some sh -> sh_edges sh !! c = Some t ->
  t ≠ "opening" ∧ (t = "omen" -> k = "opening").
Proof.
  intros Hk Hc.
  pose (f := fun (k : string) (_ : Shape) (_ t : string) =>
    negb (String.eqb t "opening")
    && implb (String.eqb t "omen") (String.eqb k "opening")).
  assert (Hall : forallb (fun ksh => forallb (fun ct => f ksh.1 ksh.2 ct.1 ct.2)
                                        (map_to_list (sh_edges ksh.2)))
                   (map_to_list story_graph) = true)
    by (vm_compute; reflexivity).
  pose proof (graph_edge_cases f story_graph Hall k sh c t Hk Hc) as Hcheck.
  unfold f in Hcheck. apply andb_true_iff in Hcheck as [Hop Hom]. split.
  - intros ->. discriminate Hop.
  - intros ->. cbn in Hom. by apply String.eqb_eq.
Qed.

Section Omen.
Context {rng : Type} `{!PyRuntime rng} `{!PyText}.
Implicit Types (w : World rng) (e : StoryEngine rng).

Lemma fresh_at_elsewhere e :
  current_id e ≠ "opening" -> current_id e ≠ "omen" -> fresh_at e.
Proof. intros Hop Hom. by split. Qed.

Lemma fresh_at_new st e :
  flags st = ∅ -> inventory st = [] -> new_engine st = Ret e -> fresh_at e.
Proof.
  intros Hfl Hinv Hnew. destruct (new_engine_ok st e Hnew) as [_ Hcur].
  unfold new_engine in Hnew.
  destruct (_build_nodes st _) as [[ns|ex] g']; [|done]. injection Hnew as <-.
  split; cbn; [done|]. intros Hom. discriminate Hom.
Qed.

Lemma fresh_at_ending style w : fresh_at (engine (rewrite_ending style w).2).
Proof.
  rewrite rewrite_ending_run. apply fresh_at_elsewhere; cbn;
    pose proof (style_key_of_cases style) as Hk;
    repeat (apply elem_of_cons in Hk as [->|Hk]; [done|]);
    by apply elem_of_nil in Hk.
Qed.

Lemma session_fresh w : in_session w -> fresh_at (engine w).
Proof.
  induction 1 as [st e lines Hfl Hinv Hnew|w raw Hs IH|w style Hs IH|w lines Hs IH].
  - by apply (fresh_at_new st).
  - pose proof (reachable_ok w (in_session_reachable w Hs)) as Hok.
    destruct (step_cases w raw Hok) as (node & Hn & Hcases).
    destruct Hcases as
      [[Hc _]|[(_ & _ & hp & Hhp & ->)|[(_ & _ & _ & _ & hp & Hhp & ->)
        |[(label & target & Hg)|(_ & _ & _ & _ & ->)]]]]; cbn [snd].
    + destruct (command_head_cases raw) as [Hh|[Hh|[Hh|Hh]]].
      * rewrite (step_rewrite_run w raw node Hn Hc Hh). apply fresh_at_ending.
      * destruct (stdin_cases w) as [Hlen|(l1 & l2 & l3 & l4 & rest & Hin)].
        -- by rewrite (step_restart_short w raw node Hn Hc Hh Hlen).
        -- destruct (step_restart_run w raw node _ _ _ _ _ Hn Hc Hh Hin)
             as (st & e & op & Hp & Hnew & _ & ->).
           destruct (prompt_for_seeds_run w _ _ _ _ _ Hin)
             as (st' & Hp' & _ & _ & _ & _ & _ & Hinv & Hfl).
           rewrite Hp in Hp'. injection Hp' as <-.
           by apply (fresh_at_new st).
      * by rewrite (step_quit_run w raw node Hn Hc Hh).
      * by rewrite (step_quiet_run w raw node Hn Hc Hh).
    + by apply fresh_at_elsewhere.
    + by apply fresh_at_elsewhere.
    + destruct (generic_choice_world w raw node label target Hok Hg) as (n & _ & _ & Hw).
      pose proof Hg as (_ & _ & _ & _ & Hch).
      pose proof (engine_ok_shape _ _ _ Hok Hn) as Hsh.
      pose proof (engine_ok_node_id _ _ _ Hok Hn) as Hid.
      assert (Hedge : sh_edges (shape_of node) !! str_upper (PyStr.strip raw) = Some target).
      { unfold shape_of. cbn. by rewrite lookup_fmap, Hch. }
      destruct (graph_entries _ _ _ _ Hsh Hedge) as [Hop Hom].
      destruct Hw as [-> | ->]; [|by apply fresh_at_elsewhere].
      split; cbn [engine current_id with_flags with_current_id on_engine
                  set_state set_current_id]; [done|].
      intros Ht. specialize (Hom Ht).
      destruct (proj1 IH Hom) as [Hfl Hinv].
      rewrite Hid, Hom, side_effects_run. cbn [String.eqb Ascii.eqb Bool.eqb andb snd].
      unfold studied, is_omen_study. rewrite Hid, Hom.
      cbn [String.eqb Ascii.eqb Bool.eqb andb].
      cbn. rewrite Hfl, Hinv. done.
    + done.
  - apply fresh_at_ending.
  - done.
Qed.

(** X11. In a session the omen is entered once, from the opening and before
    anything else has happened: whenever the pointer is on the omen the
    flags are exactly one counted step and the inventory is empty, so the
    study of the omen starts fresh; and whenever the pointer is on the
    opening there is no flag and no item at all. *)
Theorem session_at_omen_is_fresh w :
  in_session w ->
  (current_id (engine w) = "omen" ->
     flags (state (engine w)) = {["steps" := 1]}
     ∧ inventory (state (engine w)) = []
     ∧ flags (state (engine w)) !! "studies" = None
     ∧ flag_get "steps" (flags (state (engine w))) = 1)
  ∧ (current_id (engine w) = "opening" ->
     flags (state (engine w)) = ∅ ∧ inventory (state (engine w)) = []).
Proof.
  intros Hs. destruct (session_fresh w Hs) as [Hop Hom]. split; [|done].
  intros Hcur. destruct (Hom Hcur) as [Hfl Hinv]. rewrite Hfl. by repeat split.
Qed.

End Omen.

(** ** The climax and its endings *)

Section Climax.
Context {rng : Type} `{!PyRuntime rng} `{!PyText}.
Implicit Types (w : World rng) (e : StoryEngine rng).

(** A typed letter is no command and not the secret keyword, and its upper
    case is the key of the choice. *)
Lemma letter_input raw c :
  (PyStr.strip raw, c) ∈ choice_letters ->
  is_command raw = false ∧ is_secret raw = false ∧ str_upper (PyStr.strip raw) = c.
Proof.
  intros Hin. unfold is_command, is_secret.
  destruct (PyStr.strip raw) as [|b s] eqn:Hs.
  { exfalso. revert Hin. compute_done. }
  assert (Hascii : PyStr.is_ascii (String b s) = true).
  { repeat (apply elem_of_cons in Hin as [[= -> -> _]|Hin]; [reflexivity|]).
    by apply elem_of_nil in Hin. }
  rewrite (str_lower_ascii _ Hascii), (str_upper_ascii _ Hascii).
  repeat (apply elem_of_cons in Hin as [[= -> -> ->]|Hin]; [by repeat split|]).
  by apply elem_of_nil in Hin.
Qed.

(** X12. At the climax the three choices lead to the three endings, whatever
    the flags and in either letter case: [A] to [ending_hopeful], [B] to
    [ending_twist], [C] to [ending_tragic].  The funnel never overrides an
    ending; the step is counted and nothing else of the world changes. *)
Theorem climax_leads_to_endings w raw c target :
  engine_ok (engine w) ->
  current_id (engine w) = "climax" ->
  (PyStr.strip raw, c) ∈ choice_letters ->
  (c, target) ∈ [("A", "ending_hopeful"); ("B", "ending_twist"); ("C", "ending_tragic")] ->
  ∃ n, nodes (engine w) !! target = Some n
    ∧ is_ending n = true
    ∧ step raw w =
        (Ret (Some n), with_flags (flag_incr "steps") (with_current_id target w)).
Proof.
  intros Hok Hcur Hraw Hrow.
  destruct (letter_input raw c Hraw) as (Hc & Hs & Hup).
  destruct (proj2 Hok) as [node Hn].
  pose proof (engine_ok_node_id _ _ _ Hok Hn) as Hid. rewrite Hcur in Hid.
  pose proof (engine_ok_shape _ _ _ Hok Hn) as Hsh. rewrite Hcur in Hsh.
  destruct (engine_ok_climax _ Hok) as [climax Hcl].
  assert (Hedges : sh_edges (shape_of node)
                   = dict_of [("A", "ending_hopeful"); ("B", "ending_twist");
                              ("C", "ending_tragic")]).
  { change (sh_edges (shape_of node)) with
      (default ∅ (sh_edges <$> Some (shape_of node))).
    rewrite <- Hsh. reflexivity. }
  assert (Hnot_omen : is_omen_study node raw = false).
  { unfold is_omen_study. by rewrite Hid. }
  assert (Hfacts : sh_edges (shape_of node) !! c = Some target
            ∧ (∃ n, nodes (engine w) !! target = Some n ∧ is_ending n = true)
            ∧ (_apply_side_effects "climax" c w).2 = w).
  { rewrite Hedges.
    repeat (apply elem_of_cons in Hrow as [[= -> ->]|Hrow];
      [split; [done|];
       split; [|by rewrite side_effects_run];
       match goal with |- ∃ n, nodes _ !! ?t = _ ∧ _ =>
         destruct (engine_ok_node _ t _ Hok eq_refl) as (n & Hnt & Hshn);
         exists n; split; [done|];
         change (sh_ending (shape_of n) = true); by rewrite Hshn end|]).
    by apply elem_of_nil in Hrow. }
  destruct Hfacts as (Hedge & (n & Hnt & Hend) & Hfx).
  unfold shape_of in Hedge. cbn in Hedge. rewrite lookup_fmap in Hedge.
  destruct (choices node !! c) as [[label t]|] eqn:Hch; [|done].
  cbn in Hedge. injection Hedge as ->.
  assert (Hg : generic_choice w raw node label target).
  { repeat split; try done. by rewrite Hnot_omen. by rewrite Hup. }
  exists n. split; [done|]. split; [done|].
  rewrite (generic_choice_run w raw node label target climax Hg Hcl).
  rewrite Hnt. unfold funnel_test. rewrite Hend. cbn [negb andb].
  unfold studied. rewrite Hnot_omen, Hid, Hup, Hfx. done.
Qed.

End Climax.

(** ** The seeds of a session *)

Section Seeds.
Context {rng : Type} `{!PyRuntime rng} `{!PyText}.
Implicit Types (w : World rng) (e : StoryEngine rng).

Lemma str_or_filled (x d : string) : d ≠ "" -> str_or x d ≠ "".
Proof. intros Hd. by destruct x. Qed.

Lemma new_engine_returns st : ∃ e : StoryEngine rng, new_engine st = Ret e.
Proof.
  unfold new_engine.
  destruct (build_nodes_returns st (rng_seed (world_seed st))) as (ns & g' & -> & _).
  by eexists.
Qed.

(** X13. [prompt_for_seeds] reads four lines.  With four lines of input left
    it takes exactly those and returns a world state whose genre, tone and
    names are not empty (the defaults fantasy, whimsical, Ari, Rook stand
    in for lines of white space), whose seed is at least 0 and below
    2^31 - 1, and which has no item and no flag; an engine constructed on
    it starts a session.  With fewer lines left it raises [EOFError] and
    has used them all. *)
Theorem seeds_well_formed w :
  (∀ l1 l2 l3 l4 rest, stdin w = l1 :: l2 :: l3 :: l4 :: rest ->
     ∃ st e, prompt_for_seeds w = (Ret st, mkWorld (engine w) rest)
       ∧ (∀ x, x ∈ [genre st; tone st; protagonist st; companion st] -> x ≠ "")
       ∧ (PyStr.strip l1 = "" -> genre st = "fantasy")
       ∧ (PyStr.strip l2 = "" -> tone st = "whimsical")
       ∧ (PyStr.strip l3 = "" -> protagonist st = "Ari")
       ∧ (PyStr.strip l4 = "" -> companion st = "Rook")
       ∧ (PyStr.strip l1 ≠ "" -> genre st = PyStr.strip l1)
       ∧ 0 <= world_seed st < 2 ^ 31 - 1
       ∧ inventory st = [] ∧ flags st = ∅
       ∧ new_engine st = Ret e
       ∧ in_session (mkWorld e rest))
  ∧ ((length (stdin w) < 4)%nat ->
     prompt_for_seeds w = (Raise EOFError, mkWorld (engine w) [])).
Proof.
  split; [|apply prompt_for_seeds_short].
  intros l1 l2 l3 l4 rest Hin.
  destruct (prompt_for_seeds_run w l1 l2 l3 l4 rest Hin)
    as (st & Hp & Hg & Ht & Hpr & Hco & Hseed & Hinv & Hfl).
  destruct (new_engine_returns st) as (e & Hnew).
  exists st, e. split; [done|]. split; [|split; [|split; [|split; [|split; [|split]]]]].
  - intros x Hx.
    repeat (apply elem_of_cons in Hx as [->|Hx];
      [rewrite ?Hg, ?Ht, ?Hpr, ?Hco; by apply str_or_filled|]).
    by apply elem_of_nil in Hx.
  - intros Hb. by rewrite Hg, Hb.
  - intros Hb. by rewrite Ht, Hb.
  - intros Hb. by rewrite Hpr, Hb.
  - intros Hb. by rewrite Hco, Hb.
  - intros Hne. rewrite Hg. by destruct (PyStr.strip l1).
  - split; [rewrite Hseed; by apply Z.mod_pos_bound|].
    repeat (split; [done|]). by apply (session_start st).
Qed.

End Seeds.

(** ** The loop of [main] *)

Section MainLoop.
Context {rng : Type} `{!PyRuntime rng} `{!PyText}.
Implicit Types (w : World rng) (e : StoryEngine rng) (p : Process rng).

(** [step] reads input for a restart only, and never puts any back. *)
Lemma step_stdin raw w :
  engine_ok (engine w) ->
  (length (stdin (step raw w).2) <= length (stdin w))%nat.
Proof.
  intros Hok.
  destruct (step_cases w raw Hok) as (node & Hn & Hcases).
  destruct Hcases as
    [[Hc _]|[(_ & _ & hp & Hhp & ->)|[(_ & _ & _ & _ & hp & Hhp & ->)
      |[(label & target & Hg)|(_ & _ & _ & _ & ->)]]]]; cbn [snd]; try done.
  - destruct (command_head_cases raw) as [Hh|[Hh|[Hh|Hh]]].
    + by rewrite (step_rewrite_run w raw node Hn Hc Hh).
    + destruct (stdin_cases w) as [Hlen|(l1 & l2 & l3 & l4 & rest & Hin)].
      * rewrite (step_restart_short w raw node Hn Hc Hh Hlen). cbn. lia.
      * destruct (step_restart_run w raw node _ _ _ _ _ Hn Hc Hh Hin)
          as (st & e & op & _ & _ & _ & ->).
        rewrite Hin. cbn. lia.
    + by rewrite (step_quit_run w raw node Hn Hc Hh).
    + by rewrite (step_quiet_run w raw node Hn Hc Hh).
  - destruct (generic_choice_world w raw node label target Hok Hg) as (n & _ & _ & Hw).
    pose proof (same_story_side_effects (node_id node) (str_upper (PyStr.strip raw))
                  (studied node raw w)) as (_ & _ & Hin1 & _).
    pose proof (same_story_studied node raw w) as (_ & _ & Hin2 & _).
    destruct Hw as [-> | ->]; cbn; rewrite Hin1, Hin2; done.
Qed.

(** The three ways [try: step(user) except SystemExit: break] ends. *)
Lemma step_or_break_cases user p :
  engine_ok (engine (proc_world p)) ->
  ∃ p', engine_ok (engine (proc_world p'))
    ∧ (length (stdin (proc_world p')) <= length (stdin (proc_world p)))%nat
    ∧ (step_or_break user p = (Ret Continue, p')
       ∨ (step_or_break user p = (Ret Break, p')
          ∧ step user (proc_world p) = (Raise (SystemExit 0), proc_world p'))
       ∨ (step_or_break user p = (Raise EOFError, p')
          ∧ stdin (proc_world p') = [])).
Proof.
  intros Hok. unfold step_or_break, in_world.
  pose proof (step_ok user _ Hok) as Hok'.
  pose proof (step_stdin user _ Hok) as Hlen.
  destruct (step user (proc_world p)) as [[r|ex] w'] eqn:Hstep; cbn [snd] in *.
  - exists (mkProcess w' (proc_random p)). split; [exact Hok'|]. split; [exact Hlen|].
    by left.
  - destruct (step_raise_cases _ _ _ _ Hok Hstep) as [_ [(-> & -> & _)|(-> & -> & _)]].
    + exists (mkProcess (proc_world p) (proc_random p)).
      split; [exact Hok'|]. split; [exact Hlen|]. right; left. done.
    + exists (mkProcess (mkWorld (engine (proc_world p)) []) (proc_random p)).
      split; [exact Hok'|]. split; [exact Hlen|]. right; right. done.
Qed.

(** An iteration of the loop takes a line of input or fails for want of
    one; the engine stays sound. *)
Lemma main_turn_cases p :
  engine_ok (engine (proc_world p)) ->
  ∃ p', engine_ok (engine (proc_world p'))
    ∧ ((main_turn p = (Ret Continue, p')
        ∧ (length (stdin (proc_world p')) < length (stdin (proc_world p)))%nat)
       ∨ (main_turn p = (Ret Break, p')
          ∧ (length (stdin (proc_world p')) < length (stdin (proc_world p)))%nat)
       ∨ (main_turn p = (Raise EOFError, p') ∧ stdin (proc_world p') = [])).
Proof.
  intros Hok. destruct p as [[e lines] g]. cbn in Hok.
  destruct (proj2 Hok) as [node Hn].
  unfold main_turn.
  rewrite (bind_run _ _ _ node (mkProcess (mkWorld e lines) g)).
  2:{ unfold in_world. cbn [proc_world proc_random].
      by rewrite (get_current_node_run (mkWorld e lines) node Hn). }
  destruct lines as [|line rest].
  { exists (mkProcess (mkWorld e []) g). split; [done|]. right; right.
    split; [|done]. by destruct (is_ending node). }
  destruct (is_ending node).
  - rewrite (bind_run _ _ _ (PyStr.strip line) (mkProcess (mkWorld e rest) g))
      by reflexivity.
    destruct (PyStr.strip line) as [|b s] eqn:Hs.
    + unfold mbind, comp_mbind, comp_bind, randint_0_2. cbn [proc_world proc_random].
      pose proof (randbelow_lt g 3 ltac:(lia)) as Hlt.
      destruct (randbelow g 3) as [i g'] eqn:Hr. cbn [fst] in Hlt.
      destruct (["hopeful"; "twist"; "tragic"] !! i) as [style|] eqn:Hst.
      2:{ apply lookup_ge_None in Hst. cbn in Hst. lia. }
      eexists. split; [|left; split; [reflexivity|]].
      * cbn. by apply (rewrite_ending_ok style (mkWorld e rest)).
      * cbn. lia.
    + destruct (step_or_break_cases
                  (if negb (PyStr.startswith ":" (String b s))
                   then ":" +:+ String b s else String b s)
                  (mkProcess (mkWorld e rest) g) Hok)
        as (p' & Hok' & Hlen & [Hc|[[Hc _]|[Hc Hin]]]);
        exists p'; (split; [exact Hok'|]); cbn in Hlen.
      * left. split; [exact Hc|]. cbn. lia.
      * right; left. split; [exact Hc|]. cbn. lia.
      * right; right. by split.
  - rewrite (bind_run _ _ _ line (mkProcess (mkWorld e rest) g)) by reflexivity.
    destruct (step_or_break_cases line (mkProcess (mkWorld e rest) g) Hok)
      as (p' & Hok' & Hlen & [Hc|[[Hc _]|[Hc Hin]]]);
      exists p'; (split; [exact Hok'|]); cbn in Hlen.
    + left. split; [exact Hc|]. cbn. lia.
    + right; left. split; [exact Hc|]. cbn. lia.
    + right; right. by split.
Qed.

Lemma main_loop_ends fuel p :
  engine_ok (engine (proc_world p)) ->
  (length (stdin (proc_world p)) < fuel)%nat ->
  ∃ p', engine_ok (engine (proc_world p'))
    ∧ (main_loop fuel p = (Ret (Some tt), p')
       ∨ (main_loop fuel p = (Raise EOFError, p') ∧ stdin (proc_world p') = [])).
Proof.
  revert p. induction fuel as [|fuel IH]; intros p Hok Hlen; [lia|].
  cbn [main_loop].
  destruct (main_turn_cases p Hok) as (p' & Hok' & [[Ht Hl]|[[Ht Hl]|[Ht Hin]]]).
  - rewrite (bind_run _ _ _ _ _ Ht).
    destruct (IH p' Hok' ltac:(lia)) as (p'' & Hok'' & Hcases).
    by exists p''.
  - rewrite (bind_run _ _ _ _ _ Ht). exists p'. split; [done|]. by left.
  - rewrite (bind_run_raise _ _ _ _ _ Ht). exists p'. split; [done|]. by right.
Qed.

Lemma main_loop_fuel fuel fuel' p :
  engine_ok (engine (proc_world p)) ->
  (length (stdin (proc_world p)) < fuel)%nat -> (fuel <= fuel')%nat ->
  main_loop fuel' p = main_loop fuel p.
Proof.
  revert fuel' p. induction fuel as [|fuel IH]; intros fuel' p Hok Hlen Hle; [lia|].
  destruct fuel' as [|fuel']; [lia|]. cbn [main_loop].
  destruct (main_turn_cases p Hok) as (p' & Hok' & [[Ht Hl]|[[Ht Hl]|[Ht Hin]]]).
  - rewrite !(bind_run _ _ _ _ _ Ht). apply IH; [done|lia|lia].
  - by rewrite !(bind_run _ _ _ _ _ Ht).
  - by rewrite !(bind_run_raise _ _ _ _ _ Ht).
Qed.

(** The loop is left by [break] on a [quit] command only. *)
Lemma main_turn_break p p' :
  engine_ok (engine (proc_world p)) ->
  main_turn p = (Ret Break, p') ->
  ∃ line rest user,
    stdin (proc_world p) = line :: rest
    ∧ user ∈ [line; PyStr.strip line; ":" +:+ PyStr.strip line]
    ∧ command_head user = Some "quit"
    ∧ step user (mkWorld (engine (proc_world p)) rest)
        = (Raise (SystemExit 0), mkWorld (engine (proc_world p)) rest)
    ∧ p' = mkProcess (mkWorld (engine (proc_world p)) rest) (proc_random p).
Proof.
  intros Hok Hturn. destruct p as [[e lines] g]. cbn in Hok.
  destruct (proj2 Hok) as [node Hn]. cbn [proc_world proc_random engine stdin].
  unfold main_turn in Hturn.
  rewrite (bind_run _ _ _ node (mkProcess (mkWorld e lines) g)) in Hturn.
  2:{ unfold in_world. cbn [proc_world proc_random].
      by rewrite (get_current_node_run (mkWorld e lines) node Hn). }
  destruct lines as [|line rest].
  { by destruct (is_ending node). }
  assert (Hbreak : ∀ user,
    step_or_break user (mkProcess (mkWorld e rest) g) = (Ret Break, p') ->
    command_head user = Some "quit"
    ∧ step user (mkWorld e rest) = (Raise (SystemExit 0), mkWorld e rest)
    ∧ p' = mkProcess (mkWorld e rest) g).
  { intros user Hsb. unfold step_or_break, in_world in Hsb.
    cbn [proc_world proc_random] in Hsb.
    destruct (step user (mkWorld e rest)) as [[r|ex] w'] eqn:Hstep; [done|].
    destruct (step_raise_cases (mkWorld e rest) _ _ _ Hok Hstep)
      as [_ [(-> & -> & Hq)|(-> & -> & _)]]; [|done].
    by injection Hsb as <-. }
  exists line, rest.
  destruct (is_ending node).
  - rewrite (bind_run _ _ _ (PyStr.strip line) (mkProcess (mkWorld e rest) g)) in Hturn
      by reflexivity.
    destruct (PyStr.strip line) as [|b s] eqn:Hs.
    + unfold mbind, comp_mbind, comp_bind, randint_0_2 in Hturn.
      cbn [proc_world proc_random] in Hturn.
      destruct (randbelow g 3) as [i g'].
      by destruct (["hopeful"; "twist"; "tragic"] !! i).
    + destruct (Hbreak _ Hturn) as (Hq & Hstep & ->).
      eexists. split; [done|]. split; [|done].
      destruct (negb (PyStr.startswith ":" (String b s)));
        [do 2 apply list_elem_of_further|apply list_elem_of_further];
        apply list_elem_of_here.
  - rewrite (bind_run _ _ _ line (mkProcess (mkWorld e rest) g)) in Hturn by reflexivity.
    destruct (Hbreak _ Hturn) as (Hq & Hstep & ->).
    exists line. split; [done|]. split; [apply list_elem_of_here|done].
Qed.

Lemma main_setup_run p l1 l2 l3 l4 rest :
  stdin (proc_world p) = l1 :: l2 :: l3 :: l4 :: rest ->
  ∃ st e, prompt_for_seeds (proc_world p) = (Ret st, mkWorld (engine (proc_world p)) rest)
    ∧ new_engine st = Ret e
    ∧ main_setup p = (Ret tt, mkProcess (mkWorld e rest) (proc_random p)).
Proof.
  intros Hin.
  destruct (prompt_for_seeds_run _ l1 l2 l3 l4 rest Hin) as (st & Hp & _).
  destruct (new_engine_returns st) as (e & Hnew).
  exists st, e. repeat (split; [done|]).
  unfold main_setup, mbind, comp_mbind, comp_bind, in_world, comp_lift.
  by rewrite Hp, Hnew.
Qed.

Lemma main_setup_short p :
  (length (stdin (proc_world p)) < 4)%nat ->
  main_setup p = (Raise EOFError, mkProcess (mkWorld (engine (proc_world p)) [])
                                            (proc_random p)).
Proof.
  intros Hlen.
  unfold main_setup, mbind, comp_mbind, comp_bind, in_world.
  by rewrite (prompt_for_seeds_short _ Hlen).
Qed.

End MainLoop.

Section MainProperties.
Context {rng : Type} `{!PyRuntime rng} `{!PyText}.
Implicit Types (w : World rng) (e : StoryEngine rng) (p : Process rng).

(** X14. The loop of [main] on finite input.  On a sound engine and with more
    iterations allowed than there are lines of input, the loop ends: by
    [break], or by [EOFError] once no input is left; it raises nothing
    else, the engine stays sound, and allowing more iterations changes
    nothing. *)
Theorem main_loop_total fuel p :
  engine_ok (engine (proc_world p)) ->
  (length (stdin (proc_world p)) < fuel)%nat ->
  (∃ p', engine_ok (engine (proc_world p'))
     ∧ (main_loop fuel p = (Ret (Some tt), p')
        ∨ (main_loop fuel p = (Raise EOFError, p') ∧ stdin (proc_world p') = [])))
  ∧ (∀ fuel', (fuel <= fuel')%nat -> main_loop fuel' p = main_loop fuel p).
Proof.
  intros Hok Hlen. split; [by apply main_loop_ends|].
  intros fuel' Hle. by apply main_loop_fuel.
Qed.

(** X15. An iteration of the loop of [main] ends by [break] for a [quit]
    command only: the line read, or at an ending the trimmed line with a
    colon put before it when it has none, has [quit] for its first word;
    that one line is used and the engine is as it was. *)
Theorem loop_left_by_quit p p' :
  engine_ok (engine (proc_world p)) ->
  main_turn p = (Ret Break, p') ->
  ∃ line rest user,
    stdin (proc_world p) = line :: rest
    ∧ user ∈ [line; PyStr.strip line; ":" +:+ PyStr.strip line]
    ∧ command_head user = Some "quit"
    ∧ step user (mkWorld (engine (proc_world p)) rest)
        = (Raise (SystemExit 0), mkWorld (engine (proc_world p)) rest)
    ∧ p' = mkProcess (mkWorld (engine (proc_world p)) rest) (proc_random p).
Proof.
  intros Hok Hturn. by apply main_turn_break.
Qed.

(** X16. [main] on finite input and with more iterations allowed than there
    are lines: with fewer than four lines it raises [EOFError] while asking
    for the seeds; otherwise it ends by a [quit] or by [EOFError] once no
    input is left, and never in another way; and the engine the process
    held before plays no part. *)
Theorem main_total fuel p :
  (length (stdin (proc_world p)) < fuel)%nat ->
  ((length (stdin (proc_world p)) < 4)%nat ->
     main fuel p = (Raise EOFError,
                    mkProcess (mkWorld (engine (proc_world p)) []) (proc_random p)))
  ∧ ((4 <= length (stdin (proc_world p)))%nat ->
     (∃ p', main fuel p = (Ret (Some tt), p')
            ∨ (main fuel p = (Raise EOFError, p') ∧ stdin (proc_world p') = []))
     ∧ ∀ e0, main fuel (mkProcess (mkWorld e0 (stdin (proc_world p))) (proc_random p))
             = main fuel p).
Proof.
  intros Hfuel. split.
  - intros Hlen. unfold main.
    by rewrite (bind_run_raise _ _ _ _ _ (main_setup_short p Hlen)).
  - intros Hlen.
    destruct (stdin_cases (proc_world p)) as [?|(l1 & l2 & l3 & l4 & rest & Hin)]; [lia|].
    destruct (main_setup_run p l1 l2 l3 l4 rest Hin) as (st & e & Hp & Hnew & Hset).
    unfold main. rewrite (bind_run _ _ _ _ _ Hset). split.
    + destruct (new_engine_ok st e Hnew) as [Hok _].
      destruct (main_loop_ends fuel (mkProcess (mkWorld e rest) (proc_random p)) Hok)
        as (p' & _ & Hcases).
      { rewrite Hin in Hfuel. cbn in Hfuel |- *. lia. }
      by exists p'.
    + intros e0.
      destruct (main_setup_run (mkProcess (mkWorld e0 (stdin (proc_world p)))
                                          (proc_random p)) l1 l2 l3 l4 rest Hin)
        as (st' & e' & Hp' & Hnew' & Hset').
      rewrite (bind_run _ _ _ _ _ Hset').
      destruct (prompt_for_seeds_run (proc_world p) l1 l2 l3 l4 rest Hin)
        as (st1 & Hp1 & Hg1 & Ht1 & Hpr1 & Hco1 & Hseed1 & Hinv1 & Hfl1).
      destruct (prompt_for_seeds_run (mkWorld e0 (stdin (proc_world p))) l1 l2 l3 l4 rest Hin)
        as (st2 & Hp2 & Hg2 & Ht2 & Hpr2 & Hco2 & Hseed2 & Hinv2 & Hfl2).
      assert (Hst : st' = st).
      { rewrite Hp in Hp1. injection Hp1 as <-.
        cbn [proc_world] in Hp'. rewrite Hp' in Hp2. injection Hp2 as <-.
        destruct st as [a1 b1 c1 d1 s1 i1 f1], st' as [a2 b2 c2 d2 s2 i2 f2].
        cbn in *. congruence. }
      subst st'. rewrite Hnew in Hnew'. by injection Hnew' as <-.
Qed.

End MainProperties.

(** A session from the first prompt to the last: four blank lines for the
    seeds, four choices to an ending, a blank line there for an ending
    written anew, and [quit] without its colon. *)
Example main_session :
  let p := mkProcess (mkWorld (engine (demo_world "climax" ∅))
                        [""; ""; ""; ""; "a"; "A"; "c"; "A"; ""; " quit "; "A"]) tt in
  ∃ e, main 12 p = (Ret (Some tt), mkProcess (mkWorld e ["A"]) tt)
    ∧ current_id e = "ending_twist"
    ∧ flags (state e) = dict_of [("steps", 4); ("studies", 1)].
Proof. eexists. vm_compute. repeat split; exact eq_refl. Qed.

Example main_runs_out_of_input :
  (main 7 (mkProcess (mkWorld (engine (demo_world "climax" ∅))
                        [""; ""; ""; ""; "a"; "zzz"]) tt)).1 = Raise EOFError.
Proof. vm_compute. reflexivity. Qed.

(** ** The properties above on worlds that run *)

Lemma demo_world_in_session : in_session (demo_world "opening" ∅).
Proof. by apply (session_start (demo_state ∅)). Qed.

Lemma step_raises_witness :
  engine_ok (engine (demo_world "ally" ∅))
  ∧ step ":quit" (demo_world "ally" ∅) = (Raise (SystemExit 0), demo_world "ally" ∅)
  ∧ command_head ":quit" = Some "quit".
Proof.
  assert (Hok : engine_ok (engine (demo_world "ally" ∅))).
  { apply demo_world_ok. by eexists. }
  assert (Hstep : step ":quit" (demo_world "ally" ∅)
                  = (Raise (SystemExit 0), demo_world "ally" ∅)).
  { vm_compute. reflexivity. }
  split; [exact Hok|]. split; [exact Hstep|].
  destruct (step_raises _ _ _ _ Hok Hstep) as (_ & [(_ & _ & Hq)|(Hex & _)] & _);
    [exact Hq|discriminate Hex].
Defined.

Lemma step_returns_current_node_witness :
  engine_ok (engine (demo_world "opening" ∅))
  ∧ ∃ n w', step "A" (demo_world "opening" ∅) = (Ret (Some n), w')
      ∧ get_current_node w' = (Ret n, w').
Proof.
  assert (Hok : engine_ok (engine (demo_world "opening" ∅))).
  { apply demo_world_ok. by eexists. }
  split; [exact Hok|].
  assert (Hstep : ∃ n w', step "A" (demo_world "opening" ∅) = (Ret (Some n), w')).
  { eexists _, _. vm_compute. reflexivity. }
  destruct Hstep as (n & w' & Hstep). exists n, w'. split; [exact Hstep|].
  exact (step_returns_current_node _ _ _ _ Hok Hstep).
Defined.

Lemma step_none_only_unrecognized_witness :
  engine_ok (engine (demo_world "opening" ∅))
  ∧ step "Z" (demo_world "opening" ∅) = (Ret None, demo_world "opening" ∅)
  ∧ is_secret "Z" = false.
Proof.
  assert (Hok : engine_ok (engine (demo_world "opening" ∅))).
  { apply demo_world_ok. by eexists. }
  assert (Hstep : step "Z" (demo_world "opening" ∅) = (Ret None, demo_world "opening" ∅)).
  { vm_compute. reflexivity. }
  split; [exact Hok|]. split; [exact Hstep|].
  exact (proj1 (proj2 (proj2 (step_none_only_unrecognized _ _ _ Hok Hstep)))).
Defined.

Lemma narrative_input_frame_witness :
  engine_ok (engine (demo_world "ally" ∅))
  ∧ is_command "a" = false
  ∧ same_story (demo_world "ally" ∅) (step "a" (demo_world "ally" ∅)).2.
Proof.
  assert (Hok : engine_ok (engine (demo_world "ally" ∅))).
  { apply demo_world_ok. by eexists. }
  split; [exact Hok|]. split; [reflexivity|].
  exact (proj1 (narrative_input_frame _ "a" Hok eq_refl)).
Defined.

Lemma step_on_dangling_pointer_witness :
  nodes (engine (demo_world "retreat" ∅)) !! current_id (engine (demo_world "retreat" ∅))
    = None
  ∧ step ":quit" (demo_world "retreat" ∅)
    = (Raise (KeyError "retreat"), demo_world "retreat" ∅).
Proof.
  assert (Hn : nodes (engine (demo_world "retreat" ∅))
                 !! current_id (engine (demo_world "retreat" ∅)) = None)
    by reflexivity.
  split; [exact Hn|].
  exact (step_on_dangling_pointer (demo_world "retreat" ∅) ":quit" Hn).
Defined.

Lemma rewrite_ending_moves_pointer_only_witness :
  reachable (demo_world "opening" ∅)
  ∧ nodes (engine (rewrite_ending "Tragic" (demo_world "opening" ∅)).2)
    = nodes (engine (demo_world "opening" ∅)).
Proof.
  split; [exact demo_world_reachable|].
  exact (proj2 (rewrite_ending_moves_pointer_only _ "Tragic" demo_world_reachable)).
Defined.

Lemma session_state_tidy_witness :
  in_session (play ["b"; "A"] (demo_world "opening" ∅))
  ∧ flags (state (engine (play ["b"; "A"] (demo_world "opening" ∅)))) !! "" = None.
Proof.
  assert (Hs : in_session (play ["b"; "A"] (demo_world "opening" ∅))).
  { apply session_step, session_step, demo_world_in_session. }
  split; [exact Hs|].
  exact (proj1 (proj2 (proj2 (session_state_tidy _ Hs)))).
Defined.

Lemma session_at_omen_is_fresh_witness :
  in_session (play ["a"] (demo_world "opening" ∅))
  ∧ current_id (engine (play ["a"] (demo_world "opening" ∅))) = "omen"
  ∧ flags (state (engine (play ["a"] (demo_world "opening" ∅)))) = {["steps" := 1]}.
Proof.
  assert (Hs : in_session (play ["a"] (demo_world "opening" ∅))).
  { apply session_step, demo_world_in_session. }
  assert (Hcur : current_id (engine (play ["a"] (demo_world "opening" ∅))) = "omen").
  { vm_compute. reflexivity. }
  split; [exact Hs|]. split; [exact Hcur|].
  exact (proj1 (proj1 (session_at_omen_is_fresh _ Hs) Hcur)).
Defined.

Lemma climax_leads_to_endings_witness :
  engine_ok (engine (demo_world "climax" (dict_of [("steps", 9); ("map", 1)])))
  ∧ (PyStr.strip " b ", "B") ∈ choice_letters
  ∧ ∃ n, step " b " (demo_world "climax" (dict_of [("steps", 9); ("map", 1)]))
         = (Ret (Some n),
            with_flags (flag_incr "steps")
              (with_current_id "ending_twist"
                 (demo_world "climax" (dict_of [("steps", 9); ("map", 1)])))).
Proof.
  assert (Hok : engine_ok (engine (demo_world "climax" (dict_of [("steps", 9); ("map", 1)])))).
  { apply demo_world_ok. by eexists. }
  assert (Hraw : (PyStr.strip " b ", "B") ∈ choice_letters).
  { do 3 apply list_elem_of_further. apply list_elem_of_here. }
  assert (Hrow : ("B", "ending_twist")
                 ∈ [("A", "ending_hopeful"); ("B", "ending_twist"); ("C", "ending_tragic")]).
  { apply list_elem_of_further, list_elem_of_here. }
  split; [exact Hok|]. split; [exact Hraw|].
  destruct (climax_leads_to_endings _ " b " "B" "ending_twist" Hok eq_refl Hraw Hrow)
    as (n & _ & _ & Hstep).
  exists n. exact Hstep.
Defined.

Lemma main_loop_total_witness :
  engine_ok (engine (proc_world (mkProcess (mkWorld (engine (demo_world "ally" ∅))
                                              ["b"; ":quit"; "a"]) tt)))
  ∧ main_loop 7 (mkProcess (mkWorld (engine (demo_world "ally" ∅)) ["b"; ":quit"; "a"]) tt)
    = main_loop 3 (mkProcess (mkWorld (engine (demo_world "ally" ∅)) ["b"; ":quit"; "a"]) tt).
Proof.
  assert (Hok : engine_ok (engine (demo_world "ally" ∅))).
  { apply demo_world_ok. by eexists. }
  split; [exact Hok|].
  assert (Hlen : (length ["b"; ":quit"; "a"] < 4)%nat) by (cbn; lia).
  assert (Hle : (4 <= 7)%nat) by lia.
  assert (H43 : main_loop 4 (mkProcess (mkWorld (engine (demo_world "ally" ∅))
                                          ["b"; ":quit"; "a"]) tt)
                = main_loop 3 (mkProcess (mkWorld (engine (demo_world "ally" ∅))
                                            ["b"; ":quit"; "a"]) tt)).
  { vm_compute. reflexivity. }
  rewrite <- H43.
  exact (proj2 (main_loop_total 4
           (mkProcess (mkWorld (engine (demo_world "ally" ∅)) ["b"; ":quit"; "a"]) tt)
           Hok Hlen) 7%nat Hle).
Defined.

Lemma loop_left_by_quit_witness :
  engine_ok (engine (demo_world "ending_twist" ∅))
  ∧ main_turn (mkProcess (mkWorld (engine (demo_world "ending_twist" ∅)) [" quit "; "a"]) tt)
    = (Ret Break, mkProcess (mkWorld (engine (demo_world "ending_twist" ∅)) ["a"]) tt)
  ∧ ∃ user, user ∈ [" quit "; PyStr.strip " quit "; ":" +:+ PyStr.strip " quit "]
      ∧ command_head user = Some "quit".
Proof.
  assert (Hok : engine_ok (engine (demo_world "ending_twist" ∅))).
  { apply demo_world_ok. by eexists. }
  assert (Hturn :
    main_turn (mkProcess (mkWorld (engine (demo_world "ending_twist" ∅)) [" quit "; "a"]) tt)
    = (Ret Break, mkProcess (mkWorld (engine (demo_world "ending_twist" ∅)) ["a"]) tt)).
  { vm_compute. reflexivity. }
  split; [exact Hok|]. split; [exact Hturn|].
  destruct (loop_left_by_quit
              (mkProcess (mkWorld (engine (demo_world "ending_twist" ∅)) [" quit "; "a"]) tt)
              _ Hok Hturn)
    as (line & rest & user & Hin & Hu & Hq & _).
  injection Hin as <- <-. exists user. split; [exact Hu|exact Hq].
Defined.

Lemma main_total_witness :
  (length (stdin (proc_world (mkProcess (demo_world "opening" ∅) tt))) < 1)%nat
  ∧ main 1 (mkProcess (demo_world "opening" ∅) tt)
    = (Raise EOFError, mkProcess (demo_world "opening" ∅) tt).
Proof.
  assert (Hfuel : (length (stdin (proc_world (mkProcess (demo_world "opening" ∅) tt))) < 1)%nat)
    by (cbn; lia).
  assert (Hlen : (length (stdin (proc_world (mkProcess (demo_world "opening" ∅) tt))) < 4)%nat)
    by (cbn; lia).
  split; [exact Hfuel|].
  exact (proj1 (main_total 1 (mkProcess (demo_world "opening" ∅) tt) Hfuel) Hlen).
Defined.
